(** * QR attendance sessions of the attendance application

    A shallow embedding of the QR-code attendance flow of [database.py]
    ([mark_single_student_present], [create_qr_session], [redeem_qr_code],
    [deactivate_qr_session]) over the three tables of [setup_database.py]
    it touches ([attendance_sessions], [qr_scans], [attendance]).

    The relational store is modelled as lists of rows together with the
    [UNIQUE] constraints of the schema; a psycopg2 connection is a pair of
    a committed and a pending copy of the tables.  The Python functions are
    written in a small state-and-exception monad whose environment supplies
    everything the code reads from outside: whether the connection can be
    opened, which store calls fail, the wall clock and the generated UUID.

    Modelling choices:
    - one call at a time: a call runs on the committed tables from its
      first statement to its commit, rollback or close;
    - a store call ([cursor.execute], [conn.commit]) either fails as the
      environment says, or raises the unique violation the schema
      determines, or takes effect;
    - a connection is found lost by a store call that fails on it:
      [conn.rollback] takes effect on a connection whose calls have
      worked, and after a failed call it raises when the environment says
      that the next store call fails as well; [cursor.close] and
      [conn.close] do not fail;
    - identifiers and durations are integers; a timestamp is a count of
      microseconds and a [DATE] a day number, so the text
      ['%Y-%m-%d'] handed to the store and the date stored are the same
      day. *)

From Stdlib Require Import ZArith List String Ascii Bool Lia.
From Stdlib Require Import Sorted Permutation.
Import ListNotations.
Local Open Scope string_scope.
Local Open Scope Z_scope.

(** ** Python [datetime] values *)

Module Datetime.

(** A naive [datetime] is the number of microseconds elapsed since
    0001-01-01 00:00:00 (the proleptic Gregorian origin of Python). *)
Definition datetime := Z.

Definition us_per_second : Z := 1000000.
Definition us_per_minute : Z := 60 * us_per_second.
Definition us_per_day : Z := 86400 * us_per_second.

(** [date.max.toordinal()] *)
Definition max_ordinal : Z := 3652059.

(** The values a [datetime] object can hold (years 1 to 9999). *)
Definition representable (t : Z) : bool :=
  (0 <=? t) && (t <? max_ordinal * us_per_day).

(** [timedelta(minutes=m)] in microseconds. *)
Definition timedelta_minutes (m : Z) : Z := m * us_per_minute.

(** [d.toordinal()]: day number, 0001-01-01 being day 1.  A [DATE] column
    is stored as this day number. *)
Definition toordinal (t : datetime) : Z := t / us_per_day + 1.

Definition is_leap (y : Z) : bool :=
  ((y mod 4 =? 0) && negb (y mod 100 =? 0)) || (y mod 400 =? 0).

Definition days_in_month (leap : bool) (m : Z) : Z :=
  if m =? 2 then (if leap then 29 else 28)
  else if (m =? 4) || (m =? 6) || (m =? 9) || (m =? 11) then 30
  else 31.

(** Days of the year that precede the first day of month [m]. *)
Fixpoint days_before_month_aux (leap : bool) (k : nat) : Z :=
  match k with
  | O => 0
  | S k' => days_before_month_aux leap k' + days_in_month leap (Z.of_nat k)
  end.

Definition days_before_month (leap : bool) (m : Z) : Z :=
  days_before_month_aux leap (Z.to_nat (m - 1)).

(** Ordinal to (year, month, day), by 400-, 100-, 4- and 1-year cycles. *)
Definition ord2ymd (ordinal : Z) : Z * Z * Z :=
  let n := ordinal - 1 in
  let n400 := n / 146097 in
  let n := n mod 146097 in
  let n100 := n / 36524 in
  let n := n mod 36524 in
  let n4 := n / 1461 in
  let n := n mod 1461 in
  let n1 := n / 365 in
  let n := n mod 365 in
  let year := n400 * 400 + 1 + n100 * 100 + n4 * 4 + n1 in
  if (n1 =? 4) || (n100 =? 4) then (year - 1, 12, 31)
  else
    let leap := (n1 =? 3) && (negb (n4 =? 24) || (n100 =? 3)) in
    let month := Z.shiftr (n + 50) 5 in
    let preceding := days_before_month leap month in
    if n <? preceding
    then (year, month - 1,
          n - (preceding - days_in_month leap (month - 1)) + 1)
    else (year, month, n - preceding + 1).

Definition digit (d : Z) : string :=
  String (ascii_of_nat (48 + Z.to_nat (d mod 10))) EmptyString.

Definition pad2 (n : Z) : string := digit (n / 10) ++ digit n.
Definition pad4 (n : Z) : string := pad2 (n / 100) ++ pad2 n.

(** [t.strftime('%Y-%m-%d')], for the years 1000 to 9999 *)
Definition strftime_Ymd (t : datetime) : string :=
  let '(y, m, d) := ord2ymd (toordinal t) in
  pad4 y ++ "-" ++ pad2 m ++ "-" ++ pad2 d.

(** [t.strftime('%H:%M:%S')] *)
Definition strftime_HMS (t : datetime) : string :=
  let s := (t mod us_per_day) / us_per_second in
  pad2 (s / 3600) ++ ":" ++ pad2 ((s / 60) mod 60) ++ ":" ++ pad2 (s mod 60).

End Datetime.
Export Datetime.

(** ** The tables

    Rows of the three tables as [setup_database.py] declares them.  Columns
    that the store fills by itself and that no function below reads (the
    [SERIAL] keys of [qr_scans] and [attendance], [created_at],
    [scanned_at]) are left out.  [section_id] is a nullable [INTEGER]; the
    functions below can receive [None] for it. *)

Module Session.
Record row := mk {
  id : Z;
  section_id : option Z;
  session_uuid : string;       (* TEXT UNIQUE NOT NULL *)
  expires_at : datetime;       (* TIMESTAMP NOT NULL *)
  is_active : bool             (* BOOLEAN; only TRUE and FALSE are written *)
}.
Definition deactivated (r : row) : row :=
  mk (id r) (section_id r) (session_uuid r) (expires_at r) false.
End Session.

Module Scan.
Record row := mk {
  session_id : Z;
  student_id : Z
}.
End Scan.

Inductive att_status := Present | Absent | Excused.

Module Attendance.
Record row := mk {
  student_id : Z;
  section_id : option Z;
  semester_id : Z;
  date : Z;                    (* DATE, as a day ordinal *)
  status : att_status
}.
Definition marked_present (r : row) : row :=
  mk (student_id r) (section_id r) (semester_id r) (date r) Present.
End Attendance.

Record tables := mkTables {
  attendance_sessions : list Session.row;
  qr_scans : list Scan.row;
  attendance : list Attendance.row
}.

(** SQL [=] on nullable integers: a comparison with [NULL] is never true. *)
Definition sql_eq (a b : option Z) : bool :=
  match a, b with
  | Some x, Some y => x =? y
  | _, _ => false
  end.

(** [UNIQUE(session_id, student_id)] of [qr_scans]. *)
Definition scan_matches (session_id student_id : Z) (r : Scan.row) : bool :=
  (Scan.session_id r =? session_id) && (Scan.student_id r =? student_id).

(** [UNIQUE(student_id, section_id, date)] of [attendance]; a [NULL]
    section never conflicts. *)
Definition att_matches (student_id : Z) (section_id : option Z) (date : Z)
    (r : Attendance.row) : bool :=
  (Attendance.student_id r =? student_id)
  && sql_eq (Attendance.section_id r) section_id
  && (Attendance.date r =? date).

Definition uuid_matches (uuid : string) (r : Session.row) : bool :=
  String.eqb (Session.session_uuid r) uuid.

(** ** The SQL statements of the four functions *)

Inductive query :=
| SelectSessionByUuid (session_uuid : string)
| DeactivateSessionsOfSection (section_id : option Z)
| InsertSession (section_id : option Z) (session_uuid : string)
                (expires_at : datetime)
| InsertScan (session_id student_id : Z)
| UpsertAttendancePresent (student_id : Z) (section_id : option Z)
                          (semester_id : Z) (date : Z)
| DeactivateSessionByUuid (session_uuid : string).

(** What Python can raise in these functions.  [StoreError] stands for
    every exception of a store call other than the unique violations the
    schema determines (a lost connection, a foreign-key violation, ...).
    [StopException] is what [st.stop()] raises; it is not an [Exception]. *)
Inductive exn := UniqueViolation | StoreError | OverflowError | StopException.

Definition is_Exception (e : exn) : bool :=
  match e with StopException => false | _ => true end.

Definition is_UniqueViolation (e : exn) : bool :=
  match e with UniqueViolation => true | _ => false end.

(** A fetched row of [SELECT id, section_id, expires_at, is_active]. *)
Definition session_tuple : Type := Z * option Z * datetime * bool.

Definition select_tuple (r : Session.row) : session_tuple :=
  (Session.id r, Session.section_id r, Session.expires_at r,
   Session.is_active r).

(** [UPDATE attendance_sessions SET is_active = FALSE WHERE section_id = sec] *)
Definition deactivate_section (sec : option Z) (l : list Session.row)
    : list Session.row :=
  map (fun r => if sql_eq (Session.section_id r) sec
                then Session.deactivated r else r) l.

(** [UPDATE attendance_sessions SET is_active = FALSE WHERE session_uuid = u] *)
Definition deactivate_uuid (u : string) (l : list Session.row)
    : list Session.row :=
  map (fun r => if uuid_matches u r then Session.deactivated r else r) l.

(** [INSERT INTO attendance ... ON CONFLICT (student_id, section_id, date)
    DO UPDATE SET status = 'Present'] *)
Definition upsert_present (stu : Z) (sec : option Z) (sem d : Z)
    (l : list Attendance.row) : list Attendance.row :=
  if existsb (att_matches stu sec d) l
  then map (fun r => if att_matches stu sec d r
                     then Attendance.marked_present r else r) l
  else l ++ [Attendance.mk stu sec sem d Present].

(** One statement on the pending tables.  [seq] is the last value of the
    sequence behind [attendance_sessions.id]; it advances whenever an
    [INSERT] computes its default, also when the insert then fails. *)
Definition run_query (q : query) (t : tables) (seq : Z)
    : (exn + list session_tuple) * tables * Z :=
  match q with
  | SelectSessionByUuid u =>
      (inr (map select_tuple (filter (uuid_matches u) (attendance_sessions t))),
       t, seq)
  | DeactivateSessionsOfSection sec =>
      (inr [],
       mkTables (deactivate_section sec (attendance_sessions t))
                (qr_scans t) (attendance t),
       seq)
  | InsertSession sec u exp =>
      if existsb (uuid_matches u) (attendance_sessions t)
      then (inl UniqueViolation, t, seq + 1)
      else (inr [],
            mkTables
              (attendance_sessions t ++ [Session.mk (seq + 1) sec u exp true])
              (qr_scans t) (attendance t),
            seq + 1)
  | InsertScan sid stu =>
      if existsb (scan_matches sid stu) (qr_scans t)
      then (inl UniqueViolation, t, seq)
      else (inr [],
            mkTables (attendance_sessions t)
                     (qr_scans t ++ [Scan.mk sid stu]) (attendance t),
            seq)
  | UpsertAttendancePresent stu sec sem d =>
      (inr [],
       mkTables (attendance_sessions t) (qr_scans t)
                (upsert_present stu sec sem d (attendance t)),
       seq)
  | DeactivateSessionByUuid u =>
      (inr [],
       mkTables (deactivate_uuid u (attendance_sessions t))
                (qr_scans t) (attendance t),
       seq)
  end.

(** ** Connections, the environment and the monad *)

(** What a call leaves behind, in order. *)
Inductive event :=
| Connected
| Executed (q : query)
| Raised (q : query) (e : exn)
| Committed
| CommitFailed
| RolledBack
| RollbackFailed
| Closed.

(** Everything a call reads from outside the program. *)
Record env := mkEnv {
  connect_ok : bool;           (* the configuration is set and connect() succeeds *)
  fault_at : nat -> bool;      (* the n-th store call of the connection fails *)
  clock : nat -> datetime;     (* the n-th datetime.now() of the call *)
  uuid4 : string               (* str(uuid.uuid4()) *)
}.

Record state := mkState {
  committed : tables;
  pending : tables;
  seq : Z;
  fetched : list session_tuple;
  calls : nat;
  reads : nat;
  trace : list event;
  failed : bool                (* a store call of the connection has failed *)
}.

Inductive res (A : Type) :=
| Val (a : A)
| Exc (e : exn).
Arguments Val {A} a.
Arguments Exc {A} e.

Definition M (A : Type) : Type := env -> state -> res A * state.

Definition ret {A} (a : A) : M A := fun _ s => (Val a, s).

Definition bind {A B} (m : M A) (k : A -> M B) : M B :=
  fun e s =>
    match m e s with
    | (Val a, s') => k a e s'
    | (Exc x, s') => (Exc x, s')
    end.

Definition raise {A} (x : exn) : M A := fun _ s => (Exc x, s).

(** [try: body / except <class>: handler] *)
Definition try_except {A} (body : M A) (catches : exn -> bool)
    (handler : M A) : M A :=
  fun e s =>
    match body e s with
    | (Val a, s') => (Val a, s')
    | (Exc x, s') => if catches x then handler e s' else (Exc x, s')
    end.

(** [try: body / finally: cleanup] *)
Definition try_finally {A} (body : M A) (cleanup : M unit) : M A :=
  fun e s =>
    match body e s with
    | (r, s') =>
        match cleanup e s' with
        | (Val _, s'') => (r, s'')
        | (Exc x, s'') => (Exc x, s'')
        end
    end.

Declare Scope py_scope.
Delimit Scope py_scope with py.
Notation "x <- m ;; k" := (bind m (fun x => k))
  (at level 61, m at next level, right associativity) : py_scope.
Notation "m ;; k" := (bind m (fun _ => k))
  (at level 61, right associativity) : py_scope.
Local Open Scope py_scope.

Definition log (ev : event) (s : state) : state :=
  mkState (committed s) (pending s) (seq s) (fetched s) (calls s) (reads s)
          (trace s ++ [ev]) (failed s).

Definition count_call (s : state) : state :=
  mkState (committed s) (pending s) (seq s) (fetched s) (S (calls s))
          (reads s) (trace s) (failed s).

(** The store call that has just been counted failed as the environment
    said. *)
Definition mark_failed (s : state) : state :=
  mkState (committed s) (pending s) (seq s) (fetched s) (calls s)
          (reads s) (trace s) true.

(** [get_db_connection()]: when the configuration is missing or
    [psycopg2.connect] fails, the function reports with [st.error] and
    calls [st.stop()], which ends the script by raising. *)
Definition get_db_connection : M unit :=
  fun e s =>
    if connect_ok e then (Val tt, log Connected s)
    else (Exc StopException, s).

(** [cursor.execute(q)] *)
Definition execute (q : query) : M unit :=
  fun e s =>
    let s1 := count_call s in
    if fault_at e (calls s) then
      (Exc StoreError, log (Raised q StoreError) (mark_failed s1))
    else
      match run_query q (pending s) (seq s) with
      | (inl x, _, seq') =>
          (Exc x,
           log (Raised q x)
             (mkState (committed s1) (pending s1) seq' (fetched s1)
                      (calls s1) (reads s1) (trace s1) (failed s1)))
      | (inr rows, t', seq') =>
          (Val tt,
           log (Executed q)
             (mkState (committed s1) t' seq' rows
                      (calls s1) (reads s1) (trace s1) (failed s1)))
      end.

(** [cursor.fetchone()] *)
Definition fetchone : M (option session_tuple) :=
  fun _ s =>
    match fetched s with
    | [] => (Val None, s)
    | r :: rest =>
        (Val (Some r),
         mkState (committed s) (pending s) (seq s) rest (calls s) (reads s)
                 (trace s) (failed s))
    end.

(** [conn.commit()] *)
Definition commit : M unit :=
  fun e s =>
    let s1 := count_call s in
    if fault_at e (calls s) then
      (Exc StoreError, log CommitFailed (mark_failed s1))
    else
      (Val tt,
       log Committed
         (mkState (pending s1) (pending s1) (seq s1) (fetched s1)
                  (calls s1) (reads s1) (trace s1) (failed s1))).

(** [conn.rollback()], a store call of the connection like the others.
    On a connection whose calls have worked it takes effect.  After a
    call has failed the connection may be lost: the rollback then raises
    when the environment says that this call fails too. *)
Definition rollback : M unit :=
  fun e s =>
    let s1 := count_call s in
    if failed s && fault_at e (calls s) then
      (Exc StoreError, log RollbackFailed s1)
    else
      (Val tt,
       log RolledBack
         (mkState (committed s1) (committed s1) (seq s1) [] (calls s1)
                  (reads s1) (trace s1) (failed s1))).

(** [cursor.close(); conn.close()]: what was not committed is lost. *)
Definition close : M unit :=
  fun _ s =>
    (Val tt,
     log Closed
       (mkState (committed s) (committed s) (seq s) [] (calls s) (reads s)
                (trace s) (failed s))).

(** [datetime.now()] *)
Definition datetime_now : M datetime :=
  fun e s =>
    (Val (clock e (reads s)),
     mkState (committed s) (pending s) (seq s) (fetched s) (calls s)
             (S (reads s)) (trace s) (failed s)).

(** [str(uuid.uuid4())] *)
Definition new_uuid : M string := fun e s => (Val (uuid4 e), s).

(** [t + timedelta(minutes=m)], which raises when the sum is no
    [datetime]. *)
Definition datetime_add_minutes (t : datetime) (m : Z) : M datetime :=
  let r := t + timedelta_minutes m in
  if representable r then ret r else raise OverflowError.

(** Truth value of [None] or a string. *)
Definition truthy (o : option string) : bool :=
  match o with
  | None => false
  | Some s => negb (String.eqb s "")
  end.

(** ** The functions of [database.py] *)

Definition mark_single_student_present (student_id : Z)
    (section_id : option Z) (semester_id : Z) : M (option string) :=
  now <- datetime_now ;;
  let date_str := strftime_Ymd now in
  try_except
    (execute (UpsertAttendancePresent student_id section_id semester_id
                (toordinal now)) ;;
     ret (Some date_str))
    is_Exception
    (ret None).

Definition create_qr_session (section_id : option Z) (duration_minutes : Z)
    : M (option string) :=
  get_db_connection ;;
  session_uuid <- new_uuid ;;
  now <- datetime_now ;;
  expires_at <- datetime_add_minutes now duration_minutes ;;
  try_finally
    (try_except
       (execute (DeactivateSessionsOfSection section_id) ;;
        execute (InsertSession section_id session_uuid expires_at) ;;
        commit ;;
        ret (Some session_uuid))
       is_Exception
       (rollback ;; ret None))
    close.

Definition msg_invalid : string :=
  "Invalid QR Code. This session does not exist.".
Definition msg_expired (expires_at : datetime) : string :=
  "QR Code has expired. This session ended at "
  ++ strftime_HMS expires_at ++ ".".
Definition msg_inactive : string :=
  "This attendance session is no longer active.".
Definition msg_already : string :=
  "Attendance already marked for this session.".
Definition msg_success (date_marked : string) : string :=
  "Attendance successfully marked for **" ++ date_marked ++ "**!".
Definition msg_failed : string :=
  "Failed to save attendance. Please contact your teacher.".
Definition msg_unexpected : string := "An unexpected error occurred.".

Definition redeem_qr_code (session_uuid : string) (student_id : Z)
    (semester_id : Z) : M (string * string) :=
  get_db_connection ;;
  try_finally
    (try_except
       (execute (SelectSessionByUuid session_uuid) ;;
        session_data <- fetchone ;;
        match session_data with
        | None => rollback ;; ret ("error", msg_invalid)
        | Some (session_db_id, section_id, expires_at, is_active) =>
            now <- datetime_now ;;
            if now >? expires_at then
              rollback ;; ret ("error", msg_expired expires_at)
            else if negb is_active then
              rollback ;; ret ("error", msg_inactive)
            else
              early <- try_except
                         (execute (InsertScan session_db_id student_id) ;;
                          ret None)
                         is_UniqueViolation
                         (rollback ;; ret (Some ("info", msg_already))) ;;
              match early with
              | Some r => ret r
              | None =>
                  date_marked <- mark_single_student_present
                                   student_id section_id semester_id ;;
                  if truthy date_marked then
                    commit ;;
                    ret ("success",
                         msg_success (match date_marked with
                                      | Some d => d
                                      | None => ""
                                      end))
                  else
                    rollback ;; ret ("error", msg_failed)
              end
        end)
       is_Exception
       (rollback ;; ret ("error", msg_unexpected)))
    close.

Definition deactivate_qr_session (session_uuid : string) : M bool :=
  get_db_connection ;;
  try_finally
    (try_except
       (execute (DeactivateSessionByUuid session_uuid) ;;
        commit ;;
        ret true)
       is_Exception
       (rollback ;; ret false))
    close.

(** ** Calling a function on the store *)

(** The store between calls: the committed tables and the sequence. *)
Record world := mkWorld {
  db : tables;
  session_id_seq : Z
}.

Inductive outcome (A : Type) :=
| Returned (a : A)
| Escaped (e : exn).
Arguments Returned {A} a.
Arguments Escaped {A} e.

Record run_result (A : Type) := mkRun {
  result : outcome A;
  after : world;
  events : list event
}.
Arguments mkRun {A}.
Arguments result {A}.
Arguments after {A}.
Arguments events {A}.

Definition call {A} (m : M A) (e : env) (w : world) : run_result A :=
  let s0 := mkState (db w) (db w) (session_id_seq w) [] O O [] false in
  match m e s0 with
  | (Val a, s) => mkRun (Returned a) (mkWorld (committed s) (seq s)) (trace s)
  | (Exc x, s) => mkRun (Escaped x) (mkWorld (committed s) (seq s)) (trace s)
  end.

(** ** Vocabulary of the specification *)

(** The session a token identifies: the row [fetchone()] returns. *)
Definition lookup_session (u : string) (t : tables) : option Session.row :=
  hd_error (filter (uuid_matches u) (attendance_sessions t)).

(** The outcomes of a redemption, as the pairs the code returns. *)
Definition Success (date_marked : string) : string * string :=
  ("success", msg_success date_marked).
Definition AlreadyMarked : string * string := ("info", msg_already).
Definition InvalidToken : string * string := ("error", msg_invalid).
Definition SessionInactive : string * string := ("error", msg_inactive).
Definition SessionExpired (expires_at : datetime) : string * string :=
  ("error", msg_expired expires_at).
Definition RedemptionFailed (r : string * string) : Prop :=
  r = ("error", msg_failed) \/ r = ("error", msg_unexpected).

(** An unexpected store error happened during the call. *)
Definition store_error (ev : event) : bool :=
  match ev with
  | Raised _ StoreError => true
  | CommitFailed => true
  | _ => false
  end.

(** A statement reached the store. *)
Definition store_statement (ev : event) : bool :=
  match ev with
  | Executed _ => true
  | Raised _ _ => true
  | _ => false
  end.

(** The active sessions of a section. *)
Definition active_in (sec : Z) (r : Session.row) : bool :=
  Session.is_active r && sql_eq (Session.section_id r) (Some sec).

Definition one_active_per_section (t : tables) : Prop :=
  forall sec,
    (List.length (filter (active_in sec) (attendance_sessions t)) <= 1)%nat.

(** [UNIQUE(student_id, section_id, date)] holds in a table. *)
Definition att_unique (l : list Attendance.row) : Prop :=
  forall stu sec d, (List.length (filter (att_matches stu sec d) l) <= 1)%nat.

(** The worlds the application can be in: [setup_database.py] creates
    [attendance_sessions] empty, the three functions below act on it, and
    the rest of the application only writes the other tables or deletes
    session rows through [ON DELETE CASCADE]. *)
Inductive reachable : world -> Prop :=
| reach_setup t n :
    attendance_sessions t = [] -> reachable (mkWorld t n)
| reach_create w e sec d :
    reachable w -> reachable (after (call (create_qr_session sec d) e w))
| reach_redeem w e u stu sem :
    reachable w -> reachable (after (call (redeem_qr_code u stu sem) e w))
| reach_deactivate w e u :
    reachable w -> reachable (after (call (deactivate_qr_session u) e w))
| reach_elsewhere w keep scans att :
    reachable w ->
    reachable (mkWorld (mkTables (filter keep (attendance_sessions (db w)))
                                 scans att)
                       (session_id_seq w)).

(** ** Sample data

    A session of section 7 issued on 2025-03-14 at 09:05:07 for five
    minutes, and environments in which the store works. *)

Definition t_issue : datetime := 63877539907000000.
Definition t_expiry : datetime := t_issue + timedelta_minutes 5.

(** The connection opens, no store call fails, the clock shows [t]. *)
Definition quiet_env (t : datetime) : env :=
  mkEnv true (fun _ => false) (fun _ => t) "6f1c2a9e".

(** As [quiet_env], but the [n]-th store call fails. *)
Definition faulty_env (n : nat) (t : datetime) : env :=
  mkEnv true (Nat.eqb n) (fun _ => t) "6f1c2a9e".

(** As [quiet_env], but the connection is lost at the [n]-th store call:
    that call and every later one fail. *)
Definition lost_env (n : nat) (t : datetime) : env :=
  mkEnv true (Nat.leb n) (fun _ => t) "6f1c2a9e".

(** The database cannot be reached. *)
Definition offline_env (t : datetime) : env :=
  mkEnv false (fun _ => false) (fun _ => t) "6f1c2a9e".

Definition live_session : Session.row :=
  Session.mk 1 (Some 7) "tok-1" t_expiry true.

Definition stopped_session : Session.row :=
  Session.mk 1 (Some 7) "tok-1" t_expiry false.

Definition empty_world : world := mkWorld (mkTables [] [] []) 0.
Definition live_world : world := mkWorld (mkTables [live_session] [] []) 1.
Definition stopped_world : world :=
  mkWorld (mkTables [stopped_session] [] []) 1.

(** ** The attendance functions of the teacher pages

    [save_attendance], [check_date_status] and [get_attendance_summary]
    act on the [attendance] table with statements of their own.  Their
    statements are counted as store calls and can fail like the others;
    the trace of events records the statements of the QR functions only.
    A Python [date] and the text ['%Y-%m-%d'] made from it are the day
    number, as for [mark_single_student_present]. *)

Inductive att_query :=
| DeleteAttendanceOfDay (section_id : option Z) (date : Z)
| InsertAttendance (rows : list Attendance.row)
| ExistsAttendanceOfDay (section_id : option Z) (date : Z)
| SelectDistinctDates (section_id : option Z).

Inductive att_answer :=
| NoAnswer
| Flag (b : bool)
| Dates (l : list Z).

(** [WHERE section_id = sec AND date = d] *)
Definition day_matches (sec : option Z) (d : Z) (r : Attendance.row) : bool :=
  sql_eq (Attendance.section_id r) sec && (Attendance.date r =? d).

(** [WHERE section_id = sec] *)
Definition section_matches (sec : option Z) (r : Attendance.row) : bool :=
  sql_eq (Attendance.section_id r) sec.

(** A multi-row [INSERT INTO attendance]: the rows are added in order;
    the statement fails as soon as one of them meets a row with the same
    (student_id, section_id, date). *)
Fixpoint insert_attendance (rows l : list Attendance.row)
    : option (list Attendance.row) :=
  match rows with
  | [] => Some l
  | a :: rest =>
      if existsb (att_matches (Attendance.student_id a)
                    (Attendance.section_id a) (Attendance.date a)) l
      then None
      else insert_attendance rest (l ++ [a])
  end.

(** Insertion into a list ordered by [le]. *)
Fixpoint insert_by (le : Z -> Z -> bool) (x : Z) (l : list Z) : list Z :=
  match l with
  | [] => [x]
  | y :: rest => if le x y then x :: y :: rest else y :: insert_by le x rest
  end.

Fixpoint sort_by (le : Z -> Z -> bool) (l : list Z) : list Z :=
  match l with
  | [] => []
  | x :: rest => insert_by le x (sort_by le rest)
  end.

(** [ORDER BY date], and Python's [sorted(l)] *)
Definition sorted (l : list Z) : list Z := sort_by Z.leb l.

(** [sorted(l, reverse=True)] *)
Definition sorted_reverse (l : list Z) : list Z := sort_by Z.geb l.

(** [SELECT DISTINCT date FROM attendance WHERE section_id = sec
    ORDER BY date] *)
Definition distinct_dates (sec : option Z) (l : list Attendance.row)
    : list Z :=
  sorted (nodup Z.eq_dec
            (map Attendance.date (filter (section_matches sec) l))).

Definition run_att_query (q : att_query) (t : tables)
    : (exn + att_answer) * tables :=
  match q with
  | DeleteAttendanceOfDay sec d =>
      (inr NoAnswer,
       mkTables (attendance_sessions t) (qr_scans t)
                (filter (fun r => negb (day_matches sec d r)) (attendance t)))
  | InsertAttendance rows =>
      match insert_attendance rows (attendance t) with
      | Some l => (inr NoAnswer,
                   mkTables (attendance_sessions t) (qr_scans t) l)
      | None => (inl UniqueViolation, t)
      end
  | ExistsAttendanceOfDay sec d =>
      (inr (Flag (existsb (day_matches sec d) (attendance t))), t)
  | SelectDistinctDates sec =>
      (inr (Dates (distinct_dates sec (attendance t))), t)
  end.

(** [cursor.execute(q)] for these statements, with what it fetches. *)
Definition execute_att (q : att_query) : M att_answer :=
  fun e s =>
    let s1 := count_call s in
    if fault_at e (calls s) then (Exc StoreError, mark_failed s1)
    else
      match run_att_query q (pending s) with
      | (inl x, _) => (Exc x, s1)
      | (inr a, t') =>
          (Val a,
           mkState (committed s1) t' (seq s1) (fetched s1) (calls s1)
                   (reads s1) (trace s1) (failed s1))
      end.

(** ['Present'] and ['Absent'] are the statuses [save_attendance] keeps. *)
Definition parse_mark (status : string) : option att_status :=
  if String.eqb status "Present" then Some Present
  else if String.eqb status "Absent" then Some Absent
  else None.

(** [[(student_id, section_id, semester_id, date_str, status)
     for student_id, status in attendance_dict.items()
     if status in ('Present', 'Absent')]] *)
Fixpoint new_records (section_id : option Z) (semester_id date : Z)
    (attendance_dict : list (Z * string)) : list Attendance.row :=
  match attendance_dict with
  | [] => []
  | (student_id, status) :: rest =>
      match parse_mark status with
      | Some m =>
          Attendance.mk student_id section_id semester_id date m
          :: new_records section_id semester_id date rest
      | None => new_records section_id semester_id date rest
      end
  end.

(** [attendance_dict] is a Python dict, given by its items in order; a
    dict has each key once. *)
Definition save_attendance (section_id : option Z) (date : Z)
    (attendance_dict : list (Z * string)) (semester_id : Z) : M bool :=
  get_db_connection ;;
  try_except
    (execute_att (DeleteAttendanceOfDay section_id date) ;;
     let records := new_records section_id semester_id date attendance_dict in
     match records with
     | [] => ret tt
     | _ :: _ => execute_att (InsertAttendance records) ;; ret tt
     end ;;
     commit ;;
     close ;;
     ret true)
    is_Exception
    (rollback ;; close ;; ret false).

Definition check_date_status (section_id : option Z) (date : Z) : M bool :=
  get_db_connection ;;
  answer <- execute_att (ExistsAttendanceOfDay section_id date) ;;
  close ;;
  ret (match answer with Flag b => b | _ => false end).

(** [d.weekday()], Monday being 0. *)
Definition weekday (d : Z) : Z := (d + 6) mod 7.

(** The days from [first] to [last], both included. *)
Definition days_from_to (first last : Z) : list Z :=
  map (fun i => first + Z.of_nat i)
      (List.seq 0%nat (Z.to_nat (last - first + 1))).

(** [pd.bdate_range(start=first, end=last)]: the days from Monday to
    Friday. *)
Definition bdate_range (first last : Z) : list Z :=
  filter (fun d => weekday d <? 5) (days_from_to first last).

(** [min] of a non-empty list. *)
Definition list_min (x : Z) (l : list Z) : Z := fold_left Z.min l x.

(** [set(a) - set(b)], in some order. *)
Definition set_minus (a b : list Z) : list Z :=
  filter (fun d => negb (existsb (Z.eqb d) b)) (nodup Z.eq_dec a).

(** Returns the dates taken and the dates missed, both as the columns of
    the two data frames. *)
Definition get_attendance_summary (section_id : option Z)
    : M (list Z * list Z) :=
  get_db_connection ;;
  answer <- execute_att (SelectDistinctDates section_id) ;;
  close ;;
  match (match answer with Dates l => l | _ => [] end) with
  | [] => ret ([], [])
  | (_ :: _) as df =>
      match sorted_reverse df with
      | [] => ret ([], [])
      | (first :: others) as dates_taken =>
          let min_date := list_min first others in
          now <- datetime_now ;;
          let max_date := toordinal now in
          let all_weekdays := bdate_range min_date max_date in
          ret (dates_taken,
               sorted_reverse (set_minus all_weekdays dates_taken))
      end
  end.

(** ** The pages that call the QR functions

    One run of the script of a page is a function of the page's part of
    [st.session_state], of what the widgets return in that run (they are
    arguments), of the environment and of the store.  [st.rerun()] ends
    the run; so does an exception that nothing catches.  The text of the
    teacher's countdown and the image of the code are not modelled. *)

(** What a run shows with [st.success], [st.info], [st.error] and
    [st.warning]. *)
Inductive notice :=
| st_success (text : string)
| st_info (text : string)
| st_error (text : string)
| st_warning (text : string)
| countdown.

(** How a run ends. *)
Inductive run_end :=
| Finished
| Rerun
| Uncaught (x : exn)
| IndexError
| TypeError.

Record page_run (S : Type) := mkPage {
  session_state : S;
  store : world;
  shown : list notice;
  ending : run_end
}.
Arguments mkPage {S}.
Arguments session_state {S}.
Arguments store {S}.
Arguments shown {S}.
Arguments ending {S}.

(** Truth value of an identifier that may be [None]. *)
Definition truthy_id (o : option Z) : bool :=
  match o with
  | Some z => negb (z =? 0)
  | None => false
  end.

(** *** [student_ui.py], page 'Scan QR' *)

(** [scan_result_message] is [(None, None)] or a pair of strings. *)
Record scan_state := mkScan {
  scan_result_message : option (string * string);
  is_scanning_allowed : bool
}.

Definition scan_initial : scan_state := mkScan None true.

Definition msg_no_student : string :=
  "Student ID not found. Log out and back in.".

(** The message of the last scan, as the page displays it. *)
Definition show_result (m : option (string * string)) : list notice :=
  match m with
  | None => []
  | Some (status, message) =>
      if String.eqb status "success" then [st_success message]
      else if String.eqb status "info" then [st_info message]
      else if String.eqb status "error" then [st_error message]
      else []
  end.

(** The button 'Reset Scanner' at the end of the page. *)
Definition reset_scanner (reset_clicked : bool) (st : scan_state)
    (w : world) (sh : list notice) : page_run scan_state :=
  if reset_clicked then mkPage (mkScan None true) w sh Rerun
  else mkPage st w sh Finished.

(** One run of the page.  [app_student_id] and [app_semester_id] are
    what the session state holds; [qr_data] is what the scanner returns
    when it is shown. *)
Definition scan_page (st : scan_state) (app_student_id app_semester_id
    : option Z) (qr_data : option string) (reset_clicked : bool)
    (e : env) (w : world) : page_run scan_state :=
  let sh := show_result (scan_result_message st) in
  if is_scanning_allowed st then
    let sh := (sh ++ [st_info "Point your camera at the QR Code..."])%list in
    if truthy qr_data then
      let stopped := mkScan (scan_result_message st) false in
      match qr_data, app_student_id, app_semester_id with
      | Some data, Some student_id, Some semester_id =>
          if truthy_id app_student_id && truthy_id app_semester_id then
            let run := call (redeem_qr_code data student_id semester_id) e w in
            match result run with
            | Returned r => mkPage (mkScan (Some r) false) (after run) sh Rerun
            | Escaped x => mkPage stopped (after run) sh (Uncaught x)
            end
          else mkPage (mkScan (Some ("error", msg_no_student)) false) w sh
                      Rerun
      | _, _, _ =>
          mkPage (mkScan (Some ("error", msg_no_student)) false) w sh Rerun
      end
    else reset_scanner reset_clicked st w sh
  else
    let sh :=
      match scan_result_message st with
      | Some (status, _) =>
          if negb (String.eqb status "")
          then (sh ++ [st_info "Scan complete! Press 'Reset' to scan again."])
               %list
          else sh
      | None => sh
      end in
    reset_scanner reset_clicked st w sh.

(** What the widgets and the environment give to one run. *)
Record scan_input := mkScanInput {
  qr_data : option string;
  reset_clicked : bool;
  scan_env : env
}.

(** Successive runs of the page for one student. *)
Fixpoint scan_runs (student_id semester_id : option Z)
    (inputs : list scan_input) (st : scan_state) (w : world)
    : scan_state * world :=
  match inputs with
  | [] => (st, w)
  | i :: rest =>
      let run := scan_page st student_id semester_id (qr_data i)
                   (reset_clicked i) (scan_env i) w in
      scan_runs student_id semester_id rest (session_state run) (store run)
  end.

(** *** [teacher_ui.py], page 'QR Attendance' *)

Record qr_state := mkQr {
  qr_session_uuid : option string;
  qr_section_id : option Z;
  qr_expires_at : option datetime
}.

Definition qr_initial : qr_state := mkQr None None None.

(** [[k for k, v in teacher_sections.items() if v == name][0]], [None]
    standing for the [IndexError] of an empty list. *)
Definition selected_key (teacher_sections : list (Z * string))
    (name : string) : option Z :=
  hd_error (map fst (filter (fun kv => String.eqb (snd kv) name)
                       teacher_sections)).

(** [st.slider(label, min_value, max_value, value)] on integers: the
    handle stands on one of the whole positions from [min_value] to
    [max_value].  The widget returns [value] until the user moves the
    handle, then the position chosen; [moved_to] is the rank of that
    position counted from the left, and a rank the slider does not have
    is no move. *)
Definition slider_positions (min_value max_value : Z) : list Z :=
  map (fun n => min_value + Z.of_nat n)
      (List.seq 0%nat (Z.to_nat (max_value - min_value + 1))).

Definition st_slider (min_value max_value value : Z)
    (moved_to : option nat) : Z :=
  match moved_to with
  | None => value
  | Some n => nth n (slider_positions min_value max_value) value
  end.

(** [st.slider("Session Duration (minutes):", min_value=1, max_value=15,
    value=5)], the slider of the form that starts a session. *)
Definition duration_slider (moved_to : option nat) : Z :=
  st_slider 1 15 5 moved_to.

Record qr_input := mkQrInput {
  teacher_sections : list (Z * string);
  section_display_name : string;   (* the select box *)
  duration : Z;                    (* the slider *)
  start_clicked : bool;            (* 'Start Session' *)
  deactivate_clicked : bool;       (* 'Deactivate Session Now' *)
  now_started : datetime;          (* datetime.now() after the session is made *)
  now_displayed : datetime;        (* datetime.now() for the countdown *)
  create_env : env;
  deactivate_env : env
}.

(** Part B of the page: the active code and its countdown. *)
Definition qr_display (i : qr_input) (st : qr_state) (w : world)
    (sh : list notice) : page_run qr_state :=
  if truthy (qr_session_uuid st) then
    match qr_session_uuid st, qr_expires_at st with
    | Some uuid, Some expires_at =>
        if expires_at - now_displayed i >? 0 then
          let sh := (sh ++ [countdown])%list in
          if deactivate_clicked i then
            let run := call (deactivate_qr_session uuid) (deactivate_env i) w in
            match result run with
            | Returned _ => mkPage qr_initial (after run) sh Rerun
            | Escaped x => mkPage st (after run) sh (Uncaught x)
            end
          else mkPage st w sh Rerun
        else
          mkPage qr_initial w
                 (sh ++ [st_warning "This session has expired."])%list
                 Finished
    | _, _ => mkPage st w sh TypeError
    end
  else mkPage st w sh Finished.

(** One run of the page: part A, the form that starts a session, then
    part B. *)
Definition qr_page (i : qr_input) (st : qr_state) (w : world)
    : page_run qr_state :=
  if start_clicked i then
    match selected_key (teacher_sections i) (section_display_name i) with
    | None => mkPage st w [] IndexError
    | Some selected_section_id =>
        let st1 := mkQr None (qr_section_id st) (qr_expires_at st) in
        let run := call (create_qr_session (Some selected_section_id)
                           (duration i)) (create_env i) w in
        match result run with
        | Escaped x => mkPage st1 (after run) [] (Uncaught x)
        | Returned session_uuid =>
            if truthy session_uuid then
              let expires := now_started i + timedelta_minutes (duration i) in
              if representable expires then
                mkPage (mkQr session_uuid (Some selected_section_id)
                             (Some expires))
                       (after run) [] Rerun
              else
                mkPage (mkQr session_uuid (Some selected_section_id)
                             (qr_expires_at st))
                       (after run) [] (Uncaught OverflowError)
            else
              qr_display i st1 (after run)
                [st_error "Failed to create a QR session."]
        end
    end
  else qr_display i st w [].

(** Successive runs of the page. *)
Fixpoint qr_runs (inputs : list qr_input) (st : qr_state) (w : world)
    : qr_state * world :=
  match inputs with
  | [] => (st, w)
  | i :: rest =>
      let run := qr_page i st w in
      qr_runs rest (session_state run) (store run)
  end.

(** [UNIQUE(session_id, student_id)] holds in a table. *)
Definition scans_unique (l : list Scan.row) : Prop :=
  forall sid stu, (List.length (filter (scan_matches sid stu) l) <= 1)%nat.

(** The page's state is consistent when a session that is shown has an
    expiry to count down to. *)
Definition qr_consistent (st : qr_state) : Prop :=
  truthy (qr_session_uuid st) = true -> qr_expires_at st <> None.

(** The sections of a teacher, and the widgets of a run that starts a
    session of five minutes for the first one. *)
Definition sections_sample : list (Z * string) :=
  [(7, "A (Algebra)"); (8, "B (Biology)")].

Definition start_input (e : env) : qr_input :=
  mkQrInput sections_sample "A (Algebra)" 5 true false
            (t_issue + 1) (t_issue + 2) e e.

(** A later run in which the teacher presses nothing, or the
    deactivation button. *)
Definition later_input (deactivate : bool) (now : datetime) (e : env)
    : qr_input :=
  mkQrInput sections_sample "A (Algebra)" 5 false deactivate now now e e.

(** ** Semesters

    The functions of [database.py] that keep the [semesters] table, from
    which the application takes the semester it hands to the pages.  The
    table is a store of its own; the store calls of one call of a
    function are counted from 0 across the connections the function
    opens, and the environment says which of them fail. *)

Module Semester.
Record row := mk {
  id : Z;
  semester_name : string;      (* TEXT UNIQUE NOT NULL *)
  start_date : Z;              (* DATE NOT NULL, as a day ordinal *)
  end_date : Z;
  is_active : bool
}.
End Semester.

Record sem_store := mkSemStore {
  semesters : list Semester.row;
  semester_id_seq : Z
}.

Record sem_run (A : Type) := mkSemRun {
  sem_result : outcome A;
  sem_after : sem_store;
  connections : nat            (* connections the call has opened *)
}.
Arguments mkSemRun {A}.
Arguments sem_result {A}.
Arguments sem_after {A}.
Arguments connections {A}.

(** [start_date <= %s AND end_date >= %s], with the new end and the new
    start. *)
Definition overlaps (start_date end_date : Z) (r : Semester.row) : bool :=
  (Semester.start_date r <=? end_date) && (Semester.end_date r >=? start_date).

(** [AND id != %s], added when [existing_semester_id] is given. *)
Definition not_excluded (existing_semester_id : option Z)
    (r : Semester.row) : bool :=
  if truthy_id existing_semester_id
  then negb (sql_eq (Some (Semester.id r)) existing_semester_id)
  else true.

(** [check_semester_overlap]; [n] is the number of its store call.  It
    has no handler. *)
Definition check_semester_overlap (start_date end_date : Z)
    (existing_semester_id : option Z) (e : env) (n : nat) (s : sem_store)
    : outcome bool :=
  if connect_ok e then
    if fault_at e n then Escaped StoreError
    else Returned (existsb (fun r => overlaps start_date end_date r
                                     && not_excluded existing_semester_id r)
                     (semesters s))
  else Escaped StopException.

Definition name_taken (name : string) (r : Semester.row) : bool :=
  String.eqb (Semester.semester_name r) name.

(** [add_new_semester(name, start_date, end_date)]; a missing date is
    [None].  Only the unique violation of the name is caught. *)
Definition add_new_semester (name : string) (start_date end_date : option Z)
    (e : env) (s : sem_store) : sem_run bool :=
  match start_date, end_date with
  | Some sd, Some ed =>
      if String.eqb name "" then mkSemRun (Returned false) s 0
      else if ed <=? sd then mkSemRun (Returned false) s 0
      else
        match check_semester_overlap sd ed None e 0 s with
        | Escaped x => mkSemRun (Escaped x) s (if connect_ok e then 1 else 0)
        | Returned true => mkSemRun (Returned false) s 1
        | Returned false =>
            if fault_at e 1 then mkSemRun (Escaped StoreError) s 2
            else
              let s1 := mkSemStore (semesters s) (semester_id_seq s + 1) in
              if existsb (name_taken name) (semesters s)
              then mkSemRun (Returned false) s1 2
              else if fault_at e 2 then mkSemRun (Escaped StoreError) s1 2
              else
                mkSemRun (Returned true)
                  (mkSemStore
                     (semesters s
                      ++ [Semester.mk (semester_id_seq s + 1) name sd ed
                                      false])
                     (semester_id_seq s + 1))
                  2
        end
  | _, _ => mkSemRun (Returned false) s 0
  end.

(** [UPDATE semesters SET semester_name, start_date, end_date
    WHERE id = semester_id] *)
Definition update_row (semester_id : Z) (name : string) (sd ed : Z)
    (r : Semester.row) : Semester.row :=
  if Semester.id r =? semester_id
  then Semester.mk (Semester.id r) name sd ed (Semester.is_active r)
  else r.

(** The update meets the unique name when it renames a row to the name
    of another one. *)
Definition rename_conflict (semester_id : Z) (name : string)
    (l : list Semester.row) : bool :=
  existsb (fun r => Semester.id r =? semester_id) l
  && existsb (fun r => name_taken name r
                       && negb (Semester.id r =? semester_id)) l.

Definition update_semester (semester_id : option Z) (name : string)
    (start_date end_date : option Z) (e : env) (s : sem_store)
    : sem_run bool :=
  match semester_id, start_date, end_date with
  | Some sid, Some sd, Some ed =>
      if negb (truthy_id semester_id) || String.eqb name ""
      then mkSemRun (Returned false) s 0
      else if ed <=? sd then mkSemRun (Returned false) s 0
      else
        match check_semester_overlap sd ed semester_id e 0 s with
        | Escaped x => mkSemRun (Escaped x) s (if connect_ok e then 1 else 0)
        | Returned true => mkSemRun (Returned false) s 1
        | Returned false =>
            if fault_at e 1 then mkSemRun (Escaped StoreError) s 2
            else if rename_conflict sid name (semesters s)
            then mkSemRun (Returned false) s 2
            else if fault_at e 2 then mkSemRun (Escaped StoreError) s 2
            else
              mkSemRun (Returned true)
                (mkSemStore (map (update_row sid name sd ed) (semesters s))
                            (semester_id_seq s))
                2
        end
  | _, _, _ => mkSemRun (Returned false) s 0
  end.

(** [UPDATE semesters SET is_active = FALSE], then
    [UPDATE semesters SET is_active = TRUE WHERE id = semester_id] *)
Definition activate_only (semester_id : option Z) (r : Semester.row)
    : Semester.row :=
  Semester.mk (Semester.id r) (Semester.semester_name r)
              (Semester.start_date r) (Semester.end_date r)
              (sql_eq (Some (Semester.id r)) semester_id).

Definition set_active_semester (semester_id : option Z) (e : env)
    (s : sem_store) : sem_run bool :=
  if connect_ok e then
    if fault_at e 0 || fault_at e 1 || fault_at e 2
    then mkSemRun (Returned false) s 1
    else mkSemRun (Returned true)
           (mkSemStore (map (activate_only semester_id) (semesters s))
                       (semester_id_seq s))
           1
  else mkSemRun (Escaped StopException) s 0.

(** [get_active_semester()]: the first active semester, or
    [(None, None)]. *)
Definition get_active_semester (e : env) (s : sem_store)
    : sem_run (option Z * option string) :=
  if connect_ok e then
    if fault_at e 0 then mkSemRun (Escaped StoreError) s 1
    else
      mkSemRun
        (Returned
           (match filter Semester.is_active (semesters s) with
            | r :: _ => (Some (Semester.id r),
                         Some (Semester.semester_name r))
            | [] => (None, None)
            end))
        s 1
  else mkSemRun (Escaped StopException) s 0.

(** The rows are well formed: the primary key holds and precedes the
    sequence, each semester ends after it starts, and two semesters never
    share a day. *)
Definition sem_well_formed (s : sem_store) : Prop :=
  NoDup (map Semester.id (semesters s))
  /\ (forall r, In r (semesters s) -> Semester.id r <= semester_id_seq s)
  /\ (forall r, In r (semesters s) ->
                Semester.start_date r < Semester.end_date r)
  /\ (forall a b, In a (semesters s) -> In b (semesters s) ->
                  Semester.id a <> Semester.id b ->
                  Semester.end_date a < Semester.start_date b
                  \/ Semester.end_date b < Semester.start_date a).

(** The semester seeded by [setup_database.py], and a second one. *)
Definition spring_2025 : Semester.row :=
  Semester.mk 1 "Spring 2025" 739252 739371 true.
Definition autumn_2025 : Semester.row :=
  Semester.mk 2 "Autumn 2025" 739495 739605 false.
Definition seeded_semesters : sem_store := mkSemStore [spring_2025] 1.
Definition two_semesters : sem_store :=
  mkSemStore [spring_2025; autumn_2025] 2.

(** A roster as the teacher page hands it to [save_attendance]. *)
Definition roster_sample : list (Z * string) :=
  [(42, "Absent"); (43, "Present"); (44, "Excused")].

(** The day of [t_issue], a Friday. *)
Definition day_issue : Z := 739324.

(** The store after student 42 has redeemed the live session. *)
Definition scanned_world : world :=
  mkWorld (mkTables [live_session] [Scan.mk 1 42]
                    [Attendance.mk 42 (Some 7) 1 day_issue Present]) 1.

(** * Properties *)

(** ** The model on concrete values *)

Example strftime_Ymd_2025 : strftime_Ymd 63877539907000000 = "2025-03-14".
Proof. vm_compute. reflexivity. Qed.
Example strftime_HMS_2025 : strftime_HMS 63877539907000000 = "09:05:07".
Proof. vm_compute. reflexivity. Qed.
Example strftime_Ymd_leap : strftime_Ymd 63844847999999999 = "2024-02-29".
Proof. vm_compute. reflexivity. Qed.
Example strftime_HMS_leap : strftime_HMS 63844847999999999 = "23:59:59".
Proof. vm_compute. reflexivity. Qed.
Example strftime_Ymd_eoy : strftime_Ymd 63871200000000000 = "2024-12-31".
Proof. vm_compute. reflexivity. Qed.
Example strftime_Ymd_2000 : strftime_Ymd 63087508800000000 = "2000-03-01".
Proof. vm_compute. reflexivity. Qed.
Example strftime_Ymd_1900 : strftime_Ymd 59958061323000000 = "1900-12-31".
Proof. vm_compute. reflexivity. Qed.
Example strftime_Ymd_max : strftime_Ymd 315537897599999999 = "9999-12-31".
Proof. vm_compute. reflexivity. Qed.

(** The scenario of the specification: a session of five minutes; student
    42 redeems after one minute, again after two, student 43 after six. *)
Example scenario_issue :
  call (create_qr_session (Some 7) 5)
       (mkEnv true (fun _ => false) (fun _ => t_issue) "tok-1") empty_world
  = mkRun (Returned (Some "tok-1")) live_world
      [Connected; Executed (DeactivateSessionsOfSection (Some 7));
       Executed (InsertSession (Some 7) "tok-1" t_expiry); Committed; Closed].
Proof. reflexivity. Qed.

Example scenario_redeem :
  let first := call (redeem_qr_code "tok-1" 42 1)
                 (quiet_env (t_issue + timedelta_minutes 1)) live_world in
  let second := call (redeem_qr_code "tok-1" 42 1)
                  (quiet_env (t_issue + timedelta_minutes 2)) (after first) in
  let third := call (redeem_qr_code "tok-1" 43 1)
                 (quiet_env (t_issue + timedelta_minutes 6)) (after second) in
  result first = Returned (Success "2025-03-14")
  /\ db (after first)
     = mkTables [live_session] [Scan.mk 1 42]
         [Attendance.mk 42 (Some 7) 1 739324 Present]
  /\ result second = Returned AlreadyMarked
  /\ after second = after first
  /\ result third
     = Returned ("error",
                 "QR Code has expired. This session ended at 09:10:07.")
  /\ after third = after first.
Proof. vm_compute. repeat split. Qed.

(** A duration so long that the expiry is no [datetime] ends the call
    before any statement is sent. *)
Example scenario_overflow :
  call (create_qr_session (Some 7) 200000000000) (quiet_env t_issue) live_world
  = mkRun (Escaped OverflowError) live_world [Connected].
Proof. reflexivity. Qed.

(** A connection lost at the first statement: the handler's rollback
    raises in its turn and the exception leaves the function; with
    [save_attendance] the connection is not even closed.  When only the
    statement fails, the rollback is carried out and the function
    returns. *)
Example scenario_lost_connection :
  call (deactivate_qr_session "tok-1") (lost_env 0 t_issue) live_world
  = mkRun (Escaped StoreError) live_world
      [Connected; Raised (DeactivateSessionByUuid "tok-1") StoreError;
       RollbackFailed; Closed]
  /\ call (create_qr_session (Some 7) 5) (lost_env 0 t_issue) live_world
     = mkRun (Escaped StoreError) live_world
         [Connected; Raised (DeactivateSessionsOfSection (Some 7)) StoreError;
          RollbackFailed; Closed]
  /\ call (save_attendance (Some 7) 739324 [(42, "Present")] 1)
          (lost_env 0 t_issue) live_world
     = mkRun (Escaped StoreError) live_world [Connected; RollbackFailed]
  /\ call (deactivate_qr_session "tok-1") (faulty_env 0 t_issue) live_world
     = mkRun (Returned false) live_world
         [Connected; Raised (DeactivateSessionByUuid "tok-1") StoreError;
          RolledBack; Closed].
Proof. repeat split. Qed.


(** ** Running the monad *)

Ltac unfold_run :=
  unfold call, redeem_qr_code, create_qr_session, deactivate_qr_session,
    mark_single_student_present, datetime_add_minutes, bind, ret, raise,
    try_except, try_finally, get_db_connection, execute, fetchone, commit,
    rollback, close, datetime_now, new_uuid, log, mark_failed, count_call.

Ltac step_run :=
  cbn [run_query committed pending seq fetched calls reads trace failed
       andb db session_id_seq attendance_sessions qr_scans attendance
       is_Exception is_UniqueViolation List.map List.app fst snd negb truthy
       result after events].

Lemma world_eta (w : world) : mkWorld (db w) (session_id_seq w) = w.
Proof. destruct w; reflexivity. Qed.

Lemma tables_eta (t : tables) :
  mkTables (attendance_sessions t) (qr_scans t) (attendance t) = t.
Proof. destruct t; reflexivity. Qed.

Lemma lookup_session_some u t r :
  lookup_session u t = Some r ->
  exists rest, filter (uuid_matches u) (attendance_sessions t) = r :: rest.
Proof.
  unfold lookup_session.
  destruct (filter (uuid_matches u) (attendance_sessions t)) as [|x rest];
    cbn; intros H; [discriminate|].
  injection H as ->. now exists rest.
Qed.

Lemma lookup_session_none u t :
  lookup_session u t = None ->
  filter (uuid_matches u) (attendance_sessions t) = [].
Proof.
  unfold lookup_session.
  now destruct (filter (uuid_matches u) (attendance_sessions t)).
Qed.

Lemma strftime_Ymd_nonempty t : String.eqb (strftime_Ymd t) "" = false.
Proof.
  unfold strftime_Ymd. destruct (ord2ymd (toordinal t)) as [[y m] d].
  reflexivity.
Qed.

Ltac run_paths :=
  unfold_run;
  repeat first
    [ progress (step_run; unfold select_tuple; step_run)
    | rewrite strftime_Ymd_nonempty
    | match goal with H : _ = _ |- _ => rewrite H end ];
  rewrite ?world_eta; try reflexivity.

(** ** The paths of [redeem_qr_code] *)

Section RedeemPaths.

Variables (e : env) (w : world) (u : string) (stu sem : Z).

Local Abbreviation run := (call (redeem_qr_code u stu sem) e w).

Lemma redeem_no_connection :
  connect_ok e = false ->
  run = mkRun (Escaped StopException) w [].
Proof.
  intros Hc.
  run_paths.
Qed.

Lemma redeem_select_fails :
  connect_ok e = true -> fault_at e 0%nat = true ->
  fault_at e 1%nat = false ->
  run = mkRun (Returned ("error", msg_unexpected)) w
          [Connected; Raised (SelectSessionByUuid u) StoreError;
           RolledBack; Closed].
Proof.
  intros Hc H0 H1.
  run_paths.
Qed.

Lemma redeem_select_lost :
  connect_ok e = true -> fault_at e 0%nat = true ->
  fault_at e 1%nat = true ->
  run = mkRun (Escaped StoreError) w
          [Connected; Raised (SelectSessionByUuid u) StoreError;
           RollbackFailed; Closed].
Proof.
  intros Hc H0 H1.
  run_paths.
Qed.

Lemma redeem_unknown :
  connect_ok e = true -> fault_at e 0%nat = false ->
  lookup_session u (db w) = None ->
  run = mkRun (Returned InvalidToken) w
          [Connected; Executed (SelectSessionByUuid u); RolledBack; Closed].
Proof.
  intros Hc H0 Hl. apply lookup_session_none in Hl.
  run_paths.
Qed.

Variable r : Session.row.
Hypothesis Hconn : connect_ok e = true.
Hypothesis Hselect : fault_at e 0%nat = false.
Hypothesis Hknown : lookup_session u (db w) = Some r.

Lemma redeem_expired :
  clock e 0%nat > Session.expires_at r ->
  run = mkRun (Returned (SessionExpired (Session.expires_at r))) w
          [Connected; Executed (SelectSessionByUuid u); RolledBack; Closed].
Proof.
  intros Hx. apply Z.gtb_gt in Hx.
  destruct (lookup_session_some _ _ _ Hknown) as [rest Hl].
  run_paths.
Qed.

Hypothesis Hfresh : clock e 0%nat <= Session.expires_at r.

Lemma not_expired : (clock e 0%nat >? Session.expires_at r) = false.
Proof. rewrite Z.gtb_ltb. apply Z.ltb_ge. exact Hfresh. Qed.

Lemma redeem_inactive :
  Session.is_active r = false ->
  run = mkRun (Returned SessionInactive) w
          [Connected; Executed (SelectSessionByUuid u); RolledBack; Closed].
Proof.
  intros Ha.
  destruct (lookup_session_some _ _ _ Hknown) as [rest Hl].
  pose proof not_expired as Hne.
  run_paths.
Qed.

Hypothesis Hactive : Session.is_active r = true.

Local Abbreviation scan := (InsertScan (Session.id r) stu).

Lemma redeem_scan_fails :
  fault_at e 1%nat = true -> fault_at e 2%nat = false ->
  run = mkRun (Returned ("error", msg_unexpected)) w
          [Connected; Executed (SelectSessionByUuid u);
           Raised scan StoreError; RolledBack; Closed].
Proof.
  intros H1 H2.
  destruct (lookup_session_some _ _ _ Hknown) as [rest Hl].
  pose proof not_expired as Hne.
  run_paths.
Qed.

Lemma redeem_scan_lost :
  fault_at e 1%nat = true -> fault_at e 2%nat = true ->
  run = mkRun (Escaped StoreError) w
          [Connected; Executed (SelectSessionByUuid u);
           Raised scan StoreError; RollbackFailed; Closed].
Proof.
  intros H1 H2.
  destruct (lookup_session_some _ _ _ Hknown) as [rest Hl].
  pose proof not_expired as Hne.
  run_paths.
Qed.

Hypothesis Hscan : fault_at e 1%nat = false.

Lemma redeem_already :
  existsb (scan_matches (Session.id r) stu) (qr_scans (db w)) = true ->
  run = mkRun (Returned AlreadyMarked) w
          [Connected; Executed (SelectSessionByUuid u);
           Raised scan UniqueViolation; RolledBack; Closed].
Proof.
  intros Hdup.
  destruct (lookup_session_some _ _ _ Hknown) as [rest Hl].
  pose proof not_expired as Hne.
  run_paths.
Qed.

Hypothesis Hfirst :
  existsb (scan_matches (Session.id r) stu) (qr_scans (db w)) = false.

Local Abbreviation today := (toordinal (clock e 1%nat)).
Local Abbreviation upsert :=
  (UpsertAttendancePresent stu (Session.section_id r) sem today).

Lemma redeem_mark_fails :
  fault_at e 2%nat = true -> fault_at e 3%nat = false ->
  run = mkRun (Returned ("error", msg_failed)) w
          [Connected; Executed (SelectSessionByUuid u); Executed scan;
           Raised upsert StoreError; RolledBack; Closed].
Proof.
  intros H2 H3.
  destruct (lookup_session_some _ _ _ Hknown) as [rest Hl].
  pose proof not_expired as Hne.
  run_paths.
Qed.

(** The rollback of the [else] branch raises inside the [try]: the
    handler catches it and rolls back once more. *)
Lemma redeem_mark_lost_caught :
  fault_at e 2%nat = true -> fault_at e 3%nat = true ->
  fault_at e 4%nat = false ->
  run = mkRun (Returned ("error", msg_unexpected)) w
          [Connected; Executed (SelectSessionByUuid u); Executed scan;
           Raised upsert StoreError; RollbackFailed; RolledBack; Closed].
Proof.
  intros H2 H3 H4.
  destruct (lookup_session_some _ _ _ Hknown) as [rest Hl].
  pose proof not_expired as Hne.
  run_paths.
Qed.

Lemma redeem_mark_lost :
  fault_at e 2%nat = true -> fault_at e 3%nat = true ->
  fault_at e 4%nat = true ->
  run = mkRun (Escaped StoreError) w
          [Connected; Executed (SelectSessionByUuid u); Executed scan;
           Raised upsert StoreError; RollbackFailed; RollbackFailed; Closed].
Proof.
  intros H2 H3 H4.
  destruct (lookup_session_some _ _ _ Hknown) as [rest Hl].
  pose proof not_expired as Hne.
  run_paths.
Qed.

Hypothesis Hmark : fault_at e 2%nat = false.

Lemma redeem_commit_fails :
  fault_at e 3%nat = true -> fault_at e 4%nat = false ->
  run = mkRun (Returned ("error", msg_unexpected)) w
          [Connected; Executed (SelectSessionByUuid u); Executed scan;
           Executed upsert; CommitFailed; RolledBack; Closed].
Proof.
  intros H3 H4.
  destruct (lookup_session_some _ _ _ Hknown) as [rest Hl].
  pose proof not_expired as Hne.
  run_paths.
Qed.

Lemma redeem_commit_lost :
  fault_at e 3%nat = true -> fault_at e 4%nat = true ->
  run = mkRun (Escaped StoreError) w
          [Connected; Executed (SelectSessionByUuid u); Executed scan;
           Executed upsert; CommitFailed; RollbackFailed; Closed].
Proof.
  intros H3 H4.
  destruct (lookup_session_some _ _ _ Hknown) as [rest Hl].
  pose proof not_expired as Hne.
  run_paths.
Qed.

Lemma redeem_success :
  fault_at e 3%nat = false ->
  run = mkRun (Returned (Success (strftime_Ymd (clock e 1%nat))))
          (mkWorld
             (mkTables
                (attendance_sessions (db w))
                (qr_scans (db w) ++ [Scan.mk (Session.id r) stu])
                (upsert_present stu (Session.section_id r) sem today
                   (attendance (db w))))
             (session_id_seq w))
          [Connected; Executed (SelectSessionByUuid u); Executed scan;
           Executed upsert; Committed; Closed].
Proof.
  intros H3.
  destruct (lookup_session_some _ _ _ Hknown) as [rest Hl].
  pose proof not_expired as Hne.
  run_paths.
Qed.

End RedeemPaths.

(** ** The paths of [create_qr_session] *)

Lemma existsb_uuid_deactivate_section u sec l :
  existsb (uuid_matches u) (deactivate_section sec l)
  = existsb (uuid_matches u) l.
Proof.
  unfold deactivate_section. induction l as [|x l IH]; cbn; [reflexivity|].
  rewrite IH. now destruct (sql_eq (Session.section_id x) sec).
Qed.

Section CreatePaths.

Variables (e : env) (w : world) (sec : option Z) (d : Z).

Local Abbreviation run := (call (create_qr_session sec d) e w).
Local Abbreviation expiry := (clock e 0%nat + timedelta_minutes d).
Local Abbreviation deact := (DeactivateSessionsOfSection sec).
Local Abbreviation insert := (InsertSession sec (uuid4 e) expiry).

Lemma create_no_connection :
  connect_ok e = false ->
  run = mkRun (Escaped StopException) w [].
Proof. intros Hc. run_paths. Qed.

Hypothesis Hconn : connect_ok e = true.

Lemma create_overflow :
  representable expiry = false ->
  run = mkRun (Escaped OverflowError) w [Connected].
Proof. intros Hr. run_paths. Qed.

Hypothesis Hrep : representable expiry = true.

Lemma create_deactivate_fails :
  fault_at e 0%nat = true -> fault_at e 1%nat = false ->
  run = mkRun (Returned None) w
          [Connected; Raised deact StoreError; RolledBack; Closed].
Proof. intros H0 H1. run_paths. Qed.

Lemma create_deactivate_lost :
  fault_at e 0%nat = true -> fault_at e 1%nat = true ->
  run = mkRun (Escaped StoreError) w
          [Connected; Raised deact StoreError; RollbackFailed; Closed].
Proof. intros H0 H1. run_paths. Qed.

Hypothesis Hdeact : fault_at e 0%nat = false.

Lemma create_insert_fails :
  fault_at e 1%nat = true -> fault_at e 2%nat = false ->
  run = mkRun (Returned None) w
          [Connected; Executed deact; Raised insert StoreError;
           RolledBack; Closed].
Proof. intros H1 H2. run_paths. Qed.

Lemma create_insert_lost :
  fault_at e 1%nat = true -> fault_at e 2%nat = true ->
  run = mkRun (Escaped StoreError) w
          [Connected; Executed deact; Raised insert StoreError;
           RollbackFailed; Closed].
Proof. intros H1 H2. run_paths. Qed.

Hypothesis Hinsert : fault_at e 1%nat = false.

Lemma create_duplicate_uuid :
  existsb (uuid_matches (uuid4 e)) (attendance_sessions (db w)) = true ->
  run = mkRun (Returned None) (mkWorld (db w) (session_id_seq w + 1))
          [Connected; Executed deact; Raised insert UniqueViolation;
           RolledBack; Closed].
Proof.
  intros Hdup.
  rewrite <- (existsb_uuid_deactivate_section _ sec) in Hdup.
  run_paths.
Qed.

Hypothesis Hnew :
  existsb (uuid_matches (uuid4 e)) (attendance_sessions (db w)) = false.

Lemma create_commit_fails :
  fault_at e 2%nat = true -> fault_at e 3%nat = false ->
  run = mkRun (Returned None) (mkWorld (db w) (session_id_seq w + 1))
          [Connected; Executed deact; Executed insert; CommitFailed;
           RolledBack; Closed].
Proof.
  intros H2 H3.
  rewrite <- (existsb_uuid_deactivate_section _ sec) in Hnew.
  run_paths.
Qed.

Lemma create_commit_lost :
  fault_at e 2%nat = true -> fault_at e 3%nat = true ->
  run = mkRun (Escaped StoreError) (mkWorld (db w) (session_id_seq w + 1))
          [Connected; Executed deact; Executed insert; CommitFailed;
           RollbackFailed; Closed].
Proof.
  intros H2 H3.
  rewrite <- (existsb_uuid_deactivate_section _ sec) in Hnew.
  run_paths.
Qed.

Lemma create_success :
  fault_at e 2%nat = false ->
  run = mkRun (Returned (Some (uuid4 e)))
          (mkWorld
             (mkTables
                (deactivate_section sec (attendance_sessions (db w))
                 ++ [Session.mk (session_id_seq w + 1) sec (uuid4 e)
                                expiry true])
                (qr_scans (db w)) (attendance (db w)))
             (session_id_seq w + 1))
          [Connected; Executed deact; Executed insert; Committed; Closed].
Proof.
  intros H2.
  rewrite <- (existsb_uuid_deactivate_section _ sec) in Hnew.
  run_paths.
Qed.

End CreatePaths.

(** ** The paths of [deactivate_qr_session] *)

Section DeactivatePaths.

Variables (e : env) (w : world) (u : string).

Local Abbreviation run := (call (deactivate_qr_session u) e w).
Local Abbreviation deact := (DeactivateSessionByUuid u).

Lemma deactivate_no_connection :
  connect_ok e = false ->
  run = mkRun (Escaped StopException) w [].
Proof. intros Hc. run_paths. Qed.

Hypothesis Hconn : connect_ok e = true.

Lemma deactivate_update_fails :
  fault_at e 0%nat = true -> fault_at e 1%nat = false ->
  run = mkRun (Returned false) w
          [Connected; Raised deact StoreError; RolledBack; Closed].
Proof. intros H0 H1. run_paths. Qed.

Lemma deactivate_update_lost :
  fault_at e 0%nat = true -> fault_at e 1%nat = true ->
  run = mkRun (Escaped StoreError) w
          [Connected; Raised deact StoreError; RollbackFailed; Closed].
Proof. intros H0 H1. run_paths. Qed.

Hypothesis Hupdate : fault_at e 0%nat = false.

Lemma deactivate_commit_fails :
  fault_at e 1%nat = true -> fault_at e 2%nat = false ->
  run = mkRun (Returned false) w
          [Connected; Executed deact; CommitFailed; RolledBack; Closed].
Proof. intros H1 H2. run_paths. Qed.

Lemma deactivate_commit_lost :
  fault_at e 1%nat = true -> fault_at e 2%nat = true ->
  run = mkRun (Escaped StoreError) w
          [Connected; Executed deact; CommitFailed; RollbackFailed; Closed].
Proof. intros H1 H2. run_paths. Qed.

Lemma deactivate_success :
  fault_at e 1%nat = false ->
  run = mkRun (Returned true)
          (mkWorld
             (mkTables (deactivate_uuid u (attendance_sessions (db w)))
                       (qr_scans (db w)) (attendance (db w)))
             (session_id_seq w))
          [Connected; Executed deact; Committed; Closed].
Proof. intros H1. run_paths. Qed.

End DeactivatePaths.

(** Case analysis over every path of a redemption: the call is replaced
    by its result on each path, with the conditions of the path in the
    context. *)
Ltac redeem_paths e w u stu sem :=
  let Hc := fresh "Hconn" in
  let H0 := fresh "Hselect" in
  let Hl := fresh "Hknown" in
  let Hx := fresh "Hexp" in
  let Ha := fresh "Hactive" in
  let H1 := fresh "Hscan" in
  let Hd := fresh "Hdup" in
  let H2 := fresh "Hmark" in
  let H3 := fresh "Hcommit" in
  let Hb := fresh "Hrollback" in
  let Hb' := fresh "Hagain" in
  let r := fresh "r" in
  destruct (connect_ok e) eqn:Hc;
  [ destruct (fault_at e 0%nat) eqn:H0;
    [ destruct (fault_at e 1%nat) eqn:Hb;
      [ rewrite (redeem_select_lost e w u stu sem Hc H0 Hb) in *
      | rewrite (redeem_select_fails e w u stu sem Hc H0 Hb) in * ]
    | destruct (lookup_session u (db w)) as [r|] eqn:Hl;
      [ destruct (Z_gt_le_dec (clock e 0%nat) (Session.expires_at r))
          as [Hx|Hx];
        [ rewrite (redeem_expired e w u stu sem r Hc H0 Hl Hx) in *
        | destruct (Session.is_active r) eqn:Ha;
          [ destruct (fault_at e 1%nat) eqn:H1;
            [ destruct (fault_at e 2%nat) eqn:Hb;
              [ rewrite (redeem_scan_lost e w u stu sem r
                           Hc H0 Hl Hx Ha H1 Hb) in *
              | rewrite (redeem_scan_fails e w u stu sem r
                           Hc H0 Hl Hx Ha H1 Hb) in * ]
            | destruct (existsb (scan_matches (Session.id r) stu)
                          (qr_scans (db w))) eqn:Hd;
              [ rewrite (redeem_already e w u stu sem r Hc H0 Hl Hx Ha H1 Hd)
                  in *
              | destruct (fault_at e 2%nat) eqn:H2;
                [ destruct (fault_at e 3%nat) eqn:Hb;
                  [ destruct (fault_at e 4%nat) eqn:Hb';
                    [ rewrite (redeem_mark_lost e w u stu sem r
                                 Hc H0 Hl Hx Ha H1 Hd H2 Hb Hb') in *
                    | rewrite (redeem_mark_lost_caught e w u stu sem r
                                 Hc H0 Hl Hx Ha H1 Hd H2 Hb Hb') in * ]
                  | rewrite (redeem_mark_fails e w u stu sem r
                               Hc H0 Hl Hx Ha H1 Hd H2 Hb) in * ]
                | destruct (fault_at e 3%nat) eqn:H3;
                  [ destruct (fault_at e 4%nat) eqn:Hb;
                    [ rewrite (redeem_commit_lost e w u stu sem r
                                 Hc H0 Hl Hx Ha H1 Hd H2 H3 Hb) in *
                    | rewrite (redeem_commit_fails e w u stu sem r
                                 Hc H0 Hl Hx Ha H1 Hd H2 H3 Hb) in * ]
                  | rewrite (redeem_success e w u stu sem r
                               Hc H0 Hl Hx Ha H1 Hd H2 H3) in * ] ] ] ]
          | rewrite (redeem_inactive e w u stu sem r Hc H0 Hl Hx Ha) in * ] ]
      | rewrite (redeem_unknown e w u stu sem Hc H0 Hl) in * ] ]
  | rewrite (redeem_no_connection e w u stu sem Hc) in * ].

Lemma lookup_session_unknown u t :
  (forall r, In r (attendance_sessions t) -> Session.session_uuid r <> u) ->
  lookup_session u t = None.
Proof.
  intros H. unfold lookup_session.
  destruct (filter (uuid_matches u) (attendance_sessions t)) as [|x l] eqn:E;
    [reflexivity|].
  assert (Hin : In x (filter (uuid_matches u) (attendance_sessions t)))
    by (rewrite E; now left).
  apply filter_In in Hin. destruct Hin as [Hin Hm].
  unfold uuid_matches in Hm. apply String.eqb_eq in Hm.
  now apply H in Hin.
Qed.

Lemma lookup_session_in u t r :
  lookup_session u t = Some r ->
  In r (attendance_sessions t) /\ Session.session_uuid r = u.
Proof.
  intros H. destruct (lookup_session_some _ _ _ H) as [rest E].
  assert (Hin : In r (filter (uuid_matches u) (attendance_sessions t)))
    by (rewrite E; now left).
  apply filter_In in Hin. destruct Hin as [Hin Hm]. split; [exact Hin|].
  now apply String.eqb_eq in Hm.
Qed.

(** ** Redemption of an unknown token *)


(** ** Redemption of an expired session *)

(** The two characters of [pad2]. *)
Lemma pad2_two n : exists c1 c2, pad2 n = String c1 (String c2 "").
Proof. unfold pad2, digit. cbn. eauto. Qed.

Lemma digit_char_inj a b :
  ascii_of_nat (48 + Z.to_nat (a mod 10))
  = ascii_of_nat (48 + Z.to_nat (b mod 10)) ->
  a mod 10 = b mod 10.
Proof.
  intros H. apply (f_equal nat_of_ascii) in H.
  pose proof (Z.mod_pos_bound a 10 ltac:(lia)) as Ha.
  pose proof (Z.mod_pos_bound b 10 ltac:(lia)) as Hb.
  rewrite !nat_ascii_embedding in H by lia.
  lia.
Qed.

Lemma pad2_inj a b :
  0 <= a < 100 -> 0 <= b < 100 -> pad2 a = pad2 b -> a = b.
Proof.
  intros Ha Hb H. unfold pad2, digit in H. cbn [append] in H.
  injection H as H1 H2.
  apply digit_char_inj in H1, H2.
  Z.to_euclidean_division_equations. lia.
Qed.

Lemma second_of_day_bound t :
  0 <= (t mod us_per_day) / us_per_second < 86400.
Proof.
  unfold us_per_day, us_per_second.
  pose proof (Z.mod_pos_bound t (86400 * 1000000) ltac:(lia)).
  split; [apply Z.div_pos; lia | apply Z.div_lt_upper_bound; lia].
Qed.

(** The text of ['%H:%M:%S'] determines the second of the day. *)
Lemma strftime_HMS_inj t1 t2 :
  strftime_HMS t1 = strftime_HMS t2 ->
  (t1 mod us_per_day) / us_per_second = (t2 mod us_per_day) / us_per_second.
Proof.
  unfold strftime_HMS. cbv zeta.
  pose proof (second_of_day_bound t1) as B1.
  pose proof (second_of_day_bound t2) as B2.
  revert B1 B2.
  generalize ((t1 mod us_per_day) / us_per_second)
             ((t2 mod us_per_day) / us_per_second).
  intros s1 s2 B1 B2 H.
  assert (Hh : pad2 (s1 / 3600) = pad2 (s2 / 3600)
               /\ pad2 ((s1 / 60) mod 60) = pad2 ((s2 / 60) mod 60)
               /\ pad2 (s1 mod 60) = pad2 (s2 mod 60)).
  { destruct (pad2_two (s1 / 3600)) as (a1 & a2 & E1).
    destruct (pad2_two (s2 / 3600)) as (b1 & b2 & E2).
    destruct (pad2_two ((s1 / 60) mod 60)) as (c1 & c2 & E3).
    destruct (pad2_two ((s2 / 60) mod 60)) as (d1 & d2 & E4).
    destruct (pad2_two (s1 mod 60)) as (e1 & e2 & E5).
    destruct (pad2_two (s2 mod 60)) as (f1 & f2 & E6).
    rewrite E1, E2, E3, E4, E5, E6 in *.
    cbn [append] in H. injection H as -> -> -> -> -> ->. auto. }
  destruct Hh as (Hh & Hm & Hs).
  apply pad2_inj in Hh, Hm, Hs;
    try (Z.to_euclidean_division_equations; lia).
Qed.

Lemma append_inv_head p a b : p ++ a = p ++ b -> a = b.
Proof.
  induction p as [|c p IH]; cbn; intros H; [exact H|].
  injection H as H. auto.
Qed.

Lemma append_inv_dot a b : a ++ "." = b ++ "." -> a = b.
Proof.
  revert b. induction a as [|c a IH]; intros [|c' b]; cbn; intros H;
    try discriminate H; try reflexivity.
  - destruct b; discriminate H.
  - destruct a; discriminate H.
  - injection H as -> H. f_equal. auto.
Qed.

Lemma msg_expired_inj t1 t2 :
  msg_expired t1 = msg_expired t2 ->
  (t1 mod us_per_day) / us_per_second = (t2 mod us_per_day) / us_per_second.
Proof.
  unfold msg_expired. intros H.
  apply append_inv_head, append_inv_dot in H.
  now apply strftime_HMS_inj.
Qed.




(** ** Redemption of a deactivated session *)




(** ** What a successful redemption implies *)

(** Claim C3, as stated, fails at the boundary: a redemption made exactly
    at [expires_at] is accepted. *)
Lemma redeem_at_expiry_succeeds :
  let e := quiet_env t_expiry in
  let run := call (redeem_qr_code "tok-1" 42 1) e live_world in
  lookup_session "tok-1" (db live_world) = Some live_session
  /\ clock e 0%nat = Session.expires_at live_session
  /\ ~ clock e 0%nat < Session.expires_at live_session
  /\ result run = Returned (Success "2025-03-14").
Proof.
  repeat split. vm_compute. discriminate.
Qed.

(** Claim C3, amended.  Whenever [redeem_qr_code] returns the status
    "success", the token identified a session whose [is_active] was true
    and the time read for the expiry test was at most [expires_at]; a
    redemption made strictly after [expires_at] never succeeds. *)
Theorem redeem_success_implies_live (e : env) (w : world) (u : string)
    (stu sem : Z) (msg : string) :
  result (call (redeem_qr_code u stu sem) e w) = Returned ("success", msg) ->
  exists r,
    lookup_session u (db w) = Some r
    /\ Session.is_active r = true
    /\ clock e 0%nat <= Session.expires_at r
    /\ ~ clock e 0%nat > Session.expires_at r.
Proof.
  intros H. redeem_paths e w u stu sem; cbn in H; try discriminate H.
  exists r. repeat split; try assumption; lia.
Qed.

Lemma redeem_success_implies_live_witness :
  exists r,
    lookup_session "tok-1" (db live_world) = Some r
    /\ Session.is_active r = true
    /\ clock (quiet_env t_issue) 0%nat <= Session.expires_at r
    /\ ~ clock (quiet_env t_issue) 0%nat > Session.expires_at r.
Proof.
  apply (redeem_success_implies_live (quiet_env t_issue) live_world
           "tok-1" 42 1 (msg_success "2025-03-14")).
  reflexivity.
Defined.

(** ** Exceptions and the returned status *)

(** Claim C10, as stated, fails: when the database cannot be reached,
    [get_db_connection] stops the script from outside the [try] block and
    the exception leaves [redeem_qr_code]; no pair is returned. *)
Lemma redeem_offline_escapes :
  let run := call (redeem_qr_code "tok-1" 42 1) (offline_env t_issue)
               live_world in
  result run = Escaped StopException
  /\ forall p, result run <> Returned p.
Proof.
  split; [reflexivity|]. intros p. vm_compute. discriminate.
Qed.

(** Claim C10, amended.  Once the connection has been opened, for every
    token, student and semester and whatever statement or commit fails,
    [redeem_qr_code] returns a pair whose status is "success", "info" or
    "error", provided no rollback of the call raises: every exception
    raised by a statement or by the commit is caught. *)
Theorem redeem_returns_status (e : env) (w : world) (u : string)
    (stu sem : Z) :
  connect_ok e = true ->
  ~ In RollbackFailed (events (call (redeem_qr_code u stu sem) e w)) ->
  exists status msg,
    result (call (redeem_qr_code u stu sem) e w) = Returned (status, msg)
    /\ (status = "success" \/ status = "info" \/ status = "error").
Proof.
  intros Hc Hrb.
  redeem_paths e w u stu sem; try discriminate Hc;
    try (exfalso; apply Hrb; cbn; tauto);
    cbn [result]; unfold Success, AlreadyMarked, InvalidToken,
                    SessionInactive, SessionExpired;
    eexists; eexists; (split; [reflexivity|]); auto.
Qed.

Lemma redeem_returns_status_witness :
  exists status msg,
    result (call (redeem_qr_code "tok-1" 42 1) (faulty_env 1 t_issue)
              live_world)
    = Returned (status, msg)
    /\ (status = "success" \/ status = "info" \/ status = "error").
Proof.
  apply (redeem_returns_status (faulty_env 1 t_issue) live_world "tok-1" 42 1).
  - reflexivity.
  - cbn. intuition discriminate.
Defined.

(** ** All or nothing *)

Lemma sql_eq_true a b : sql_eq a b = true -> a = b.
Proof.
  destruct a as [x|], b as [y|]; cbn; try discriminate.
  intros H. apply Z.eqb_eq in H. now subst.
Qed.

Lemma att_matches_true stu sec d a :
  att_matches stu sec d a = true ->
  Attendance.student_id a = stu /\ Attendance.section_id a = sec
  /\ Attendance.date a = d.
Proof.
  unfold att_matches. intros H.
  apply andb_prop in H. destruct H as [H Hd].
  apply andb_prop in H. destruct H as [Hs Hc].
  apply Z.eqb_eq in Hs, Hd. apply sql_eq_true in Hc. auto.
Qed.

Lemma att_matches_marked stu sec d a :
  att_matches stu sec d (Attendance.marked_present a) = att_matches stu sec d a.
Proof. reflexivity. Qed.

(** After the upsert there is a mark [Present] for the student, the
    section and the date. *)
Lemma upsert_present_has_mark stu sec sem d l :
  exists a,
    In a (upsert_present stu sec sem d l)
    /\ Attendance.student_id a = stu /\ Attendance.section_id a = sec
    /\ Attendance.date a = d /\ Attendance.status a = Present.
Proof.
  unfold upsert_present.
  destruct (existsb (att_matches stu sec d) l) eqn:E.
  - apply existsb_exists in E. destruct E as [x [Hin Hm]].
    exists (Attendance.marked_present x). split.
    + apply in_map_iff. exists x. rewrite Hm. auto.
    + apply att_matches_true in Hm. cbn. intuition.
  - exists (Attendance.mk stu sec sem d Present). split.
    + apply in_or_app. right. now left.
    + cbn. auto.
Qed.




(** ** Redeeming twice *)

Lemma filter_map_marked stu sec d (l : list Attendance.row) :
  filter (att_matches stu sec d)
    (map (fun r => if att_matches stu sec d r
                   then Attendance.marked_present r else r) l)
  = map Attendance.marked_present (filter (att_matches stu sec d) l).
Proof.
  induction l as [|x l IH]; cbn [map filter]; [reflexivity|].
  destruct (att_matches stu sec d x) eqn:E.
  - rewrite att_matches_marked, E. cbn [map]. now rewrite IH.
  - rewrite E. exact IH.
Qed.

Lemma filter_nil_of_existsb {A} (p : A -> bool) l :
  existsb p l = false -> filter p l = [].
Proof.
  induction l as [|x l IH]; cbn; [reflexivity|].
  destruct (p x); cbn; [discriminate|]. exact IH.
Qed.

Lemma filter_cons_of_existsb {A} (p : A -> bool) l :
  existsb p l = true -> exists x rest, filter p l = x :: rest.
Proof.
  induction l as [|x l IH]; cbn; [discriminate|].
  destruct (p x); cbn; [eauto|]. exact IH.
Qed.

(** After the upsert exactly one row carries the key, and it is
    [Present]. *)
Lemma upsert_present_exactly_one stu sec sem d l :
  att_unique l ->
  exists a,
    filter (att_matches stu (Some sec) d)
      (upsert_present stu (Some sec) sem d l) = [a]
    /\ Attendance.status a = Present.
Proof.
  intros Hu. unfold upsert_present.
  destruct (existsb (att_matches stu (Some sec) d) l) eqn:E.
  - rewrite filter_map_marked.
    destruct (filter_cons_of_existsb _ _ E) as [x [rest Hf]].
    specialize (Hu stu (Some sec) d). rewrite Hf in Hu.
    destruct rest as [|y rest]; [|cbn in Hu; lia].
    rewrite Hf. exists (Attendance.marked_present x). split; reflexivity.
  - rewrite filter_app, (filter_nil_of_existsb _ _ E).
    cbn [filter app]. unfold att_matches at 1.
    cbn [Attendance.student_id Attendance.section_id Attendance.date sql_eq].
    rewrite !Z.eqb_refl. cbn [andb].
    eexists. split; reflexivity.
Qed.

Lemma existsb_scan_appended sid stu l :
  existsb (scan_matches sid stu) (l ++ [Scan.mk sid stu]) = true.
Proof.
  rewrite existsb_app. apply orb_true_iff. right.
  cbn. unfold scan_matches. cbn. now rewrite !Z.eqb_refl.
Qed.

Lemma filter_marked_length stu sec d stu' sec' d' (l : list Attendance.row) :
  List.length
    (filter (att_matches stu' sec' d')
       (map (fun r => if att_matches stu sec d r
                      then Attendance.marked_present r else r) l))
  = List.length (filter (att_matches stu' sec' d') l).
Proof.
  induction l as [|x l IH]; cbn [map filter]; [reflexivity|].
  assert (Hkey : att_matches stu' sec' d'
                   (if att_matches stu sec d x
                    then Attendance.marked_present x else x)
                 = att_matches stu' sec' d' x)
    by (destruct (att_matches stu sec d x); reflexivity).
  rewrite Hkey.
  destruct (att_matches stu' sec' d' x); cbn [List.length]; now rewrite IH.
Qed.

(** The upsert keeps the unique key of [attendance]. *)
Lemma upsert_present_unique stu sec sem d l :
  att_unique l -> att_unique (upsert_present stu sec sem d l).
Proof.
  intros Hu stu' sec' d'. unfold upsert_present.
  destruct (existsb (att_matches stu sec d) l) eqn:E.
  - rewrite filter_marked_length. apply Hu.
  - rewrite filter_app. cbn [filter].
    destruct (att_matches stu' sec' d' (Attendance.mk stu sec sem d Present))
      eqn:K.
    + apply att_matches_true in K. cbn in K. destruct K as [-> [-> ->]].
      rewrite (filter_nil_of_existsb _ _ E). cbn. lia.
    + rewrite app_nil_r. apply Hu.
Qed.

(** Claim C2.  Take a session that is known, active and not yet past its
    expiry at either call, belonging to a section, and a student who has
    not redeemed it, on a store that works and respects the unique key of
    [attendance].  The first redemption returns success and leaves exactly
    one attendance row for the student, the section and today, with
    status [Present].  The second redemption of the same token by the
    same student returns the informational already-marked outcome, is
    rolled back, and leaves the store, hence that mark, as the first call
    left it. *)
Theorem redeem_twice (e1 e2 : env) (w : world) (u : string) (stu sem : Z)
    (r : Session.row) (sec : Z) :
  connect_ok e1 = true -> (forall n, fault_at e1 n = false) ->
  connect_ok e2 = true -> (forall n, fault_at e2 n = false) ->
  lookup_session u (db w) = Some r ->
  Session.is_active r = true ->
  Session.section_id r = Some sec ->
  clock e1 0%nat <= Session.expires_at r ->
  clock e2 0%nat <= Session.expires_at r ->
  existsb (scan_matches (Session.id r) stu) (qr_scans (db w)) = false ->
  att_unique (attendance (db w)) ->
  let first := call (redeem_qr_code u stu sem) e1 w in
  let second := call (redeem_qr_code u stu sem) e2 (after first) in
  let today := toordinal (clock e1 1%nat) in
  result first = Returned (Success (strftime_Ymd (clock e1 1%nat)))
  /\ (exists a,
        filter (att_matches stu (Some sec) today)
          (attendance (db (after first))) = [a]
        /\ Attendance.status a = Present)
  /\ result second = Returned AlreadyMarked
  /\ In RolledBack (events second)
  /\ after second = after first.
Proof.
  intros Hc1 Hf1 Hc2 Hf2 Hl Ha Hsec Hx1 Hx2 Hnew Hu. cbv zeta.
  rewrite (redeem_success e1 w u stu sem r Hc1 (Hf1 _) Hl Hx1 Ha (Hf1 _)
             Hnew (Hf1 _) (Hf1 _)).
  cbn [result after db attendance].
  match goal with
  | |- context [call _ e2 ?w1] =>
      rewrite (redeem_already e2 w1 u stu sem r Hc2 (Hf2 _) Hl Hx2 Ha (Hf2 _)
                 (existsb_scan_appended _ _ _))
  end.
  cbn [result after events].
  split; [reflexivity|]. split.
  - rewrite Hsec. now apply upsert_present_exactly_one.
  - split; [reflexivity|]. split; [cbn; tauto | reflexivity].
Qed.

Lemma redeem_twice_witness :
  let e1 := quiet_env (t_issue + timedelta_minutes 1) in
  let e2 := quiet_env (t_issue + timedelta_minutes 2) in
  let first := call (redeem_qr_code "tok-1" 42 1) e1 live_world in
  let second := call (redeem_qr_code "tok-1" 42 1) e2 (after first) in
  let today := toordinal (clock e1 1%nat) in
  result first = Returned (Success (strftime_Ymd (clock e1 1%nat)))
  /\ (exists a,
        filter (att_matches 42 (Some 7) today)
          (attendance (db (after first))) = [a]
        /\ Attendance.status a = Present)
  /\ result second = Returned AlreadyMarked
  /\ In RolledBack (events second)
  /\ after second = after first.
Proof.
  apply (redeem_twice (quiet_env (t_issue + timedelta_minutes 1))
           (quiet_env (t_issue + timedelta_minutes 2))
           live_world "tok-1" 42 1 live_session 7).
  - reflexivity.
  - reflexivity.
  - reflexivity.
  - reflexivity.
  - reflexivity.
  - reflexivity.
  - reflexivity.
  - vm_compute. discriminate.
  - vm_compute. discriminate.
  - reflexivity.
  - intros stu sec d. cbn. lia.
Defined.

(** ** One live session per section *)

Ltac create_paths e w sec d :=
  let Hc := fresh "Hconn" in
  let Hr := fresh "Hrep" in
  let H0 := fresh "Hdeact" in
  let H1 := fresh "Hinsert" in
  let Hn := fresh "Hnew" in
  let H2 := fresh "Hcommit" in
  let Hb := fresh "Hrollback" in
  destruct (connect_ok e) eqn:Hc;
  [ destruct (representable (clock e 0%nat + timedelta_minutes d)) eqn:Hr;
    [ destruct (fault_at e 0%nat) eqn:H0;
      [ destruct (fault_at e 1%nat) eqn:Hb;
        [ rewrite (create_deactivate_lost e w sec d Hc Hr H0 Hb) in *
        | rewrite (create_deactivate_fails e w sec d Hc Hr H0 Hb) in * ]
      | destruct (fault_at e 1%nat) eqn:H1;
        [ destruct (fault_at e 2%nat) eqn:Hb;
          [ rewrite (create_insert_lost e w sec d Hc Hr H0 H1 Hb) in *
          | rewrite (create_insert_fails e w sec d Hc Hr H0 H1 Hb) in * ]
        | destruct (existsb (uuid_matches (uuid4 e))
                      (attendance_sessions (db w))) eqn:Hn;
          [ rewrite (create_duplicate_uuid e w sec d Hc Hr H0 H1 Hn) in *
          | destruct (fault_at e 2%nat) eqn:H2;
            [ destruct (fault_at e 3%nat) eqn:Hb;
              [ rewrite (create_commit_lost e w sec d
                           Hc Hr H0 H1 Hn H2 Hb) in *
              | rewrite (create_commit_fails e w sec d
                           Hc Hr H0 H1 Hn H2 Hb) in * ]
            | rewrite (create_success e w sec d Hc Hr H0 H1 Hn H2) in * ] ] ] ]
    | rewrite (create_overflow e w sec d Hc Hr) in * ]
  | rewrite (create_no_connection e w sec d Hc) in * ].

Ltac deactivate_paths e w u :=
  let Hc := fresh "Hconn" in
  let H0 := fresh "Hupdate" in
  let H1 := fresh "Hcommit" in
  let Hb := fresh "Hrollback" in
  destruct (connect_ok e) eqn:Hc;
  [ destruct (fault_at e 0%nat) eqn:H0;
    [ destruct (fault_at e 1%nat) eqn:Hb;
      [ rewrite (deactivate_update_lost e w u Hc H0 Hb) in *
      | rewrite (deactivate_update_fails e w u Hc H0 Hb) in * ]
    | destruct (fault_at e 1%nat) eqn:H1;
      [ destruct (fault_at e 2%nat) eqn:Hb;
        [ rewrite (deactivate_commit_lost e w u Hc H0 H1 Hb) in *
        | rewrite (deactivate_commit_fails e w u Hc H0 H1 Hb) in * ]
      | rewrite (deactivate_success e w u Hc H0 H1) in * ] ]
  | rewrite (deactivate_no_connection e w u Hc) in * ].

Lemma active_in_deactivated s r : active_in s (Session.deactivated r) = false.
Proof. reflexivity. Qed.

Lemma active_deactivate_section_le s sec l :
  (List.length (filter (active_in s) (deactivate_section sec l))
   <= List.length (filter (active_in s) l))%nat.
Proof.
  unfold deactivate_section.
  induction l as [|x l IH]; cbn [map filter]; [apply Nat.le_refl|].
  destruct (sql_eq (Session.section_id x) sec).
  - rewrite active_in_deactivated.
    destruct (active_in s x); cbn [List.length]; lia.
  - destruct (active_in s x); cbn [List.length]; lia.
Qed.

Lemma active_deactivate_section_same s l :
  filter (active_in s) (deactivate_section (Some s) l) = [].
Proof.
  unfold deactivate_section.
  induction l as [|x l IH]; cbn [map filter]; [reflexivity|].
  destruct (sql_eq (Session.section_id x) (Some s)) eqn:E.
  - rewrite active_in_deactivated. exact IH.
  - unfold active_in at 1. rewrite E, andb_false_r. exact IH.
Qed.

Lemma active_deactivate_uuid_le s u l :
  (List.length (filter (active_in s) (deactivate_uuid u l))
   <= List.length (filter (active_in s) l))%nat.
Proof.
  unfold deactivate_uuid.
  induction l as [|x l IH]; cbn [map filter]; [apply Nat.le_refl|].
  destruct (uuid_matches u x).
  - rewrite active_in_deactivated.
    destruct (active_in s x); cbn [List.length]; lia.
  - destruct (active_in s x); cbn [List.length]; lia.
Qed.

Lemma active_filter_le s (keep : Session.row -> bool) l :
  (List.length (filter (active_in s) (filter keep l))
   <= List.length (filter (active_in s) l))%nat.
Proof.
  induction l as [|x l IH]; cbn [filter]; [apply Nat.le_refl|].
  destruct (keep x); cbn [filter];
    destruct (active_in s x); cbn [List.length]; lia.
Qed.

(** The sessions after an issued session: the new row is the only active
    one of its section, the other sections have no more than before. *)
Lemma active_after_insert s sec l (row : Session.row) :
  Session.section_id row = sec ->
  Session.is_active row = true ->
  (List.length (filter (active_in s) l) <= 1)%nat ->
  (List.length (filter (active_in s) (deactivate_section sec l ++ [row]))
   <= 1)%nat
  /\ (sec = Some s ->
      filter (active_in s) (deactivate_section sec l ++ [row]) = [row]).
Proof.
  intros Hsec Hact Hle. rewrite filter_app. cbn [filter].
  assert (Hrow : active_in s row = sql_eq sec (Some s))
    by (unfold active_in; now rewrite Hsec, Hact).
  rewrite Hrow. split.
  - destruct (sql_eq sec (Some s)) eqn:E.
    + apply sql_eq_true in E. rewrite E.
      rewrite active_deactivate_section_same. cbn. lia.
    + rewrite app_nil_r.
      pose proof (active_deactivate_section_le s sec l). lia.
  - intros ->. rewrite active_deactivate_section_same.
    cbn [sql_eq]. now rewrite Z.eqb_refl.
Qed.

Lemma redeem_keeps_sessions e w u stu sem :
  attendance_sessions (db (after (call (redeem_qr_code u stu sem) e w)))
  = attendance_sessions (db w).
Proof. redeem_paths e w u stu sem; reflexivity. Qed.

Lemma create_preserves_one_active e w sec d :
  one_active_per_section (db w) ->
  one_active_per_section (db (after (call (create_qr_session sec d) e w))).
Proof.
  intros Hinv. create_paths e w sec d; try exact Hinv.
  intros s. cbn [after db attendance_sessions].
  now apply active_after_insert.
Qed.

Lemma deactivate_preserves_one_active e w u :
  one_active_per_section (db w) ->
  one_active_per_section (db (after (call (deactivate_qr_session u) e w))).
Proof.
  intros Hinv. deactivate_paths e w u; try exact Hinv.
  intros s. cbn [after db attendance_sessions].
  pose proof (active_deactivate_uuid_le s u (attendance_sessions (db w))).
  specialize (Hinv s). lia.
Qed.

Lemma reachable_one_active w :
  reachable w -> one_active_per_section (db w).
Proof.
  induction 1 as [t n Hempty | w e sec d _ IH | w e u stu sem _ IH
                 | w e u _ IH | w keep scans att _ IH].
  - intros s. cbn [db]. rewrite Hempty. cbn. lia.
  - now apply create_preserves_one_active.
  - intros s. unfold one_active_per_section in IH.
    rewrite redeem_keeps_sessions. apply IH.
  - now apply deactivate_preserves_one_active.
  - intros s. cbn [db attendance_sessions].
    pose proof (active_filter_le s keep (attendance_sessions (db w))).
    specialize (IH s). lia.
Qed.

(** Claim C4.  In every world the application can reach, each section has
    at most one session with [is_active] true, before and after any call
    of [create_qr_session].  On a store that works, with a UUID that no
    stored session carries and a representable expiry, that call first
    sends the deactivating update for the section, then the insert,
    commits, and returns the generated token; the table then holds the
    former rows with those of the section deactivated, followed by one
    new active row with that token and [expires_at] equal to the current
    time plus the duration, which is the only active row of the section.
    A token that is returned is never the token of a session stored
    before the call. *)
Theorem one_live_session_per_section (w : world) (e : env)
    (sec : option Z) (d : Z) :
  reachable w ->
  let run := call (create_qr_session sec d) e w in
  let expiry := clock e 0%nat + timedelta_minutes d in
  let issued := Session.mk (session_id_seq w + 1) sec (uuid4 e) expiry true in
  one_active_per_section (db w)
  /\ one_active_per_section (db (after run))
  /\ (connect_ok e = true ->
      (forall n, fault_at e n = false) ->
      representable expiry = true ->
      existsb (uuid_matches (uuid4 e)) (attendance_sessions (db w)) = false ->
      result run = Returned (Some (uuid4 e))
      /\ events run =
           [Connected; Executed (DeactivateSessionsOfSection sec);
            Executed (InsertSession sec (uuid4 e) expiry); Committed; Closed]
      /\ attendance_sessions (db (after run))
         = (deactivate_section sec (attendance_sessions (db w))
            ++ [issued])%list
      /\ forall s, sec = Some s ->
           filter (active_in s) (attendance_sessions (db (after run)))
           = [issued])
  /\ (forall tok, result run = Returned (Some tok) ->
        tok = uuid4 e
        /\ existsb (uuid_matches tok) (attendance_sessions (db w)) = false).
Proof.
  intros Hreach. cbv zeta.
  pose proof (reachable_one_active w Hreach) as Hinv.
  split; [exact Hinv|].
  split; [now apply create_preserves_one_active|].
  split.
  - intros Hc Hf Hr Hn.
    rewrite (create_success e w sec d Hc Hr (Hf _) (Hf _) Hn (Hf _)).
    cbn [result events after db attendance_sessions].
    repeat split.
    intros s Hs.
    now apply (active_after_insert s sec (attendance_sessions (db w))).
  - intros tok Htok.
    create_paths e w sec d; cbn [result] in Htok; try discriminate Htok.
    injection Htok as <-. split; [reflexivity | assumption].
Qed.

Lemma one_live_session_per_section_witness :
  let e := quiet_env t_expiry in
  let run := call (create_qr_session (Some 7) 5) e live_world in
  let expiry := t_expiry + timedelta_minutes 5 in
  let issued := Session.mk 2 (Some 7) "6f1c2a9e" expiry true in
  one_active_per_section (db live_world)
  /\ one_active_per_section (db (after run))
  /\ result run = Returned (Some "6f1c2a9e")
  /\ attendance_sessions (db (after run)) = [stopped_session; issued]
  /\ filter (active_in 7) (attendance_sessions (db (after run))) = [issued].
Proof.
  assert (Hreach : reachable live_world).
  { exact (reach_create empty_world (mkEnv true (fun _ => false)
                                       (fun _ => t_issue) "tok-1")
             (Some 7) 5
             (reach_setup (mkTables [] [] []) 0 eq_refl)). }
  destruct (one_live_session_per_section live_world (quiet_env t_expiry)
              (Some 7) 5 Hreach) as [H1 [H2 [H3 _]]].
  destruct (H3 eq_refl (fun _ => eq_refl) eq_refl eq_refl)
    as [Hres [_ [Htab Hact]]].
  split; [exact H1|]. split; [exact H2|]. split; [exact Hres|].
  split; [exact Htab|]. exact (Hact 7 eq_refl).
Defined.

(** ** Deactivation *)

Lemma deactivate_uuid_rows u l r' :
  In r' (deactivate_uuid u l) ->
  exists r,
    In r l
    /\ Session.id r' = Session.id r
    /\ Session.section_id r' = Session.section_id r
    /\ Session.session_uuid r' = Session.session_uuid r
    /\ Session.expires_at r' = Session.expires_at r
    /\ Session.is_active r'
       = (if String.eqb (Session.session_uuid r) u then false
          else Session.is_active r).
Proof.
  unfold deactivate_uuid. intros Hin. apply in_map_iff in Hin.
  destruct Hin as [r [Heq Hin]]. exists r. split; [exact Hin|].
  unfold uuid_matches in *.
  destruct (String.eqb (Session.session_uuid r) u); subst r'; cbn; auto.
Qed.

(** Claim C8.  [deactivate_qr_session] never changes [qr_scans] or
    [attendance] (nor the id sequence): every scan and every attendance
    row is after the call what it was before.  On a store that works it
    returns [True] and the sessions table is the former one in which the
    rows carrying the token have [is_active] false, every other row and
    every other column being unchanged; when a store call fails the
    sessions table is unchanged as well. *)
Theorem deactivate_frame (e : env) (w : world) (u : string) :
  let run := call (deactivate_qr_session u) e w in
  qr_scans (db (after run)) = qr_scans (db w)
  /\ attendance (db (after run)) = attendance (db w)
  /\ session_id_seq (after run) = session_id_seq w
  /\ (attendance_sessions (db (after run)) = attendance_sessions (db w)
      \/ attendance_sessions (db (after run))
         = deactivate_uuid u (attendance_sessions (db w)))
  /\ (connect_ok e = true ->
      fault_at e 0%nat = false -> fault_at e 1%nat = false ->
      result run = Returned true
      /\ attendance_sessions (db (after run))
         = deactivate_uuid u (attendance_sessions (db w)))
  /\ (forall r',
        In r' (deactivate_uuid u (attendance_sessions (db w))) ->
        exists r,
          In r (attendance_sessions (db w))
          /\ Session.id r' = Session.id r
          /\ Session.section_id r' = Session.section_id r
          /\ Session.session_uuid r' = Session.session_uuid r
          /\ Session.expires_at r' = Session.expires_at r
          /\ Session.is_active r'
             = (if String.eqb (Session.session_uuid r) u then false
                else Session.is_active r)).
Proof.
  cbv zeta.
  split; [deactivate_paths e w u; reflexivity|].
  split; [deactivate_paths e w u; reflexivity|].
  split; [deactivate_paths e w u; reflexivity|].
  split; [deactivate_paths e w u; cbn; auto|].
  split.
  - intros Hc H0 H1. rewrite (deactivate_success e w u Hc H0 H1).
    split; reflexivity.
  - intros r'. apply deactivate_uuid_rows.
Qed.

Lemma deactivate_frame_witness :
  let run := call (deactivate_qr_session "tok-1") (quiet_env t_issue)
               live_world in
  result run = Returned true
  /\ attendance_sessions (db (after run)) = [stopped_session].
Proof.
  apply (proj1 (proj2 (proj2 (proj2 (proj2
           (deactivate_frame (quiet_env t_issue) live_world "tok-1")))))).
  - reflexivity.
  - reflexivity.
  - reflexivity.
Defined.

(** * The attendance functions of the teacher pages *)

Ltac unfold_att :=
  unfold call, save_attendance, check_date_status, get_attendance_summary,
    bind, ret, raise, try_except, try_finally, get_db_connection,
    execute_att, commit, rollback, close, datetime_now, log, mark_failed,
    count_call.

Ltac step_att :=
  cbn [run_att_query committed pending seq fetched calls reads trace failed
       andb db session_id_seq attendance_sessions qr_scans attendance
       is_Exception fst snd result after events].

Ltac att_paths :=
  unfold_att;
  repeat first
    [ progress step_att
    | match goal with H : _ = _ |- _ => rewrite H end ];
  rewrite ?world_eta; try reflexivity.

(** ** The paths of [save_attendance] *)

Section SavePaths.

Variables (e : env) (w : world) (sec : option Z) (d : Z)
          (dict : list (Z * string)) (sem : Z).

Local Abbreviation run := (call (save_attendance sec d dict sem) e w).
Local Abbreviation kept :=
  (filter (fun r => negb (day_matches sec d r)) (attendance (db w))).
Local Abbreviation records := (new_records sec sem d dict).

Lemma save_no_connection :
  connect_ok e = false ->
  run = mkRun (Escaped StopException) w [].
Proof. intros Hc. att_paths. Qed.

Hypothesis Hconn : connect_ok e = true.

Lemma save_delete_fails :
  fault_at e 0%nat = true -> fault_at e 1%nat = false ->
  run = mkRun (Returned false) w [Connected; RolledBack; Closed].
Proof. intros H0 H1. att_paths. Qed.

(** When the rollback raises, the handler is left before it closes the
    connection. *)
Lemma save_delete_lost :
  fault_at e 0%nat = true -> fault_at e 1%nat = true ->
  run = mkRun (Escaped StoreError) w [Connected; RollbackFailed].
Proof. intros H0 H1. att_paths. Qed.

Hypothesis Hdelete : fault_at e 0%nat = false.

Lemma save_nothing_commit_fails :
  records = [] -> fault_at e 1%nat = true -> fault_at e 2%nat = false ->
  run = mkRun (Returned false) w
          [Connected; CommitFailed; RolledBack; Closed].
Proof. intros Hr H1 H2. att_paths. Qed.

Lemma save_nothing_commit_lost :
  records = [] -> fault_at e 1%nat = true -> fault_at e 2%nat = true ->
  run = mkRun (Escaped StoreError) w
          [Connected; CommitFailed; RollbackFailed].
Proof. intros Hr H1 H2. att_paths. Qed.

Lemma save_nothing :
  records = [] -> fault_at e 1%nat = false ->
  run = mkRun (Returned true)
          (mkWorld (mkTables (attendance_sessions (db w)) (qr_scans (db w))
                             kept)
                   (session_id_seq w))
          [Connected; Committed; Closed].
Proof. intros Hr H1. att_paths. Qed.

Lemma save_insert_fails :
  records <> [] -> fault_at e 1%nat = true -> fault_at e 2%nat = false ->
  run = mkRun (Returned false) w [Connected; RolledBack; Closed].
Proof.
  intros Hr H1 H2. destruct records as [|a rest] eqn:E; [congruence|].
  att_paths.
Qed.

Lemma save_insert_lost :
  records <> [] -> fault_at e 1%nat = true -> fault_at e 2%nat = true ->
  run = mkRun (Escaped StoreError) w [Connected; RollbackFailed].
Proof.
  intros Hr H1 H2. destruct records as [|a rest] eqn:E; [congruence|].
  att_paths.
Qed.

Hypothesis Hinsert : fault_at e 1%nat = false.

Lemma save_insert_conflict :
  records <> [] -> insert_attendance records kept = None ->
  run = mkRun (Returned false) w [Connected; RolledBack; Closed].
Proof.
  intros Hr Hi. destruct records as [|a rest] eqn:E; [congruence|].
  att_paths.
Qed.

Lemma save_commit_fails l :
  records <> [] -> insert_attendance records kept = Some l ->
  fault_at e 2%nat = true -> fault_at e 3%nat = false ->
  run = mkRun (Returned false) w
          [Connected; CommitFailed; RolledBack; Closed].
Proof.
  intros Hr Hi H2 H3. destruct records as [|a rest] eqn:E; [congruence|].
  att_paths.
Qed.

Lemma save_commit_lost l :
  records <> [] -> insert_attendance records kept = Some l ->
  fault_at e 2%nat = true -> fault_at e 3%nat = true ->
  run = mkRun (Escaped StoreError) w
          [Connected; CommitFailed; RollbackFailed].
Proof.
  intros Hr Hi H2 H3. destruct records as [|a rest] eqn:E; [congruence|].
  att_paths.
Qed.

Lemma save_success l :
  records <> [] -> insert_attendance records kept = Some l ->
  fault_at e 2%nat = false ->
  run = mkRun (Returned true)
          (mkWorld (mkTables (attendance_sessions (db w)) (qr_scans (db w)) l)
                   (session_id_seq w))
          [Connected; Committed; Closed].
Proof.
  intros Hr Hi H2. destruct records as [|a rest] eqn:E; [congruence|].
  att_paths.
Qed.

End SavePaths.

(** ** What [save_attendance] stores *)

Lemma att_matches_day stu sec d r :
  day_matches sec d r = false -> att_matches stu sec d r = false.
Proof.
  unfold att_matches, day_matches. intros H.
  rewrite <- andb_assoc, H. apply andb_false_r.
Qed.

Lemma kept_not_of_day sec d l r :
  In r (filter (fun r => negb (day_matches sec d r)) l) ->
  day_matches sec d r = false.
Proof.
  intros H. apply filter_In in H. destruct H as [_ H].
  now apply negb_true_iff in H.
Qed.

Lemma existsb_false_forall {A} (p : A -> bool) l :
  (forall x, In x l -> p x = false) -> existsb p l = false.
Proof.
  induction l as [|x l IH]; cbn; intros H; [reflexivity|].
  rewrite (H x (or_introl eq_refl)). cbn. apply IH. intros y Hy.
  apply H. now right.
Qed.

(** The rows made from the dict belong to the section and the day, and
    their students are keys of the dict, in the same order. *)
Lemma new_records_fields sec sem d dict a :
  In a (new_records sec sem d dict) ->
  Attendance.section_id a = sec /\ Attendance.date a = d
  /\ Attendance.semester_id a = sem
  /\ exists status, In (Attendance.student_id a, status) dict
                    /\ parse_mark status = Some (Attendance.status a).
Proof.
  induction dict as [|[stu status] dict IH]; cbn [new_records];
    [intros []|].
  destruct (parse_mark status) as [m|] eqn:E.
  - intros [<-|H].
    + cbn. repeat split. exists status. split; [now left | exact E].
    + destruct (IH H) as [H1 [H2 [H3 [st [H4 H5]]]]].
      repeat split; try assumption. exists st. split; [now right | exact H5].
  - intros H. destruct (IH H) as [H1 [H2 [H3 [st [H4 H5]]]]].
    repeat split; try assumption. exists st. split; [now right | exact H5].
Qed.

Lemma new_records_students_nodup sec sem d dict :
  NoDup (map fst dict) ->
  NoDup (map Attendance.student_id (new_records sec sem d dict)).
Proof.
  induction dict as [|[stu status] dict IH]; cbn [new_records map fst];
    intros Hnd; [constructor|].
  inversion Hnd as [|x l Hnotin Hnd' Heq]; subst.
  destruct (parse_mark status) as [m|]; [|now apply IH].
  cbn [map Attendance.student_id]. constructor; [|now apply IH].
  intros Hin. apply in_map_iff in Hin. destruct Hin as [a [Hs Ha]].
  destruct (new_records_fields _ _ _ _ _ Ha) as [_ [_ [_ [st [Hd _]]]]].
  apply Hnotin. apply in_map_iff. exists (Attendance.student_id a, st).
  split; [exact Hs | exact Hd].
Qed.

(** A multi-row insert that succeeds appends its rows. *)
Lemma insert_attendance_some rows l l' :
  insert_attendance rows l = Some l' -> l' = (l ++ rows)%list.
Proof.
  revert l. induction rows as [|a rows IH]; cbn [insert_attendance];
    intros l H.
  - injection H as <-. now rewrite app_nil_r.
  - destruct (existsb _ l); [discriminate|].
    apply IH in H. rewrite H, <- app_assoc. reflexivity.
Qed.

(** Rows of one section and day with distinct students, none of which
    meets a row of the table, are inserted without conflict. *)
Lemma insert_attendance_fresh sec d rows l :
  (forall a, In a rows ->
             Attendance.section_id a = sec /\ Attendance.date a = d) ->
  NoDup (map Attendance.student_id rows) ->
  (forall a b, In a rows -> In b l ->
               att_matches (Attendance.student_id a) sec d b = false) ->
  insert_attendance rows l = Some (l ++ rows)%list.
Proof.
  revert l. induction rows as [|a rows IH]; cbn [insert_attendance];
    intros l Hrows Hnd Hl.
  - now rewrite app_nil_r.
  - destruct (Hrows a (or_introl eq_refl)) as [Hs Hd].
    inversion Hnd as [|x m Hnotin Hnd' Heq]; subst x m.
    rewrite existsb_false_forall.
    + rewrite (IH (l ++ [a])%list).
      * now rewrite <- app_assoc.
      * intros b Hb. apply Hrows. now right.
      * exact Hnd'.
      * intros a' b Ha' Hb. apply in_app_or in Hb.
        destruct Hb as [Hb|[<-|[]]].
        -- apply Hl; [now right | exact Hb].
        -- unfold att_matches.
           destruct (Attendance.student_id a =? Attendance.student_id a')
             eqn:E; [|reflexivity].
           apply Z.eqb_eq in E. exfalso. apply Hnotin. rewrite E.
           now apply in_map.
    + intros b Hb. rewrite Hs, Hd. apply Hl; [now left | exact Hb].
Qed.

Lemma save_records_inserted sec sem d dict l :
  NoDup (map fst dict) ->
  insert_attendance (new_records sec sem d dict)
    (filter (fun r => negb (day_matches sec d r)) l)
  = Some (filter (fun r => negb (day_matches sec d r)) l
          ++ new_records sec sem d dict)%list.
Proof.
  intros Hnd. apply (insert_attendance_fresh sec d).
  - intros a Ha. destruct (new_records_fields _ _ _ _ _ Ha) as [H1 [H2 _]].
    now split.
  - now apply new_records_students_nodup.
  - intros a b _ Hb. apply att_matches_day. now apply kept_not_of_day in Hb.
Qed.

(** Every path of [save_attendance], by what it returns. *)
Lemma save_attendance_cases e w sec d dict sem :
  let run := call (save_attendance sec d dict sem) e w in
  let kept := filter (fun r => negb (day_matches sec d r))
                (attendance (db w)) in
  (after run = w /\ result run <> Returned true)
  \/ (result run = Returned true
      /\ insert_attendance (new_records sec sem d dict) kept
         = Some (attendance (db (after run)))
      /\ attendance_sessions (db (after run)) = attendance_sessions (db w)
      /\ qr_scans (db (after run)) = qr_scans (db w)
      /\ session_id_seq (after run) = session_id_seq w).
Proof.
  cbv zeta.
  destruct (connect_ok e) eqn:Hc;
    [|rewrite (save_no_connection e w sec d dict sem Hc);
      left; split; [reflexivity | discriminate]].
  destruct (fault_at e 0%nat) eqn:H0;
    [destruct (fault_at e 1%nat) eqn:Hb;
     [rewrite (save_delete_lost e w sec d dict sem Hc H0 Hb)
     |rewrite (save_delete_fails e w sec d dict sem Hc H0 Hb)];
     (left; split; [reflexivity | discriminate])|].
  destruct (new_records sec sem d dict) as [|a rest] eqn:Hr.
  - destruct (fault_at e 1%nat) eqn:H1.
    + destruct (fault_at e 2%nat) eqn:Hb;
        [rewrite (save_nothing_commit_lost e w sec d dict sem Hc H0 Hr H1 Hb)
        |rewrite (save_nothing_commit_fails e w sec d dict sem
                    Hc H0 Hr H1 Hb)];
        (left; split; [reflexivity | discriminate]).
    + rewrite (save_nothing e w sec d dict sem Hc H0 Hr H1).
      right. repeat split.
  - assert (Hne : new_records sec sem d dict <> []) by (rewrite Hr; discriminate).
    destruct (fault_at e 1%nat) eqn:H1.
    + destruct (fault_at e 2%nat) eqn:Hb;
        [rewrite (save_insert_lost e w sec d dict sem Hc H0 Hne H1 Hb)
        |rewrite (save_insert_fails e w sec d dict sem Hc H0 Hne H1 Hb)];
        (left; split; [reflexivity | discriminate]).
    + rewrite <- Hr.
      destruct (insert_attendance (new_records sec sem d dict)
                  (filter (fun r => negb (day_matches sec d r))
                     (attendance (db w)))) as [l|] eqn:Hi.
      * destruct (fault_at e 2%nat) eqn:H2.
        -- destruct (fault_at e 3%nat) eqn:Hb;
             [rewrite (save_commit_lost e w sec d dict sem
                         Hc H0 H1 l Hne Hi H2 Hb)
             |rewrite (save_commit_fails e w sec d dict sem
                         Hc H0 H1 l Hne Hi H2 Hb)];
             (left; split; [reflexivity | discriminate]).
        -- rewrite (save_success e w sec d dict sem Hc H0 H1 l Hne Hi H2).
           right. repeat split.
      * rewrite (save_insert_conflict e w sec d dict sem Hc H0 H1 Hne Hi).
        left; split; [reflexivity | discriminate].
Qed.

Lemma att_matches_own stu s sem d m :
  att_matches stu (Some s) d (Attendance.mk stu (Some s) sem d m) = true.
Proof.
  unfold att_matches. cbn. now rewrite !Z.eqb_refl.
Qed.

Lemma att_matches_other stu stu' sec sec' sem d d' m :
  stu' <> stu ->
  att_matches stu sec d (Attendance.mk stu' sec' sem d' m) = false.
Proof.
  intros Hne. unfold att_matches. cbn.
  destruct (stu' =? stu) eqn:E; [|reflexivity].
  apply Z.eqb_eq in E. contradiction.
Qed.

(** No row is made for a student whose entries are all of a status that
    is not kept, in particular for a student who is not in the dict. *)
Lemma new_records_none stu sec sem d dict :
  (forall status, In (stu, status) dict -> parse_mark status = None) ->
  filter (att_matches stu sec d) (new_records sec sem d dict) = [].
Proof.
  induction dict as [|[stu0 status0] dict IH]; cbn [new_records];
    intros H; [reflexivity|].
  assert (IH' : filter (att_matches stu sec d) (new_records sec sem d dict)
                = [])
    by (apply IH; intros st Hin; apply H; now right).
  destruct (parse_mark status0) as [m|] eqn:E; [|exact IH'].
  cbn [filter]. rewrite att_matches_other; [exact IH'|].
  intros ->. rewrite (H status0 (or_introl eq_refl)) in E. discriminate.
Qed.

(** One row is made for a student whose entry is Present or Absent. *)
Lemma new_records_one stu status m s sem d dict :
  NoDup (map fst dict) ->
  In (stu, status) dict -> parse_mark status = Some m ->
  filter (att_matches stu (Some s) d) (new_records (Some s) sem d dict)
  = [Attendance.mk stu (Some s) sem d m].
Proof.
  induction dict as [|[stu0 status0] dict IH]; cbn [new_records map fst];
    intros Hnd Hin Hm; [destruct Hin|].
  inversion Hnd as [|x l Hnotin Hnd' Heq]; subst x l.
  destruct Hin as [Heq|Hin].
  - injection Heq as -> ->. rewrite Hm. cbn [filter].
    rewrite att_matches_own, new_records_none; [reflexivity|].
    intros st Hst. exfalso. apply Hnotin.
    apply in_map_iff. now exists (stu, st).
  - assert (Hne : stu0 <> stu).
    { intros ->. apply Hnotin. apply in_map_iff. now exists (stu, status). }
    destruct (parse_mark status0) as [m0|].
    + cbn [filter]. rewrite att_matches_other by exact Hne. now apply IH.
    + now apply IH.
Qed.

Lemma filter_kept_none stu sec d l :
  filter (att_matches stu sec d)
    (filter (fun r => negb (day_matches sec d r)) l) = [].
Proof.
  apply filter_nil_of_existsb, existsb_false_forall.
  intros b Hb. apply att_matches_day. now apply kept_not_of_day in Hb.
Qed.

(** On a store that works, [save_attendance] returns [True] and replaces
    the marks of the section and day by those of the dict: the rows of
    other sections or days stay, in order, followed by one row for each
    entry that is Present or Absent, in the order of the dict.  The
    insert cannot meet the unique key, the day having been deleted and a
    dict having each student once. *)
Theorem save_attendance_replaces_day (e : env) (w : world)
    (sec : option Z) (d : Z) (dict : list (Z * string)) (sem : Z) :
  connect_ok e = true ->
  (forall n, fault_at e n = false) ->
  NoDup (map fst dict) ->
  let run := call (save_attendance sec d dict sem) e w in
  result run = Returned true
  /\ attendance (db (after run))
     = (filter (fun r => negb (day_matches sec d r)) (attendance (db w))
        ++ new_records sec sem d dict)%list
  /\ attendance_sessions (db (after run)) = attendance_sessions (db w)
  /\ qr_scans (db (after run)) = qr_scans (db w).
Proof.
  intros Hc Hf Hnd. cbv zeta.
  pose proof (save_records_inserted sec sem d dict (attendance (db w)) Hnd)
    as Hi.
  destruct (new_records sec sem d dict) as [|a rest] eqn:Hr.
  - rewrite (save_nothing e w sec d dict sem Hc (Hf _) Hr (Hf _)).
    cbn [result after db attendance attendance_sessions qr_scans].
    rewrite app_nil_r. repeat split.
  - assert (Hne : new_records sec sem d dict <> [])
      by (rewrite Hr; discriminate).
    rewrite <- Hr in Hi |- *.
    rewrite (save_success e w sec d dict sem Hc (Hf _) (Hf _) _ Hne Hi (Hf _)).
    repeat split.
Qed.

Lemma save_attendance_replaces_day_witness :
  let run := call (save_attendance (Some 7) day_issue roster_sample 1)
               (quiet_env t_issue) scanned_world in
  result run = Returned true
  /\ attendance (db (after run))
     = [Attendance.mk 42 (Some 7) 1 day_issue Absent;
        Attendance.mk 43 (Some 7) 1 day_issue Present]
  /\ attendance_sessions (db (after run)) = [live_session]
  /\ qr_scans (db (after run)) = [Scan.mk 1 42].
Proof.
  apply (save_attendance_replaces_day (quiet_env t_issue) scanned_world
           (Some 7) day_issue roster_sample 1).
  - reflexivity.
  - reflexivity.
  - repeat constructor; cbn; intuition discriminate.
Defined.

(** Whatever the environment and the dict, [save_attendance] either
    returns [True] after replacing the marks of the section and day, or
    leaves the store exactly as it was and does not return [True].  It
    never changes the sessions or the scans, and never loses a mark of
    another section or day. *)
Theorem save_attendance_all_or_nothing (e : env) (w : world)
    (sec : option Z) (d : Z) (dict : list (Z * string)) (sem : Z) :
  let run := call (save_attendance sec d dict sem) e w in
  ((result run = Returned true
    /\ attendance (db (after run))
       = (filter (fun r => negb (day_matches sec d r)) (attendance (db w))
          ++ new_records sec sem d dict)%list)
   \/ (result run <> Returned true /\ after run = w))
  /\ attendance_sessions (db (after run)) = attendance_sessions (db w)
  /\ qr_scans (db (after run)) = qr_scans (db w)
  /\ (forall r, In r (attendance (db w)) -> day_matches sec d r = false ->
                In r (attendance (db (after run)))).
Proof.
  cbv zeta.
  destruct (save_attendance_cases e w sec d dict sem)
    as [[Hw Hr] | [Hr [Hi [Hs [Hq _]]]]].
  - rewrite Hw. split; [right; now split|]. repeat split. intros r Hin _.
    exact Hin.
  - apply insert_attendance_some in Hi.
    split; [left; now split|]. split; [exact Hs|]. split; [exact Hq|].
    intros r Hin Hday. rewrite Hi. apply in_or_app. left.
    apply filter_In. split; [exact Hin|]. now rewrite Hday.
Qed.

(** A multi-row insert that succeeds keeps the unique key. *)
Lemma insert_attendance_unique rows l l' :
  insert_attendance rows l = Some l' -> att_unique l -> att_unique l'.
Proof.
  revert l. induction rows as [|a rows IH]; cbn [insert_attendance];
    intros l H Hu.
  - now injection H as <-.
  - destruct (existsb _ l) eqn:E; [discriminate|].
    apply (IH _ H). intros stu sec d. rewrite filter_app. cbn [filter].
    destruct (att_matches stu sec d a) eqn:K.
    + apply att_matches_true in K. destruct K as [<- [<- <-]].
      rewrite (filter_nil_of_existsb _ _ E). cbn. lia.
    + rewrite app_nil_r. apply Hu.
Qed.

Lemma filter_filter_length {A} (p q : A -> bool) l :
  (List.length (filter p (filter q l)) <= List.length (filter p l))%nat.
Proof.
  induction l as [|x l IH]; cbn [filter]; [apply Nat.le_refl|].
  destruct (q x); cbn [filter]; destruct (p x); cbn [List.length]; lia.
Qed.

(** [save_attendance] keeps the unique key of [attendance], whatever the
    environment and whatever it is given. *)
Theorem save_attendance_keeps_unique (e : env) (w : world)
    (sec : option Z) (d : Z) (dict : list (Z * string)) (sem : Z) :
  att_unique (attendance (db w)) ->
  att_unique (attendance (db (after (call (save_attendance sec d dict sem)
                                       e w)))).
Proof.
  intros Hu.
  destruct (save_attendance_cases e w sec d dict sem)
    as [[Hw _] | [_ [Hi _]]].
  - now rewrite Hw.
  - apply (insert_attendance_unique _ _ _ Hi).
    intros stu' sec' d'.
    pose proof (filter_filter_length (att_matches stu' sec' d')
                  (fun r => negb (day_matches sec d r)) (attendance (db w))).
    specialize (Hu stu' sec' d'). lia.
Qed.

Lemma save_attendance_keeps_unique_witness :
  att_unique (attendance (db (after (call (save_attendance (Some 7) day_issue
                                             roster_sample 1)
                                       (quiet_env t_issue) scanned_world)))).
Proof.
  apply (save_attendance_keeps_unique (quiet_env t_issue) scanned_world
           (Some 7) day_issue roster_sample 1).
  intros stu sec d. cbn.
  destruct (att_matches stu sec d _); cbn; lia.
Defined.

(** After [save_attendance] has returned [True] for a section and a day,
    a student whose entry in the dict is Present or Absent has exactly
    one mark for that section and day, with that status; a student who
    is not in the dict, or whose entry has another status, has none,
    whatever mark there was before. *)
Theorem save_attendance_lookup (e : env) (w : world) (s d : Z)
    (dict : list (Z * string)) (sem : Z) :
  NoDup (map fst dict) ->
  let run := call (save_attendance (Some s) d dict sem) e w in
  result run = Returned true ->
  (forall stu status m,
     In (stu, status) dict -> parse_mark status = Some m ->
     filter (att_matches stu (Some s) d) (attendance (db (after run)))
     = [Attendance.mk stu (Some s) sem d m])
  /\ (forall stu,
        (forall status, In (stu, status) dict -> parse_mark status = None) ->
        filter (att_matches stu (Some s) d) (attendance (db (after run)))
        = []).
Proof.
  intros Hnd. cbv zeta. intros Hres.
  destruct (save_attendance_cases e w (Some s) d dict sem)
    as [[_ Hno] | [_ [Hi _]]]; [contradiction|].
  apply insert_attendance_some in Hi. rewrite Hi. split.
  - intros stu status m Hin Hm.
    rewrite filter_app, filter_kept_none. cbn [app].
    now apply (new_records_one stu status).
  - intros stu Hnone.
    rewrite filter_app, filter_kept_none. cbn [app].
    now apply new_records_none.
Qed.

Lemma save_attendance_lookup_witness :
  let run := call (save_attendance (Some 7) day_issue roster_sample 1)
               (quiet_env t_issue) scanned_world in
  filter (att_matches 42 (Some 7) day_issue) (attendance (db (after run)))
  = [Attendance.mk 42 (Some 7) 1 day_issue Absent]
  /\ filter (att_matches 44 (Some 7) day_issue) (attendance (db (after run)))
     = [].
Proof.
  assert (Hnd : NoDup (map fst roster_sample))
    by (repeat constructor; cbn; intuition discriminate).
  destruct (save_attendance_lookup (quiet_env t_issue) scanned_world 7
              day_issue roster_sample 1 Hnd eq_refl) as [H1 H2].
  split.
  - apply (H1 42 "Absent" Absent); [now left | reflexivity].
  - apply H2. intros status [H|[H|[H|[]]]]; try discriminate H.
    now injection H as <-.
Defined.

(** ** A manual save after a scan *)

(** A mark set by a scan does not survive the teacher's save of the same
    section and day: after a successful redemption, a [save_attendance]
    on a store that works leaves for the student exactly what the dict
    says (one mark with the dict's status when it is Present or Absent,
    no mark otherwise), and a new scan of the same code is answered as
    already marked and changes nothing. *)
Theorem save_overrides_scan (e1 e2 e3 : env) (w : world) (u : string)
    (stu sem sem' : Z) (r : Session.row) (sec : Z)
    (dict : list (Z * string)) :
  connect_ok e1 = true -> (forall n, fault_at e1 n = false) ->
  connect_ok e2 = true -> (forall n, fault_at e2 n = false) ->
  connect_ok e3 = true -> (forall n, fault_at e3 n = false) ->
  lookup_session u (db w) = Some r ->
  Session.is_active r = true ->
  Session.section_id r = Some sec ->
  clock e1 0%nat <= Session.expires_at r ->
  clock e3 0%nat <= Session.expires_at r ->
  existsb (scan_matches (Session.id r) stu) (qr_scans (db w)) = false ->
  NoDup (map fst dict) ->
  let today := toordinal (clock e1 1%nat) in
  let scan := call (redeem_qr_code u stu sem) e1 w in
  let save := call (save_attendance (Some sec) today dict sem') e2
                (after scan) in
  let rescan := call (redeem_qr_code u stu sem) e3 (after save) in
  result scan = Returned (Success (strftime_Ymd (clock e1 1%nat)))
  /\ result save = Returned true
  /\ (forall status m,
        In (stu, status) dict -> parse_mark status = Some m ->
        filter (att_matches stu (Some sec) today)
          (attendance (db (after save)))
        = [Attendance.mk stu (Some sec) sem' today m])
  /\ ((forall status, In (stu, status) dict -> parse_mark status = None) ->
      filter (att_matches stu (Some sec) today)
        (attendance (db (after save))) = [])
  /\ result rescan = Returned AlreadyMarked
  /\ after rescan = after save.
Proof.
  intros Hc1 Hf1 Hc2 Hf2 Hc3 Hf3 Hl Ha Hsec Hx1 Hx3 Hnew Hnd. cbv zeta.
  rewrite (redeem_success e1 w u stu sem r Hc1 (Hf1 _) Hl Hx1 Ha (Hf1 _)
             Hnew (Hf1 _) (Hf1 _)).
  cbn [result after].
  match goal with
  | |- context [call (save_attendance ?a ?b ?c ?d) e2 ?w1] =>
      destruct (save_attendance_replaces_day e2 w1 a b c d Hc2 Hf2 Hnd)
        as [Hres [Hatt [Hses Hscans]]];
      set (save := call (save_attendance a b c d) e2 w1) in *
  end.
  cbn [db attendance attendance_sessions qr_scans] in Hatt, Hses, Hscans.
  split; [reflexivity|]. split; [exact Hres|].
  split; [|split].
  - intros status m Hin Hm. rewrite Hatt, filter_app, filter_kept_none.
    cbn [app]. now apply (new_records_one stu status).
  - intros Hnone. rewrite Hatt, filter_app, filter_kept_none.
    cbn [app]. now apply new_records_none.
  - assert (Hl' : lookup_session u (db (after save)) = Some r)
      by (unfold lookup_session; rewrite Hses; exact Hl).
    assert (Hdup : existsb (scan_matches (Session.id r) stu)
                     (qr_scans (db (after save))) = true)
      by (rewrite Hscans; apply existsb_scan_appended).
    rewrite (redeem_already e3 (after save) u stu sem r Hc3 (Hf3 _) Hl' Hx3
               Ha (Hf3 _) Hdup).
    split; reflexivity.
Qed.

Lemma save_overrides_scan_witness :
  let e := quiet_env t_issue in
  let scan := call (redeem_qr_code "tok-1" 42 1) e live_world in
  let save := call (save_attendance (Some 7) day_issue roster_sample 1) e
                (after scan) in
  let rescan := call (redeem_qr_code "tok-1" 42 1) e (after save) in
  filter (att_matches 42 (Some 7) day_issue) (attendance (db (after save)))
  = [Attendance.mk 42 (Some 7) 1 day_issue Absent]
  /\ result rescan = Returned AlreadyMarked
  /\ after rescan = after save.
Proof.
  assert (Hnd : NoDup (map fst roster_sample))
    by (repeat constructor; cbn; intuition discriminate).
  assert (Hle : t_issue <= t_expiry) by (vm_compute; discriminate).
  destruct (save_overrides_scan (quiet_env t_issue) (quiet_env t_issue)
              (quiet_env t_issue) live_world "tok-1" 42 1 1 live_session 7
              roster_sample eq_refl (fun _ => eq_refl) eq_refl
              (fun _ => eq_refl) eq_refl (fun _ => eq_refl) eq_refl eq_refl
              eq_refl Hle Hle eq_refl Hnd)
    as [_ [_ [H1 [_ [H2 H3]]]]].
  split; [|split; [exact H2 | exact H3]].
  apply (H1 "Absent" Absent); [now left | reflexivity].
Defined.

(** ** [check_date_status] *)

Section CheckPaths.

Variables (e : env) (w : world) (sec : option Z) (d : Z).

Local Abbreviation run := (call (check_date_status sec d) e w).

Lemma check_no_connection :
  connect_ok e = false ->
  run = mkRun (Escaped StopException) w [].
Proof. intros Hc. att_paths. Qed.

Lemma check_query_fails :
  connect_ok e = true -> fault_at e 0%nat = true ->
  run = mkRun (Escaped StoreError) w [Connected].
Proof. intros Hc H0. att_paths. Qed.

Lemma check_answers :
  connect_ok e = true -> fault_at e 0%nat = false ->
  run = mkRun (Returned (existsb (day_matches sec d) (attendance (db w)))) w
          [Connected; Closed].
Proof. intros Hc H0. att_paths. Qed.

End CheckPaths.

(** [check_date_status] has no handler: it never changes the store, it
    answers whether the section has a mark on the day, and when its query
    fails the exception reaches the caller with the connection left
    open. *)
Theorem check_date_status_reads (e : env) (w : world) (sec : option Z)
    (d : Z) :
  let run := call (check_date_status sec d) e w in
  after run = w
  /\ (connect_ok e = true -> fault_at e 0%nat = false ->
      result run = Returned true
      <-> exists r, In r (attendance (db w))
                    /\ Attendance.section_id r = sec
                    /\ Attendance.date r = d /\ sec <> None)
  /\ (connect_ok e = true -> fault_at e 0%nat = true ->
      result run = Escaped StoreError /\ ~ In Closed (events run)).
Proof.
  cbv zeta. split; [|split].
  - destruct (connect_ok e) eqn:Hc;
      [|now rewrite (check_no_connection e w sec d Hc)].
    destruct (fault_at e 0%nat) eqn:H0.
    + now rewrite (check_query_fails e w sec d Hc H0).
    + now rewrite (check_answers e w sec d Hc H0).
  - intros Hc H0. rewrite (check_answers e w sec d Hc H0). cbn [result].
    split.
    + intros H. injection H as H. apply existsb_exists in H.
      destruct H as [r [Hin Hm]]. exists r. split; [exact Hin|].
      unfold day_matches in Hm. apply andb_prop in Hm. destruct Hm as [Hs Hd].
      apply Z.eqb_eq in Hd. pose proof (sql_eq_true _ _ Hs) as Heq.
      repeat split; try assumption.
      intros ->. destruct (Attendance.section_id r); discriminate.
    + intros [r [Hin [Hs [Hd Hne]]]]. f_equal. apply existsb_exists.
      exists r. split; [exact Hin|]. unfold day_matches.
      rewrite Hs, Hd, Z.eqb_refl. destruct sec as [s|]; [|contradiction].
      cbn. now rewrite Z.eqb_refl.
  - intros Hc H0. rewrite (check_query_fails e w sec d Hc H0).
    split; [reflexivity|]. cbn. intros [H|[]]. discriminate.
Qed.

Lemma existsb_day_of_mark sec d l :
  (exists a, In a l /\ Attendance.section_id a = Some sec
             /\ Attendance.date a = d) ->
  existsb (day_matches (Some sec) d) l = true.
Proof.
  intros [a [Hin [Hs Hd]]]. apply existsb_exists. exists a.
  split; [exact Hin|]. unfold day_matches. rewrite Hs, Hd. cbn.
  now rewrite !Z.eqb_refl.
Qed.

(** One accepted scan is enough for the day to count as taken: after a
    successful redemption of a session of a section, [check_date_status]
    answers [True] for that section and the day of the scan. *)
Theorem scan_makes_day_taken (e1 e2 : env) (w : world) (u : string)
    (stu sem : Z) (r : Session.row) (sec : Z) (msg : string) :
  result (call (redeem_qr_code u stu sem) e1 w) = Returned ("success", msg) ->
  lookup_session u (db w) = Some r ->
  Session.section_id r = Some sec ->
  connect_ok e2 = true -> fault_at e2 0%nat = false ->
  result (call (check_date_status (Some sec) (toordinal (clock e1 1%nat))) e2
            (after (call (redeem_qr_code u stu sem) e1 w)))
  = Returned true.
Proof.
  intros Hres Hl Hsec Hc2 H2.
  rewrite (check_answers e2 _ _ _ Hc2 H2). cbn [result]. f_equal.
  revert Hres. redeem_paths e1 w u stu sem; cbn [result]; intros Hres;
    try discriminate Hres.
  cbn [after db attendance]. injection Hl as <-.
  apply existsb_day_of_mark.
  destruct (upsert_present_has_mark stu (Session.section_id r0) sem
              (toordinal (clock e1 1%nat)) (attendance (db w)))
    as [a [Hin [_ [Hs [Hd _]]]]].
  exists a. rewrite Hsec in Hs. auto.
Qed.

Lemma scan_makes_day_taken_witness :
  result (call (check_date_status (Some 7) day_issue) (quiet_env t_issue)
            (after (call (redeem_qr_code "tok-1" 42 1) (quiet_env t_issue)
                      live_world)))
  = Returned true.
Proof.
  apply (scan_makes_day_taken (quiet_env t_issue) (quiet_env t_issue)
           live_world "tok-1" 42 1 live_session 7 (msg_success "2025-03-14")).
  - reflexivity.
  - reflexivity.
  - reflexivity.
  - reflexivity.
  - reflexivity.
Defined.

Lemma existsb_day_new_records s sem d dict :
  existsb (day_matches (Some s) d) (new_records (Some s) sem d dict)
  = existsb (fun p => match parse_mark (snd p) with
                      | Some _ => true
                      | None => false
                      end) dict.
Proof.
  induction dict as [|[stu status] dict IH]; cbn [new_records existsb snd];
    [reflexivity|].
  destruct (parse_mark status); [|exact IH].
  cbn [existsb]. unfold day_matches at 1. cbn. now rewrite !Z.eqb_refl.
Qed.

Lemma existsb_day_kept sec d l :
  existsb (day_matches sec d)
    (filter (fun r => negb (day_matches sec d r)) l) = false.
Proof.
  apply existsb_false_forall. intros b Hb. now apply kept_not_of_day in Hb.
Qed.

(** After a save that returned [True], the day counts as taken exactly
    when the dict held an entry that is Present or Absent: saving a
    roster without such an entry makes a taken day not taken. *)
Theorem save_decides_day_taken (e1 e2 : env) (w : world) (s d : Z)
    (dict : list (Z * string)) (sem : Z) :
  result (call (save_attendance (Some s) d dict sem) e1 w) = Returned true ->
  connect_ok e2 = true -> fault_at e2 0%nat = false ->
  result (call (check_date_status (Some s) d) e2
            (after (call (save_attendance (Some s) d dict sem) e1 w)))
  = Returned (existsb (fun p => match parse_mark (snd p) with
                                | Some _ => true
                                | None => false
                                end) dict).
Proof.
  intros Hres Hc2 H2.
  rewrite (check_answers e2 _ _ _ Hc2 H2). cbn [result]. f_equal.
  destruct (save_attendance_cases e1 w (Some s) d dict sem)
    as [[_ Hno] | [_ [Hi _]]]; [contradiction|].
  apply insert_attendance_some in Hi. rewrite Hi.
  rewrite existsb_app, existsb_day_kept, existsb_day_new_records.
  reflexivity.
Qed.

Lemma save_decides_day_taken_witness :
  result (call (check_date_status (Some 7) day_issue) (quiet_env t_issue)
            (after (call (save_attendance (Some 7) day_issue
                            [(42, "Excused")] 1)
                      (quiet_env t_issue) scanned_world)))
  = Returned false.
Proof.
  apply (save_decides_day_taken (quiet_env t_issue) (quiet_env t_issue)
           scanned_world 7 day_issue [(42, "Excused")] 1).
  - reflexivity.
  - reflexivity.
  - reflexivity.
Defined.

(** ** [get_attendance_summary] *)

Lemma insert_by_perm le x l : Permutation (insert_by le x l) (x :: l).
Proof.
  induction l as [|y l IH]; cbn [insert_by]; [reflexivity|].
  destruct (le x y); [reflexivity|].
  rewrite IH. apply perm_swap.
Qed.

Lemma sort_by_perm le l : Permutation (sort_by le l) l.
Proof.
  induction l as [|x l IH]; cbn [sort_by]; [reflexivity|].
  rewrite insert_by_perm. now constructor.
Qed.

Lemma sort_by_in le l x : In x (sort_by le l) <-> In x l.
Proof.
  split; apply Permutation_in; [|symmetry]; apply sort_by_perm.
Qed.

Lemma sort_by_nodup le l : NoDup l -> NoDup (sort_by le l).
Proof.
  apply Permutation_NoDup. symmetry. apply sort_by_perm.
Qed.

Lemma insert_geb_sorted x l :
  StronglySorted Z.ge l -> StronglySorted Z.ge (insert_by Z.geb x l).
Proof.
  induction 1 as [|y l Hs IH Hall]; cbn [insert_by].
  - repeat constructor.
  - destruct (x >=? y) eqn:E.
    + apply Z.geb_le in E. constructor; [now constructor|].
      constructor; [lia|].
      apply Forall_forall. intros z Hz.
      rewrite Forall_forall in Hall. specialize (Hall z Hz). lia.
    + assert (Hlt : x < y) by (rewrite Z.geb_leb in E; apply Z.leb_gt in E; lia).
      constructor; [exact IH|].
      apply Forall_forall. intros z Hz.
      apply (Permutation_in _ (insert_by_perm Z.geb x l)) in Hz.
      destruct Hz as [<-|Hz]; [lia|].
      rewrite Forall_forall in Hall. now apply Hall.
Qed.

Lemma sorted_reverse_sorted l : StronglySorted Z.ge (sorted_reverse l).
Proof.
  unfold sorted_reverse. induction l as [|x l IH]; cbn [sort_by];
    [constructor | now apply insert_geb_sorted].
Qed.

(** Without repetition, descending is strictly descending. *)
Lemma sorted_nodup_strict l :
  StronglySorted Z.ge l -> NoDup l -> StronglySorted Z.gt l.
Proof.
  induction 1 as [|x l Hs IH Hall]; intros Hnd; [constructor|].
  inversion Hnd as [|y m Hnotin Hnd' Heq]; subst.
  constructor; [now apply IH|].
  apply Forall_forall. intros z Hz.
  rewrite Forall_forall in Hall. specialize (Hall z Hz).
  assert (x <> z) by (intros ->; contradiction). lia.
Qed.

Lemma sorted_reverse_strict l :
  NoDup l -> StronglySorted Z.gt (sorted_reverse l).
Proof.
  intros Hnd. apply sorted_nodup_strict; [apply sorted_reverse_sorted|].
  now apply sort_by_nodup.
Qed.

Lemma days_from_to_in first last d :
  In d (days_from_to first last) <-> first <= d <= last.
Proof.
  unfold days_from_to. rewrite in_map_iff. split.
  - intros [i [<- Hi]]. apply in_seq in Hi. lia.
  - intros H. exists (Z.to_nat (d - first)). split; [lia|].
    apply in_seq. lia.
Qed.

Lemma bdate_range_in first last d :
  In d (bdate_range first last) <-> first <= d <= last /\ weekday d < 5.
Proof.
  unfold bdate_range. rewrite filter_In, days_from_to_in, Z.ltb_lt.
  reflexivity.
Qed.

Lemma fold_min_spec l x :
  (fold_left Z.min l x = x \/ In (fold_left Z.min l x) l)
  /\ fold_left Z.min l x <= x
  /\ (forall t, In t l -> fold_left Z.min l x <= t).
Proof.
  revert x. induction l as [|y l IH]; intros x; cbn [fold_left].
  - split; [now left|]. split; [lia | intros t []].
  - destruct (IH (Z.min x y)) as [H1 [H2 H3]]. split; [|split].
    + destruct H1 as [H1|H1]; [|right; now right].
      rewrite H1. destruct (Z.min_spec x y) as [[_ ->]|[_ ->]];
        [now left | right; now left].
    + lia.
    + intros t [<-|Ht]; [lia | now apply H3].
Qed.

(** [list_min] is the least element. *)
Lemma list_min_spec x l :
  In (list_min x l) (x :: l) /\ (forall t, In t (x :: l) -> list_min x l <= t).
Proof.
  unfold list_min. destruct (fold_min_spec l x) as [H1 [H2 H3]]. split.
  - destruct H1 as [->|H1]; [now left | now right].
  - intros t [<-|Ht]; [exact H2 | now apply H3].
Qed.

Lemma set_minus_in a b d :
  In d (set_minus a b) <-> In d a /\ ~ In d b.
Proof.
  unfold set_minus. rewrite filter_In, nodup_In, negb_true_iff. split.
  - intros [Ha Hb]. split; [exact Ha|]. intros Hin.
    assert (existsb (Z.eqb d) b = true)
      by (apply existsb_exists; exists d; split; [exact Hin | apply Z.eqb_refl]).
    congruence.
  - intros [Ha Hb]. split; [exact Ha|].
    destruct (existsb (Z.eqb d) b) eqn:E; [|reflexivity].
    apply existsb_exists in E. destruct E as [x [Hx Heq]].
    apply Z.eqb_eq in Heq. subst x. contradiction.
Qed.

Lemma set_minus_nodup a b : NoDup (set_minus a b).
Proof. unfold set_minus. apply NoDup_filter, NoDup_nodup. Qed.

Lemma distinct_dates_in sec l d :
  In d (distinct_dates sec l)
  <-> exists r, In r l /\ section_matches sec r = true
                /\ Attendance.date r = d.
Proof.
  unfold distinct_dates, sorted. rewrite sort_by_in, nodup_In, in_map_iff.
  split.
  - intros [r [Hd Hin]]. apply filter_In in Hin. exists r. tauto.
  - intros [r [Hin [Hs Hd]]]. exists r. split; [exact Hd|].
    apply filter_In. now split.
Qed.

Lemma distinct_dates_nodup sec l : NoDup (distinct_dates sec l).
Proof. unfold distinct_dates, sorted. apply sort_by_nodup, NoDup_nodup. Qed.

Section SummaryPaths.

Variables (e : env) (w : world) (sec : option Z).

Local Abbreviation run := (call (get_attendance_summary sec) e w).
Local Abbreviation df := (distinct_dates sec (attendance (db w))).

Lemma summary_no_connection :
  connect_ok e = false ->
  run = mkRun (Escaped StopException) w [].
Proof. intros Hc. att_paths. Qed.

Lemma summary_query_fails :
  connect_ok e = true -> fault_at e 0%nat = true ->
  run = mkRun (Escaped StoreError) w [Connected].
Proof. intros Hc H0. att_paths. Qed.

Lemma summary_empty :
  connect_ok e = true -> fault_at e 0%nat = false -> df = [] ->
  run = mkRun (Returned ([], [])) w [Connected; Closed].
Proof. intros Hc H0 Hd. att_paths. Qed.

Lemma summary_dates first others :
  connect_ok e = true -> fault_at e 0%nat = false ->
  sorted_reverse df = first :: others ->
  run = mkRun (Returned
                 (first :: others,
                  sorted_reverse
                    (set_minus
                       (bdate_range (list_min first others)
                          (toordinal (clock e 0%nat)))
                       (first :: others))))
          w [Connected; Closed].
Proof.
  intros Hc H0 Hs.
  destruct df as [|x rest] eqn:Hd; [discriminate Hs|].
  att_paths.
Qed.

End SummaryPaths.

(** What [get_attendance_summary] returns on a store that answers. *)
Lemma summary_result e w sec :
  connect_ok e = true -> fault_at e 0%nat = false ->
  exists taken missed,
    call (get_attendance_summary sec) e w
    = mkRun (Returned (taken, missed)) w [Connected; Closed]
    /\ taken = sorted_reverse (distinct_dates sec (attendance (db w)))
    /\ (forall d,
          In d missed <->
          In d (set_minus
                  (bdate_range
                     (match taken with
                      | [] => 0
                      | first :: others => list_min first others
                      end)
                     (toordinal (clock e 0%nat)))
                  taken)
          /\ taken <> [])
    /\ StronglySorted Z.gt missed.
Proof.
  intros Hc H0.
  destruct (sorted_reverse (distinct_dates sec (attendance (db w))))
    as [|first others] eqn:Hs.
  - assert (Hd : distinct_dates sec (attendance (db w)) = []).
    { apply Permutation_nil. rewrite <- Hs. apply sort_by_perm. }
    exists [], []. rewrite (summary_empty e w sec Hc H0 Hd).
    split; [reflexivity|]. split; [reflexivity|]. split; [|constructor].
    intros d. split; [intros [] | intros [_ H]; now apply H].
  - eexists. eexists. rewrite (summary_dates e w sec first others Hc H0 Hs).
    split; [reflexivity|]. split; [reflexivity|]. split.
    + intros d. unfold sorted_reverse at 1. rewrite sort_by_in.
      split; [intros H; split; [exact H | discriminate] | now intros [H _]].
    + apply sorted_reverse_strict, set_minus_nodup.
Qed.

(** On a store that answers, [get_attendance_summary] leaves the store
    as it is and returns the dates taken, which are exactly the dates on
    which the section has a mark, and the dates missed, which are exactly
    the days from Monday to Friday, from the earliest date taken to
    today, on which the section has no mark.  Without any mark both are
    empty; a date taken on a Saturday or Sunday is listed as taken. *)
Theorem attendance_summary_dates (e : env) (w : world) (sec : option Z) :
  connect_ok e = true -> fault_at e 0%nat = false ->
  let run := call (get_attendance_summary sec) e w in
  exists taken missed,
    result run = Returned (taken, missed)
    /\ after run = w
    /\ (forall d,
          In d taken <->
          exists r, In r (attendance (db w))
                    /\ section_matches sec r = true
                    /\ Attendance.date r = d)
    /\ (forall d,
          In d missed <->
          (exists t, In t taken /\ t <= d)
          /\ d <= toordinal (clock e 0%nat)
          /\ weekday d < 5
          /\ ~ In d taken).
Proof.
  intros Hc H0. cbv zeta.
  destruct (summary_result e w sec Hc H0)
    as [taken [missed [Hrun [Htaken [Hmissed _]]]]].
  exists taken, missed. rewrite Hrun. split; [reflexivity|].
  split; [reflexivity|]. split.
  - intros d. rewrite Htaken. unfold sorted_reverse. rewrite sort_by_in.
    apply distinct_dates_in.
  - intros d. rewrite Hmissed, set_minus_in, bdate_range_in.
    destruct taken as [|first others].
    + split; [intros [_ H]; now contradiction H|].
      intros [[t [[] _]] _].
    + destruct (list_min_spec first others) as [Hin Hle]. split.
      * intros [[[[H1 H2] H3] H4] _]. split; [|tauto].
        exists (list_min first others). split; [exact Hin | exact H1].
      * intros [[t [Ht Htd]] [H2 [H3 H4]]].
        split; [|discriminate]. split; [|exact H4]. split; [|exact H3].
        split; [|exact H2]. specialize (Hle t Ht). lia.
Qed.

Lemma attendance_summary_dates_witness :
  let run := call (get_attendance_summary (Some 7))
               (quiet_env (t_issue + timedelta_minutes 7200)) scanned_world in
  exists taken missed,
    result run = Returned (taken, missed)
    /\ after run = scanned_world
    /\ (forall d,
          In d taken <->
          exists r, In r (attendance (db scanned_world))
                    /\ section_matches (Some 7) r = true
                    /\ Attendance.date r = d)
    /\ (forall d,
          In d missed <->
          (exists t, In t taken /\ t <= d)
          /\ d <= toordinal (clock (quiet_env (t_issue + timedelta_minutes 7200))
                               0%nat)
          /\ weekday d < 5
          /\ ~ In d taken).
Proof.
  apply (attendance_summary_dates
           (quiet_env (t_issue + timedelta_minutes 7200)) scanned_world
           (Some 7)).
  - reflexivity.
  - reflexivity.
Defined.

(** Both columns are in strictly descending order, the latest date
    first: no date is listed twice. *)
Theorem attendance_summary_sorted (e : env) (w : world) (sec : option Z)
    (taken missed : list Z) :
  result (call (get_attendance_summary sec) e w) = Returned (taken, missed) ->
  StronglySorted Z.gt taken /\ StronglySorted Z.gt missed.
Proof.
  intros Hres.
  destruct (connect_ok e) eqn:Hc;
    [|rewrite (summary_no_connection e w sec Hc) in Hres; discriminate Hres].
  destruct (fault_at e 0%nat) eqn:H0;
    [rewrite (summary_query_fails e w sec Hc H0) in Hres; discriminate Hres|].
  destruct (summary_result e w sec Hc H0)
    as [taken' [missed' [Hrun [Htaken [_ Hsorted]]]]].
  rewrite Hrun in Hres. cbn [result] in Hres.
  injection Hres as <- <-. split; [|exact Hsorted].
  rewrite Htaken. apply sorted_reverse_strict, distinct_dates_nodup.
Qed.

Lemma attendance_summary_sorted_witness :
  StronglySorted Z.gt [day_issue]
  /\ StronglySorted Z.gt [day_issue + 5; day_issue + 4; day_issue + 3].
Proof.
  apply (attendance_summary_sorted
           (quiet_env (t_issue + timedelta_minutes 7200)) scanned_world
           (Some 7)).
  reflexivity.
Defined.

(** The example behind the witnesses: marks on Friday 14 March 2025 only,
    the summary asked on the following Wednesday. *)
Example summary_scenario :
  result (call (get_attendance_summary (Some 7))
            (quiet_env (t_issue + timedelta_minutes 7200)) scanned_world)
  = Returned ([day_issue], [day_issue + 5; day_issue + 4; day_issue + 3]).
Proof. reflexivity. Qed.

(** * The pages that call the QR functions *)

(** ** The student's scan page *)

Lemma scan_page_locked st stu sem qr e w :
  is_scanning_allowed st = false ->
  session_state (scan_page st stu sem qr false e w) = st
  /\ store (scan_page st stu sem qr false e w) = w.
Proof.
  intros H. unfold scan_page, reset_scanner. rewrite H.
  destruct (scan_result_message st) as [[status m]|]; split; reflexivity.
Qed.

Lemma scan_runs_locked stu sem inputs st w :
  is_scanning_allowed st = false ->
  Forall (fun i => reset_clicked i = false) inputs ->
  scan_runs stu sem inputs st w = (st, w).
Proof.
  intros Hlock Hall. induction Hall as [|i rest Hi _ IH];
    cbn [scan_runs]; [reflexivity|].
  rewrite Hi.
  destruct (scan_page_locked st stu sem (qr_data i) (scan_env i) w Hlock)
    as [-> ->].
  exact IH.
Qed.

Lemma scan_page_locks st stu sem data click e w :
  is_scanning_allowed st = true -> truthy (Some data) = true ->
  is_scanning_allowed
    (session_state (scan_page st stu sem (Some data) click e w)) = false.
Proof.
  intros Ha Hq. unfold scan_page. rewrite Ha, Hq.
  destruct stu as [s|], sem as [m|]; try reflexivity.
  destruct (truthy_id (Some s) && truthy_id (Some m)); [|reflexivity].
  destruct (result (call (redeem_qr_code data s m) e w)); reflexivity.
Qed.

(** One code per reset: once the scanner has returned a code, the page
    stops scanning, and as long as 'Reset Scanner' is not pressed no
    later run sends anything to the store or changes the message,
    whatever the camera sees.  The store after all the runs is the store
    after the first. *)
Theorem scan_once_per_reset (stu sem : option Z) (st : scan_state)
    (w : world) (first : scan_input) (data : string)
    (later : list scan_input) :
  is_scanning_allowed st = true ->
  qr_data first = Some data -> data <> "" ->
  Forall (fun i => reset_clicked i = false) later ->
  let run := scan_page st stu sem (Some data) (reset_clicked first)
               (scan_env first) w in
  scan_runs stu sem (first :: later) st w = (session_state run, store run)
  /\ is_scanning_allowed (session_state run) = false.
Proof.
  intros Ha Hq Hne Hlater. cbv zeta. cbn [scan_runs]. rewrite Hq.
  assert (Ht : truthy (Some data) = true).
  { cbn. destruct (String.eqb_spec data ""); [contradiction | reflexivity]. }
  pose proof (scan_page_locks st stu sem data (reset_clicked first)
                (scan_env first) w Ha Ht) as Hlock.
  split; [|exact Hlock].
  now apply scan_runs_locked.
Qed.

Lemma scan_once_per_reset_witness :
  let first := mkScanInput (Some "tok-1") false (quiet_env t_issue) in
  let later := [mkScanInput (Some "tok-1") false (quiet_env t_issue);
                mkScanInput (Some "nope") false (quiet_env t_issue)] in
  scan_runs (Some 42) (Some 1) (first :: later) scan_initial live_world
  = (mkScan (Some (Success "2025-03-14")) false, scanned_world).
Proof.
  apply (proj1 (scan_once_per_reset (Some 42) (Some 1) scan_initial live_world
                  (mkScanInput (Some "tok-1") false (quiet_env t_issue))
                  "tok-1"
                  [mkScanInput (Some "tok-1") false (quiet_env t_issue);
                   mkScanInput (Some "nope") false (quiet_env t_issue)]
                  eq_refl eq_refl
                  ltac:(discriminate)
                  ltac:(repeat constructor))).
Defined.

(** The status a redemption returns is one of the three the page
    displays. *)
Lemma redeem_status_shown e w u stu sem status msg :
  result (call (redeem_qr_code u stu sem) e w) = Returned (status, msg) ->
  show_result (Some (status, msg)) = [st_success msg]
  \/ show_result (Some (status, msg)) = [st_info msg]
  \/ show_result (Some (status, msg)) = [st_error msg].
Proof.
  redeem_paths e w u stu sem; cbn [result]; intros H;
    try discriminate H; injection H as <- <-; cbn; auto.
Qed.

(** Once the connection is open, a redemption in which no rollback raises
    returns. *)
Lemma redeem_returns e w u stu sem :
  connect_ok e = true ->
  ~ In RollbackFailed (events (call (redeem_qr_code u stu sem) e w)) ->
  exists p, result (call (redeem_qr_code u stu sem) e w) = Returned p.
Proof.
  intros Hc Hrb.
  redeem_paths e w u stu sem; try discriminate Hc;
    try (exfalso; apply Hrb; cbn; tauto);
    cbn [result]; eexists; reflexivity.
Qed.

(** A scanned code is redeemed for the student and semester of the
    session state.  What the redemption returns is what the page shows
    from the next run on: one notice with the returned message, green,
    blue or red by the status; it returns whenever the connection opens
    and no rollback raises.  When the redemption raises instead, the run
    ends with that exception: scanning is switched off already and the
    message of the state is the former one. *)
Theorem scan_page_reports (st : scan_state) (student_id semester_id : Z)
    (data : string) (click : bool) (e : env) (w : world) :
  is_scanning_allowed st = true ->
  data <> "" -> student_id <> 0 -> semester_id <> 0 ->
  let redeemed := call (redeem_qr_code data student_id semester_id) e w in
  let run := scan_page st (Some student_id) (Some semester_id) (Some data)
               click e w in
  store run = after redeemed
  /\ (forall status msg,
        result redeemed = Returned (status, msg) ->
        session_state run = mkScan (Some (status, msg)) false
        /\ ending run = Rerun
        /\ (show_result (scan_result_message (session_state run))
            = [st_success msg]
            \/ show_result (scan_result_message (session_state run))
               = [st_info msg]
            \/ show_result (scan_result_message (session_state run))
               = [st_error msg]))
  /\ (forall x,
        result redeemed = Escaped x ->
        session_state run = mkScan (scan_result_message st) false
        /\ ending run = Uncaught x)
  /\ (connect_ok e = true ->
      ~ In RollbackFailed (events redeemed) ->
      exists status msg, result redeemed = Returned (status, msg)).
Proof.
  intros Ha Hd Hs Hm. cbv zeta.
  assert (Hpage :
    scan_page st (Some student_id) (Some semester_id) (Some data) click e w
    = let run := call (redeem_qr_code data student_id semester_id) e w in
      match result run with
      | Returned r =>
          mkPage (mkScan (Some r) false) (after run)
            (show_result (scan_result_message st)
             ++ [st_info "Point your camera at the QR Code..."])%list Rerun
      | Escaped x =>
          mkPage (mkScan (scan_result_message st) false) (after run)
            (show_result (scan_result_message st)
             ++ [st_info "Point your camera at the QR Code..."])%list
            (Uncaught x)
      end).
  { unfold scan_page. rewrite Ha.
    assert (Ht : truthy (Some data) = true).
    { cbn. destruct (String.eqb_spec data ""); [contradiction | reflexivity]. }
    rewrite Ht. cbn [truthy_id].
    destruct (Z.eqb_spec student_id 0); [contradiction|].
    destruct (Z.eqb_spec semester_id 0); [contradiction|].
    reflexivity. }
  rewrite Hpage. cbv zeta. split; [|split; [|split]].
  - now destruct (result (call (redeem_qr_code data student_id semester_id)
                            e w)).
  - intros status msg Hret. rewrite Hret.
    cbn [session_state ending scan_result_message].
    repeat split.
    now apply (redeem_status_shown e w data student_id semester_id).
  - intros x Hesc. rewrite Hesc. split; reflexivity.
  - intros Hc Hrb.
    destruct (redeem_returns e w data student_id semester_id Hc Hrb)
      as [[status msg] Hret].
    now exists status, msg.
Qed.

Lemma scan_page_reports_witness :
  let run := scan_page scan_initial (Some 42) (Some 1) (Some "tok-1") false
               (quiet_env t_issue) stopped_world in
  session_state run
  = mkScan (Some ("error", "This attendance session is no longer active."))
           false
  /\ ending run = Rerun
  /\ show_result (scan_result_message (session_state run))
     = [st_error "This attendance session is no longer active."]
  /\ store run = stopped_world.
Proof.
  destruct (scan_page_reports scan_initial 42 1 "tok-1" false
              (quiet_env t_issue) stopped_world
              eq_refl ltac:(discriminate) ltac:(discriminate)
              ltac:(discriminate)) as (Hstore & Hreturned & _ & _).
  destruct (Hreturned "error" "This attendance session is no longer active."
              eq_refl) as (Hstate & Hend & _).
  split; [exact Hstate|]. split; [exact Hend|].
  split; [reflexivity | exact Hstore].
Defined.

(** When the session state holds no student or no semester identifier
    (there is no active semester, say), a scanned code is not sent to the
    store: the page stops scanning and keeps the message that the student
    ID was not found. *)
Theorem scan_page_missing_ids (st : scan_state) (stu sem : option Z)
    (data : string) (click : bool) (e : env) (w : world) :
  is_scanning_allowed st = true ->
  data <> "" ->
  truthy_id stu && truthy_id sem = false ->
  scan_page st stu sem (Some data) click e w
  = mkPage (mkScan (Some ("error", msg_no_student)) false) w
      (show_result (scan_result_message st)
       ++ [st_info "Point your camera at the QR Code..."])%list
      Rerun.
Proof.
  intros Ha Hd Hid. unfold scan_page. rewrite Ha.
  assert (Ht : truthy (Some data) = true).
  { cbn. destruct (String.eqb_spec data ""); [contradiction | reflexivity]. }
  rewrite Ht. destruct stu as [s|], sem as [m|]; try reflexivity.
  now rewrite Hid.
Qed.

Lemma scan_page_missing_ids_witness :
  scan_page scan_initial (Some 42) None (Some "tok-1") false
    (quiet_env t_issue) live_world
  = mkPage (mkScan (Some ("error", msg_no_student)) false) live_world
      [st_info "Point your camera at the QR Code..."] Rerun.
Proof.
  apply (scan_page_missing_ids scan_initial (Some 42) None "tok-1" false
           (quiet_env t_issue) live_world).
  - reflexivity.
  - discriminate.
  - reflexivity.
Defined.

(** ** The teacher's QR page *)

Lemma selected_key_in sections name k :
  selected_key sections name = Some k -> In (k, name) sections.
Proof.
  unfold selected_key. induction sections as [|[k0 v0] l IH];
    cbn [filter map hd_error snd]; [discriminate|].
  destruct (String.eqb_spec v0 name) as [->|Hne].
  - cbn. intros H. injection H as <-. now left.
  - intros H. right. now apply IH.
Qed.

(** The section is found back from its display name: when no two
    sections of the teacher are displayed alike, choosing the name of a
    section selects that section; in any case the selected section is one
    that carries the chosen name, and the selection fails exactly when
    no section does. *)
Theorem selected_key_round_trip (sections : list (Z * string))
    (name : string) :
  (forall k, NoDup (map snd sections) -> In (k, name) sections ->
             selected_key sections name = Some k)
  /\ (forall k, selected_key sections name = Some k ->
                In (k, name) sections)
  /\ (selected_key sections name = None <-> ~ In name (map snd sections)).
Proof.
  split; [|split].
  - intros k Hnd Hin. unfold selected_key.
    induction sections as [|[k0 v0] l IH]; [destruct Hin|].
    cbn [filter map hd_error snd fst] in *.
    inversion Hnd as [|x m Hnotin Hnd' Heq]; subst x m.
    destruct Hin as [Heq|Hin].
    + injection Heq as -> ->. now rewrite String.eqb_refl.
    + destruct (String.eqb_spec v0 name) as [->|Hne]; [|now apply IH].
      exfalso. apply Hnotin. apply in_map_iff. now exists (k, name).
  - intros k. apply selected_key_in.
  - unfold selected_key. induction sections as [|[k0 v0] l IH];
      cbn [filter map hd_error snd].
    + split; [intros _ [] | reflexivity].
    + destruct (String.eqb_spec v0 name) as [->|Hne].
      * cbn. split; [discriminate | intros H; exfalso; apply H; now left].
      * rewrite IH. split; [intros H [Heq|Hin]; [contradiction | now apply H]
                           | intros H Hin; apply H; now right].
Qed.

(** ** The form that issues a session *)

Lemma slider_positions_in min_value max_value z :
  In z (slider_positions min_value max_value) ->
  min_value <= z <= max_value.
Proof.
  unfold slider_positions. intros H. apply in_map_iff in H.
  destruct H as [n [<- Hn]]. apply in_seq in Hn. lia.
Qed.

(** A slider whose default lies in its range returns a value of its
    range. *)
Lemma st_slider_range min_value max_value value moved_to :
  min_value <= value <= max_value ->
  min_value <= st_slider min_value max_value value moved_to <= max_value.
Proof.
  intros Hv. unfold st_slider. destruct moved_to as [n|]; [|exact Hv].
  destruct (nth_in_or_default n (slider_positions min_value max_value) value)
    as [Hin|Heq].
  - now apply slider_positions_in.
  - now rewrite Heq.
Qed.

Lemma duration_slider_range moved_to : 1 <= duration_slider moved_to <= 15.
Proof. unfold duration_slider. apply st_slider_range. lia. Qed.



Lemma create_none_keeps_db e w sec d :
  result (call (create_qr_session sec d) e w) = Returned None ->
  db (after (call (create_qr_session sec d) e w)) = db w.
Proof.
  create_paths e w sec d; cbn [result after db]; intros H;
    try discriminate H; reflexivity.
Qed.

(** Starting a session on a store that works: the page keeps the token
    the store returned, the selected section and an expiry of its own,
    computed from a later reading of the clock.  The store holds the new
    session as the only active one of the section, and the expiry the
    page counts down to is never before the session's [expires_at]. *)
Theorem qr_page_start (i : qr_input) (st : qr_state) (w : world) (k : Z) :
  start_clicked i = true ->
  selected_key (teacher_sections i) (section_display_name i) = Some k ->
  connect_ok (create_env i) = true ->
  (forall n, fault_at (create_env i) n = false) ->
  existsb (uuid_matches (uuid4 (create_env i))) (attendance_sessions (db w))
  = false ->
  uuid4 (create_env i) <> "" ->
  clock (create_env i) 0%nat <= now_started i ->
  representable (clock (create_env i) 0%nat + timedelta_minutes (duration i))
  = true ->
  representable (now_started i + timedelta_minutes (duration i)) = true ->
  let run := qr_page i st w in
  let issued := Session.mk (session_id_seq w + 1) (Some k)
                  (uuid4 (create_env i))
                  (clock (create_env i) 0%nat + timedelta_minutes (duration i))
                  true in
  session_state run
  = mkQr (Some (uuid4 (create_env i))) (Some k)
         (Some (now_started i + timedelta_minutes (duration i)))
  /\ ending run = Rerun
  /\ filter (active_in k) (attendance_sessions (db (store run))) = [issued]
  /\ lookup_session (uuid4 (create_env i)) (db (store run)) = Some issued
  /\ Session.expires_at issued
     <= now_started i + timedelta_minutes (duration i).
Proof.
  intros Hs Hk Hc Hf Hn Hne Hclock Hrep' Hrep. cbv zeta.
  unfold qr_page. rewrite Hs, Hk.
  rewrite (create_success _ w (Some k) (duration i) Hc Hrep' (Hf _) (Hf _) Hn
             (Hf _)).
  cbn [result after db attendance_sessions truthy].
  destruct (String.eqb_spec (uuid4 (create_env i)) ""); [contradiction|].
  cbn [negb]. rewrite Hrep.
  cbn [session_state store ending db attendance_sessions].
  split; [reflexivity|]. split; [reflexivity|]. split; [|split].
  - rewrite filter_app, active_deactivate_section_same. cbn [filter app].
    unfold active_in. cbn. now rewrite Z.eqb_refl.
  - unfold lookup_session. cbn [db attendance_sessions].
    rewrite filter_app. cbn [filter]. unfold uuid_matches at 2.
    cbn [Session.session_uuid]. rewrite String.eqb_refl.
    rewrite <- (existsb_uuid_deactivate_section _ (Some k)) in Hn.
    now rewrite (filter_nil_of_existsb _ _ Hn).
  - cbn [Session.expires_at]. lia.
Qed.

Lemma qr_page_start_witness :
  let i := start_input (quiet_env t_issue) in
  let run := qr_page i qr_initial empty_world in
  let issued := Session.mk (session_id_seq empty_world + 1) (Some 7)
                  (uuid4 (create_env i))
                  (clock (create_env i) 0%nat + timedelta_minutes (duration i))
                  true in
  session_state run
  = mkQr (Some (uuid4 (create_env i))) (Some 7)
         (Some (now_started i + timedelta_minutes (duration i)))
  /\ ending run = Rerun
  /\ filter (active_in 7) (attendance_sessions (db (store run))) = [issued]
  /\ lookup_session (uuid4 (create_env i)) (db (store run)) = Some issued
  /\ Session.expires_at issued
     <= now_started i + timedelta_minutes (duration i).
Proof.
  exact (qr_page_start (start_input (quiet_env t_issue)) qr_initial
           empty_world 7 eq_refl eq_refl eq_refl (fun _ => eq_refl)
           eq_refl ltac:(discriminate) ltac:(discriminate)
           eq_refl eq_refl).
Defined.

(** When the session cannot be created, the page has already forgotten
    the session it was showing, shows the error and sends nothing else;
    the tables are as before, so a session that was live is still active
    in the store and can still be redeemed. *)
Theorem qr_page_start_fails (i : qr_input) (st : qr_state) (w : world)
    (k : Z) :
  start_clicked i = true ->
  selected_key (teacher_sections i) (section_display_name i) = Some k ->
  result (call (create_qr_session (Some k) (duration i)) (create_env i) w)
  = Returned None ->
  let run := qr_page i st w in
  session_state run = mkQr None (qr_section_id st) (qr_expires_at st)
  /\ db (store run) = db w
  /\ shown run = [st_error "Failed to create a QR session."]
  /\ ending run = Finished.
Proof.
  intros Hs Hk Hres. cbv zeta. unfold qr_page. rewrite Hs, Hk, Hres.
  cbn [truthy]. unfold qr_display. cbn [qr_session_uuid truthy].
  cbn [session_state store shown ending].
  repeat split. now apply create_none_keeps_db.
Qed.

Lemma qr_page_start_fails_witness :
  let st := mkQr (Some "tok-1") (Some 7) (Some t_expiry) in
  let run := qr_page (start_input (faulty_env 1 t_issue)) st live_world in
  session_state run = mkQr None (Some 7) (Some t_expiry)
  /\ db (store run) = db live_world
  /\ shown run = [st_error "Failed to create a QR session."]
  /\ ending run = Finished.
Proof.
  apply (qr_page_start_fails (start_input (faulty_env 1 t_issue))
           (mkQr (Some "tok-1") (Some 7) (Some t_expiry)) live_world 7).
  - reflexivity.
  - reflexivity.
  - reflexivity.
Defined.

(** Expiry is not written to the store.  After a session has been
    started through the page, a run made once the page's countdown is
    over clears the page and sends nothing: the session is still stored
    with [is_active] true. *)
Theorem qr_page_expiry_not_stored (i1 i2 : qr_input) (st : qr_state)
    (w : world) (k : Z) :
  start_clicked i1 = true ->
  selected_key (teacher_sections i1) (section_display_name i1) = Some k ->
  connect_ok (create_env i1) = true ->
  (forall n, fault_at (create_env i1) n = false) ->
  existsb (uuid_matches (uuid4 (create_env i1))) (attendance_sessions (db w))
  = false ->
  uuid4 (create_env i1) <> "" ->
  representable (clock (create_env i1) 0%nat + timedelta_minutes (duration i1))
  = true ->
  representable (now_started i1 + timedelta_minutes (duration i1)) = true ->
  start_clicked i2 = false ->
  now_started i1 + timedelta_minutes (duration i1) <= now_displayed i2 ->
  let started := qr_page i1 st w in
  let issued := Session.mk (session_id_seq w + 1) (Some k)
                  (uuid4 (create_env i1))
                  (clock (create_env i1) 0%nat
                   + timedelta_minutes (duration i1))
                  true in
  qr_runs [i1; i2] st w = (qr_initial, store started)
  /\ lookup_session (uuid4 (create_env i1)) (db (store started))
     = Some issued
  /\ Session.is_active issued = true.
Proof.
  intros Hs Hk Hc Hf Hn Hne Hrep' Hrep Hs2 Hlate. cbv zeta.
  cbn [qr_runs].
  assert (Hstart : session_state (qr_page i1 st w)
                   = mkQr (Some (uuid4 (create_env i1))) (Some k)
                       (Some (now_started i1
                              + timedelta_minutes (duration i1)))
                   /\ lookup_session (uuid4 (create_env i1))
                        (db (store (qr_page i1 st w)))
                      = Some (Session.mk (session_id_seq w + 1) (Some k)
                                (uuid4 (create_env i1))
                                (clock (create_env i1) 0%nat
                                 + timedelta_minutes (duration i1)) true)).
  { unfold qr_page. rewrite Hs, Hk.
    rewrite (create_success _ w (Some k) (duration i1) Hc Hrep' (Hf _) (Hf _)
               Hn (Hf _)).
    cbn [result after db attendance_sessions truthy].
    destruct (String.eqb_spec (uuid4 (create_env i1)) ""); [contradiction|].
    cbn [negb]. rewrite Hrep. cbn [store session_state].
    split; [reflexivity|].
    unfold lookup_session. cbn [db attendance_sessions].
    rewrite filter_app. cbn [filter]. unfold uuid_matches at 2.
    cbn [Session.session_uuid]. rewrite String.eqb_refl.
    rewrite <- (existsb_uuid_deactivate_section _ (Some k)) in Hn.
    now rewrite (filter_nil_of_existsb _ _ Hn). }
  destruct Hstart as [Hstate Hlook].
  split; [|split; [exact Hlook | reflexivity]].
  rewrite Hstate. generalize (store (qr_page i1 st w)). intros w1.
  unfold qr_page. rewrite Hs2. unfold qr_display.
  cbn [qr_session_uuid qr_expires_at truthy].
  destruct (String.eqb_spec (uuid4 (create_env i1)) ""); [contradiction|].
  cbn [negb].
  assert (Hgt : (now_started i1 + timedelta_minutes (duration i1)
                 - now_displayed i2 >? 0) = false)
    by (rewrite Z.gtb_ltb; apply Z.ltb_ge; lia).
  rewrite Hgt. reflexivity.
Qed.

Lemma qr_page_expiry_not_stored_witness :
  let i1 := start_input (quiet_env t_issue) in
  let i2 := later_input false (t_expiry + 1) (quiet_env t_issue) in
  let started := qr_page i1 qr_initial empty_world in
  let issued := Session.mk (session_id_seq empty_world + 1) (Some 7)
                  (uuid4 (create_env i1))
                  (clock (create_env i1) 0%nat
                   + timedelta_minutes (duration i1))
                  true in
  qr_runs [i1; i2] qr_initial empty_world = (qr_initial, store started)
  /\ lookup_session (uuid4 (create_env i1)) (db (store started))
     = Some issued
  /\ Session.is_active issued = true.
Proof.
  exact (qr_page_expiry_not_stored (start_input (quiet_env t_issue))
           (later_input false (t_expiry + 1) (quiet_env t_issue))
           qr_initial empty_world 7 eq_refl eq_refl eq_refl
           (fun _ => eq_refl) eq_refl ltac:(discriminate) eq_refl
           eq_refl eq_refl ltac:(discriminate)).
Defined.

(** 'Deactivate Session Now' clears the page whenever
    [deactivate_qr_session] returns, whether or not the store took the
    deactivation: the value returned is not looked at.  When it returns
    [True] the sessions carrying the token are inactive afterwards; when
    it returns [False] the store is as before, the session is still
    active and the page no longer shows it.  When it raises instead, the
    run ends with the exception, the store is as before and the page
    still shows the session.  It returns [True] when the connection opens
    and both store calls work, and [False] when one of them fails and no
    rollback raises. *)
Theorem qr_page_deactivate (i : qr_input) (st : qr_state) (w : world)
    (uuid : string) (expires : datetime) :
  start_clicked i = false ->
  qr_session_uuid st = Some uuid -> uuid <> "" ->
  qr_expires_at st = Some expires ->
  now_displayed i < expires ->
  deactivate_clicked i = true ->
  let stopped := call (deactivate_qr_session uuid) (deactivate_env i) w in
  let run := qr_page i st w in
  (forall b,
     result stopped = Returned b ->
     session_state run = qr_initial
     /\ ending run = Rerun
     /\ (b = true ->
         attendance_sessions (db (store run))
         = deactivate_uuid uuid (attendance_sessions (db w)))
     /\ (b = false -> store run = w))
  /\ (forall x,
        result stopped = Escaped x ->
        session_state run = st /\ ending run = Uncaught x /\ store run = w)
  /\ (connect_ok (deactivate_env i) = true ->
      fault_at (deactivate_env i) 0%nat = false ->
      fault_at (deactivate_env i) 1%nat = false ->
      result stopped = Returned true)
  /\ (connect_ok (deactivate_env i) = true ->
      fault_at (deactivate_env i) 0%nat = true
      \/ fault_at (deactivate_env i) 1%nat = true ->
      ~ In RollbackFailed (events stopped) ->
      result stopped = Returned false).
Proof.
  intros Hs Hu Hne He Hlive Hd. cbv zeta.
  unfold qr_page. rewrite Hs. unfold qr_display. rewrite Hu, He.
  cbn [truthy].
  destruct (String.eqb_spec uuid ""); [contradiction|]. cbn [negb].
  assert (Hgt : (expires - now_displayed i >? 0) = true)
    by (apply Z.gtb_gt; lia).
  rewrite Hgt, Hd.
  deactivate_paths (deactivate_env i) w uuid;
    cbn [result after events session_state store ending db
         attendance_sessions];
    (split; [|split; [|split]]);
    try (intros b Hb; try discriminate Hb; injection Hb as <-;
         repeat split; intros Heq; try discriminate Heq; reflexivity);
    try (intros x Hx; try discriminate Hx; injection Hx as <-;
         repeat split; reflexivity);
    try (intros; reflexivity);
    try (intros; discriminate);
    try (intros _ [H|H]; discriminate H);
    try (intros _ _ Hrb; exfalso; apply Hrb; cbn; tauto).
Qed.

Lemma qr_page_deactivate_witness :
  let i := later_input true t_issue (faulty_env 1 t_issue) in
  let st := mkQr (Some "tok-1") (Some 7) (Some t_expiry) in
  let stopped := call (deactivate_qr_session "tok-1") (deactivate_env i)
                   live_world in
  let run := qr_page i st live_world in
  result stopped = Returned false
  /\ events stopped
     = [Connected; Executed (DeactivateSessionByUuid "tok-1"); CommitFailed;
        RolledBack; Closed]
  /\ session_state run = qr_initial
  /\ ending run = Rerun
  /\ store run = live_world.
Proof.
  destruct (qr_page_deactivate
              (later_input true t_issue (faulty_env 1 t_issue))
              (mkQr (Some "tok-1") (Some 7) (Some t_expiry)) live_world
              "tok-1" t_expiry eq_refl eq_refl ltac:(discriminate) eq_refl
              eq_refl eq_refl) as (Hreturned & _ & _ & Hfails).
  assert (Hfalse := Hfails eq_refl (or_intror eq_refl)
                      ltac:(cbn; intuition discriminate)).
  destruct (Hreturned false Hfalse) as (Hstate & Hend & _ & Hstore).
  split; [exact Hfalse|]. split; [reflexivity|].
  split; [exact Hstate|]. split; [exact Hend | exact (Hstore eq_refl)].
Defined.

Lemma qr_display_consistent i st w sh :
  qr_consistent st ->
  qr_consistent (session_state (qr_display i st w sh))
  /\ ending (qr_display i st w sh) <> TypeError.
Proof.
  intros Hok. unfold qr_display.
  destruct (truthy (qr_session_uuid st)) eqn:Ht;
    [|split; [exact Hok | discriminate]].
  specialize (Hok Ht).
  destruct (qr_session_uuid st) as [uuid|]; [|discriminate Ht].
  destruct (qr_expires_at st) as [x|] eqn:Hx; [|contradiction].
  destruct (x - now_displayed i >? 0).
  - destruct (deactivate_clicked i).
    + destruct (result (call (deactivate_qr_session uuid)
                          (deactivate_env i) w));
        (split; [|discriminate]); cbn [session_state].
      * intros H; discriminate H.
      * unfold qr_consistent. rewrite Hx. discriminate.
    + split; [|discriminate]. cbn [session_state].
      unfold qr_consistent. rewrite Hx. discriminate.
  - split; [|discriminate]. intros H. discriminate H.
Qed.

Lemma qr_page_consistent i st w :
  representable (now_started i + timedelta_minutes (duration i)) = true ->
  qr_consistent st ->
  qr_consistent (session_state (qr_page i st w))
  /\ ending (qr_page i st w) <> TypeError.
Proof.
  intros Hrep Hok. unfold qr_page.
  destruct (start_clicked i); [|now apply qr_display_consistent].
  destruct (selected_key _ _) as [k|]; [|split; [exact Hok | discriminate]].
  destruct (result (call (create_qr_session (Some k) (duration i))
                      (create_env i) w)) as [o|x].
  - destruct (truthy o) eqn:Ht.
    + rewrite Hrep. split; [|discriminate]. intros _. discriminate.
    + apply qr_display_consistent. intros H. cbn in H. discriminate H.
  - split; [|discriminate]. intros H. cbn in H. discriminate H.
Qed.

(** Through any succession of runs from the first visit of the page, a
    session that is shown has an expiry: the countdown never fails on a
    missing [qr_expires_at], although starting a session first clears
    the token alone.  (Each expiry the page computes is taken to be a
    representable [datetime].) *)
Theorem qr_page_never_type_error (inputs : list qr_input) (i : qr_input)
    (w : world) :
  Forall (fun j => representable (now_started j
                                  + timedelta_minutes (duration j)) = true)
         (inputs ++ [i]) ->
  let reached := qr_runs inputs qr_initial w in
  ending (qr_page i (fst reached) (snd reached)) <> TypeError
  /\ qr_consistent (fst reached).
Proof.
  intros Hall. cbv zeta.
  assert (Hgen : forall st w0,
             qr_consistent st ->
             Forall (fun j => representable
                                (now_started j
                                 + timedelta_minutes (duration j)) = true)
                    (inputs ++ [i]) ->
             ending (qr_page i (fst (qr_runs inputs st w0))
                       (snd (qr_runs inputs st w0))) <> TypeError
             /\ qr_consistent (fst (qr_runs inputs st w0))).
  { clear Hall. induction inputs as [|j rest IH]; intros st w0 Hok Hall.
    - cbn [qr_runs fst snd]. inversion Hall as [|x l Hi _ Heq]; subst.
      split; [|exact Hok]. now apply qr_page_consistent.
    - cbn [qr_runs]. inversion Hall as [|x l Hj Hrest Heq]; subst.
      apply IH; [|exact Hrest].
      now apply qr_page_consistent. }
  apply Hgen; [|exact Hall].
  intros H. cbn in H. discriminate H.
Qed.

Lemma qr_page_never_type_error_witness :
  let inputs := [start_input (faulty_env 1 t_issue);
                 start_input (quiet_env t_issue)] in
  let i := later_input false (t_issue + 3) (quiet_env t_issue) in
  let reached := qr_runs inputs qr_initial empty_world in
  ending (qr_page i (fst reached) (snd reached)) <> TypeError
  /\ qr_consistent (fst reached).
Proof.
  apply (qr_page_never_type_error
           [start_input (faulty_env 1 t_issue);
            start_input (quiet_env t_issue)]
           (later_input false (t_issue + 3) (quiet_env t_issue))
           empty_world).
  repeat constructor.
Defined.

(** * More on the QR functions *)

(** ** The unique keys *)

Lemma scan_matches_true sid stu r :
  scan_matches sid stu r = true ->
  Scan.session_id r = sid /\ Scan.student_id r = stu.
Proof.
  unfold scan_matches. intros H. apply andb_prop in H.
  destruct H as [H1 H2]. apply Z.eqb_eq in H1, H2. now split.
Qed.

(** Whatever the environment, a redemption keeps the unique keys of
    [qr_scans] and of [attendance]: a violation is answered by the store
    before anything is written, and the upsert overwrites instead of
    adding. *)
Theorem redeem_keeps_unique (e : env) (w : world) (u : string)
    (stu sem : Z) :
  scans_unique (qr_scans (db w)) ->
  att_unique (attendance (db w)) ->
  let run := call (redeem_qr_code u stu sem) e w in
  scans_unique (qr_scans (db (after run)))
  /\ att_unique (attendance (db (after run))).
Proof.
  intros Hs Ha. cbv zeta.
  redeem_paths e w u stu sem; cbn [after db qr_scans attendance];
    try (split; assumption).
  split.
  - intros sid stu'. rewrite filter_app. cbn [filter].
    destruct (scan_matches sid stu' (Scan.mk (Session.id r) stu)) eqn:K.
    + apply scan_matches_true in K. cbn in K. destruct K as [<- <-].
      rewrite (filter_nil_of_existsb _ _ Hdup). cbn. lia.
    + rewrite app_nil_r. apply Hs.
  - now apply upsert_present_unique.
Qed.

Lemma redeem_keeps_unique_witness :
  let run := call (redeem_qr_code "tok-1" 43 1) (quiet_env t_issue)
               scanned_world in
  scans_unique (qr_scans (db (after run)))
  /\ att_unique (attendance (db (after run))).
Proof.
  apply (redeem_keeps_unique (quiet_env t_issue) scanned_world "tok-1" 43 1).
  - intros sid stu. cbn. destruct (scan_matches sid stu _); cbn; lia.
  - intros stu sec d. cbn. destruct (att_matches stu sec d _); cbn; lia.
Defined.

(** ** Two students *)

Lemma upsert_present_other stu stu' sec sec' sem' d d' l :
  stu' <> stu ->
  filter (att_matches stu sec d) (upsert_present stu' sec' sem' d' l)
  = filter (att_matches stu sec d) l.
Proof.
  intros Hne. unfold upsert_present.
  destruct (existsb (att_matches stu' sec' d') l).
  - induction l as [|x l IH]; cbn [map filter]; [reflexivity|].
    destruct (att_matches stu' sec' d' x) eqn:K.
    + rewrite att_matches_marked.
      apply att_matches_true in K. destruct K as [Hx _].
      assert (Hno : att_matches stu sec d x = false).
      { unfold att_matches. destruct (Attendance.student_id x =? stu) eqn:E;
          [|reflexivity]. apply Z.eqb_eq in E. congruence. }
      rewrite Hno. exact IH.
    + destruct (att_matches stu sec d x); [now rewrite IH | exact IH].
  - rewrite filter_app. cbn [filter].
    rewrite att_matches_other by exact Hne. apply app_nil_r.
Qed.

Lemma existsb_scan_other sid stu stu' l :
  stu' <> stu ->
  existsb (scan_matches sid stu) (l ++ [Scan.mk sid stu'])
  = existsb (scan_matches sid stu) l.
Proof.
  intros Hne. rewrite existsb_app. cbn. unfold scan_matches at 2. cbn.
  destruct (stu' =? stu) eqn:E.
  - apply Z.eqb_eq in E. contradiction.
  - now rewrite andb_false_r, !orb_false_r.
Qed.

(** Two different students who redeem the same live session both
    succeed; afterwards the store holds one scan for each, in the order of
    the calls, and each student has exactly one mark, [Present], for the
    section and the day of the own scan. *)
Theorem redeem_two_students (e1 e2 : env) (w : world) (u : string)
    (stu1 stu2 sem : Z) (r : Session.row) (sec : Z) :
  connect_ok e1 = true -> (forall n, fault_at e1 n = false) ->
  connect_ok e2 = true -> (forall n, fault_at e2 n = false) ->
  lookup_session u (db w) = Some r ->
  Session.is_active r = true ->
  Session.section_id r = Some sec ->
  clock e1 0%nat <= Session.expires_at r ->
  clock e2 0%nat <= Session.expires_at r ->
  stu1 <> stu2 ->
  existsb (scan_matches (Session.id r) stu1) (qr_scans (db w)) = false ->
  existsb (scan_matches (Session.id r) stu2) (qr_scans (db w)) = false ->
  att_unique (attendance (db w)) ->
  let first := call (redeem_qr_code u stu1 sem) e1 w in
  let second := call (redeem_qr_code u stu2 sem) e2 (after first) in
  let day1 := toordinal (clock e1 1%nat) in
  let day2 := toordinal (clock e2 1%nat) in
  result first = Returned (Success (strftime_Ymd (clock e1 1%nat)))
  /\ result second = Returned (Success (strftime_Ymd (clock e2 1%nat)))
  /\ qr_scans (db (after second))
     = (qr_scans (db w)
        ++ [Scan.mk (Session.id r) stu1; Scan.mk (Session.id r) stu2])%list
  /\ (exists a,
        filter (att_matches stu1 (Some sec) day1)
          (attendance (db (after second))) = [a]
        /\ Attendance.status a = Present)
  /\ (exists a,
        filter (att_matches stu2 (Some sec) day2)
          (attendance (db (after second))) = [a]
        /\ Attendance.status a = Present).
Proof.
  intros Hc1 Hf1 Hc2 Hf2 Hl Ha Hsec Hx1 Hx2 Hne Hn1 Hn2 Hu. cbv zeta.
  rewrite (redeem_success e1 w u stu1 sem r Hc1 (Hf1 _) Hl Hx1 Ha (Hf1 _)
             Hn1 (Hf1 _) (Hf1 _)).
  cbn [result after].
  match goal with
  | |- context [call _ e2 ?w1] =>
      assert (Hn2' : existsb (scan_matches (Session.id r) stu2)
                       (qr_scans (db w1)) = false)
        by (cbn [db qr_scans]; rewrite existsb_scan_other by exact Hne;
            exact Hn2);
      rewrite (redeem_success e2 w1 u stu2 sem r Hc2 (Hf2 _) Hl Hx2 Ha
                 (Hf2 _) Hn2' (Hf2 _) (Hf2 _))
  end.
  cbn [result after db qr_scans attendance]. rewrite Hsec.
  split; [reflexivity|]. split; [reflexivity|].
  split; [now rewrite <- app_assoc|]. split.
  - rewrite upsert_present_other by (intros H; apply Hne; now symmetry).
    now apply upsert_present_exactly_one.
  - apply upsert_present_exactly_one. now apply upsert_present_unique.
Qed.

Lemma redeem_two_students_witness :
  let e := quiet_env t_issue in
  let first := call (redeem_qr_code "tok-1" 42 1) e live_world in
  let second := call (redeem_qr_code "tok-1" 43 1) e (after first) in
  result first = Returned (Success "2025-03-14")
  /\ result second = Returned (Success "2025-03-14")
  /\ qr_scans (db (after second)) = [Scan.mk 1 42; Scan.mk 1 43].
Proof.
  assert (Hle : t_issue <= t_expiry) by (vm_compute; discriminate).
  assert (Hu : att_unique (attendance (db live_world)))
    by (intros stu sec d; cbn; lia).
  destruct (redeem_two_students (quiet_env t_issue) (quiet_env t_issue)
              live_world "tok-1" 42 43 1 live_session 7
              eq_refl (fun _ => eq_refl) eq_refl (fun _ => eq_refl)
              eq_refl eq_refl eq_refl Hle Hle ltac:(discriminate)
              eq_refl eq_refl Hu) as [H1 [H2 [H3 _]]].
  split; [exact H1|]. split; [exact H2 | exact H3].
Defined.

(** ** Sessions that are no longer live *)

(** A redemption succeeds only for a token whose session is active. *)
Lemma redeem_success_active e w u stu sem msg :
  result (call (redeem_qr_code u stu sem) e w) = Returned ("success", msg) ->
  exists r, lookup_session u (db w) = Some r /\ Session.is_active r = true.
Proof.
  redeem_paths e w u stu sem; cbn [result]; intros H; try discriminate H.
  exists r. now split.
Qed.

Lemma filter_uuid_deactivate_uuid u u' l :
  filter (uuid_matches u) (deactivate_uuid u' l)
  = deactivate_uuid u' (filter (uuid_matches u) l).
Proof.
  unfold deactivate_uuid. induction l as [|x l IH]; cbn [map filter];
    [reflexivity|].
  assert (Hk : uuid_matches u (if uuid_matches u' x
                               then Session.deactivated x else x)
               = uuid_matches u x)
    by (destruct (uuid_matches u' x); reflexivity).
  rewrite Hk. destruct (uuid_matches u x); cbn [map]; now rewrite IH.
Qed.

Lemma filter_uuid_deactivate_section u sec l :
  filter (uuid_matches u) (deactivate_section sec l)
  = deactivate_section sec (filter (uuid_matches u) l).
Proof.
  unfold deactivate_section. induction l as [|x l IH]; cbn [map filter];
    [reflexivity|].
  assert (Hk : uuid_matches u (if sql_eq (Session.section_id x) sec
                               then Session.deactivated x else x)
               = uuid_matches u x)
    by (destruct (sql_eq (Session.section_id x) sec); reflexivity).
  rewrite Hk. destruct (uuid_matches u x); cbn [map]; now rewrite IH.
Qed.

(** Once [deactivate_qr_session] has returned [True] for a token, no
    redemption of that token succeeds, whoever scans and whatever the
    clock shows. *)
Theorem deactivated_session_rejected (e1 e2 : env) (w : world) (u : string)
    (stu sem : Z) (msg : string) :
  result (call (deactivate_qr_session u) e1 w) = Returned true ->
  result (call (redeem_qr_code u stu sem) e2
            (after (call (deactivate_qr_session u) e1 w)))
  <> Returned ("success", msg).
Proof.
  intros Hd Hs. apply redeem_success_active in Hs.
  destruct Hs as [r [Hl Ha]]. revert Hd Hl.
  deactivate_paths e1 w u; cbn [result after db]; intros Hd Hl;
    try discriminate Hd.
  unfold lookup_session in Hl. cbn [attendance_sessions] in Hl.
  rewrite filter_uuid_deactivate_uuid in Hl.
  destruct (filter (uuid_matches u) (attendance_sessions (db w)))
    as [|x rest] eqn:E; [discriminate Hl|].
  assert (Hx : uuid_matches u x = true).
  { assert (Hin : In x (filter (uuid_matches u) (attendance_sessions (db w))))
      by (rewrite E; now left).
    apply filter_In in Hin. tauto. }
  unfold deactivate_uuid in Hl. cbn [map hd_error] in Hl. rewrite Hx in Hl.
  injection Hl as <-. discriminate Ha.
Qed.

Lemma deactivated_session_rejected_witness :
  result (call (redeem_qr_code "tok-1" 42 1) (quiet_env t_issue)
            (after (call (deactivate_qr_session "tok-1") (quiet_env t_issue)
                      live_world)))
  <> Returned ("success", msg_success "2025-03-14").
Proof.
  apply (deactivated_session_rejected (quiet_env t_issue) (quiet_env t_issue)
           live_world "tok-1" 42 1 (msg_success "2025-03-14")).
  reflexivity.
Defined.

(** A session is superseded by the next one of its section: once
    [create_qr_session] has returned a token for a section, no redemption
    of a token issued earlier for that section succeeds. *)
Theorem superseded_session_rejected (e1 e2 : env) (w : world) (sec d : Z)
    (tok u : string) (r : Session.row) (stu sem : Z) (msg : string) :
  result (call (create_qr_session (Some sec) d) e1 w) = Returned (Some tok) ->
  lookup_session u (db w) = Some r ->
  Session.section_id r = Some sec ->
  result (call (redeem_qr_code u stu sem) e2
            (after (call (create_qr_session (Some sec) d) e1 w)))
  <> Returned ("success", msg).
Proof.
  intros Hc Hl Hsec Hs. apply redeem_success_active in Hs.
  destruct Hs as [r' [Hl' Ha]]. revert Hc Hl'.
  create_paths e1 w (Some sec) d; cbn [result after db]; intros Hc Hl';
    try discriminate Hc.
  destruct (lookup_session_some _ _ _ Hl) as [rest E].
  unfold lookup_session in Hl'. cbn [attendance_sessions] in Hl'.
  rewrite filter_app, filter_uuid_deactivate_section, E in Hl'.
  unfold deactivate_section in Hl'. cbn [map app hd_error] in Hl'.
  rewrite Hsec in Hl'. cbn [sql_eq] in Hl'. rewrite Z.eqb_refl in Hl'.
  injection Hl' as <-. discriminate Ha.
Qed.

Lemma superseded_session_rejected_witness :
  result (call (redeem_qr_code "tok-1" 42 1) (quiet_env t_issue)
            (after (call (create_qr_session (Some 7) 5) (quiet_env t_issue)
                      live_world)))
  <> Returned ("success", msg_success "2025-03-14").
Proof.
  apply (superseded_session_rejected (quiet_env t_issue) (quiet_env t_issue)
           live_world 7 5 "6f1c2a9e" "tok-1" live_session 42 1
           (msg_success "2025-03-14")).
  - reflexivity.
  - reflexivity.
  - reflexivity.
Defined.

(** ** Tokens are unique *)

Lemma nodup_uuid_filter (keep : Session.row -> bool) l :
  NoDup (map Session.session_uuid l) ->
  NoDup (map Session.session_uuid (filter keep l)).
Proof.
  induction l as [|x l IH]; cbn [map filter]; intros H; [constructor|].
  inversion H as [|y m Hnotin Hnd Heq]; subst.
  destruct (keep x); [|now apply IH].
  cbn [map]. constructor; [|now apply IH].
  intros Hin. apply Hnotin. apply in_map_iff in Hin.
  destruct Hin as [z [Hz Hin]]. apply filter_In in Hin.
  apply in_map_iff. exists z. tauto.
Qed.

Lemma map_uuid_deactivate_section sec l :
  map Session.session_uuid (deactivate_section sec l)
  = map Session.session_uuid l.
Proof.
  unfold deactivate_section. rewrite map_map. apply map_ext.
  intros x. now destruct (sql_eq (Session.section_id x) sec).
Qed.

Lemma map_uuid_deactivate_uuid u l :
  map Session.session_uuid (deactivate_uuid u l)
  = map Session.session_uuid l.
Proof.
  unfold deactivate_uuid. rewrite map_map. apply map_ext.
  intros x. now destruct (uuid_matches u x).
Qed.

Lemma existsb_uuid_not_in u l :
  existsb (uuid_matches u) l = false ->
  ~ In u (map Session.session_uuid l).
Proof.
  intros H Hin. apply in_map_iff in Hin. destruct Hin as [x [Hx Hin]].
  assert (existsb (uuid_matches u) l = true).
  { apply existsb_exists. exists x. split; [exact Hin|].
    unfold uuid_matches. rewrite Hx. apply String.eqb_refl. }
  congruence.
Qed.

(** In every world the application can reach no two sessions carry the
    same token, so a token identifies at most one session: the session
    [redeem_qr_code] looks up is the only one with that token. *)
Theorem reachable_tokens_unique (w : world) :
  reachable w ->
  NoDup (map Session.session_uuid (attendance_sessions (db w)))
  /\ (forall u r r',
        lookup_session u (db w) = Some r ->
        In r' (attendance_sessions (db w)) ->
        Session.session_uuid r' = u -> r' = r).
Proof.
  intros Hreach.
  assert (Hnd : NoDup (map Session.session_uuid (attendance_sessions (db w)))).
  { induction Hreach as [t n Hempty | w e sec d _ IH | w e u stu sem _ IH
                        | w e u _ IH | w keep scans att _ IH].
    - cbn [db]. rewrite Hempty. constructor.
    - create_paths e w sec d; try exact IH.
      cbn [after db attendance_sessions].
      rewrite map_app, map_uuid_deactivate_section. cbn [map].
      apply NoDup_app; [exact IH | repeat constructor; intros [] |].
      intros x Hin [<-|[]]. cbn in Hin.
      now apply (existsb_uuid_not_in _ _ Hnew).
    - now rewrite redeem_keeps_sessions.
    - deactivate_paths e w u; try exact IH.
      cbn [after db attendance_sessions].
      now rewrite map_uuid_deactivate_uuid.
    - cbn [db attendance_sessions]. now apply nodup_uuid_filter. }
  split; [exact Hnd|].
  intros u r r' Hl Hin Hu.
  destruct (lookup_session_in _ _ _ Hl) as [Hinr Hur].
  clear Hl Hreach. revert Hnd Hin Hinr.
  generalize (attendance_sessions (db w)). intros l.
  induction l as [|x l IH]; cbn [map]; intros Hnd Hin Hinr; [destruct Hin|].
  inversion Hnd as [|y m Hnotin Hnd' Heq]; subst y m.
  destruct Hin as [->|Hin], Hinr as [->|Hinr].
  - reflexivity.
  - exfalso. apply Hnotin. rewrite Hu, <- Hur. now apply in_map.
  - exfalso. apply Hnotin. rewrite Hur, <- Hu. now apply in_map.
  - now apply IH.
Qed.

Lemma reachable_tokens_unique_witness :
  NoDup (map Session.session_uuid (attendance_sessions (db live_world)))
  /\ (forall u r r',
        lookup_session u (db live_world) = Some r ->
        In r' (attendance_sessions (db live_world)) ->
        Session.session_uuid r' = u -> r' = r).
Proof.
  apply (reachable_tokens_unique live_world).
  exact (reach_create empty_world (mkEnv true (fun _ => false)
                                     (fun _ => t_issue) "tok-1")
           (Some 7) 5
           (reach_setup (mkTables [] [] []) 0 eq_refl)).
Defined.

(** * Semesters *)

(** [add_new_semester] checks what it is given before it opens a
    connection: an empty name, a missing date, or an end date that is not
    after the start date is answered [False] without any store call,
    also when the database cannot be reached. *)
Theorem add_new_semester_validates (name : string)
    (start_date end_date : option Z) (e : env) (s : sem_store) :
  name = "" \/ start_date = None \/ end_date = None
  \/ (exists sd ed, start_date = Some sd /\ end_date = Some ed /\ ed <= sd) ->
  add_new_semester name start_date end_date e s
  = mkSemRun (Returned false) s 0.
Proof.
  intros H. unfold add_new_semester.
  destruct start_date as [sd|], end_date as [ed|]; try reflexivity.
  destruct (String.eqb_spec name "") as [_|Hn]; [reflexivity|].
  destruct H as [H|[H|[H|[sd' [ed' [H1 [H2 H3]]]]]]];
    try contradiction; try discriminate.
  injection H1 as <-. injection H2 as <-.
  apply Z.leb_le in H3. now rewrite H3.
Qed.

Lemma add_new_semester_validates_witness :
  add_new_semester "Summer 2025" (Some 739400) (Some 739400)
    (offline_env t_issue) seeded_semesters
  = mkSemRun (Returned false) seeded_semesters 0.
Proof.
  apply (add_new_semester_validates "Summer 2025" (Some 739400) (Some 739400)
           (offline_env t_issue) seeded_semesters).
  right. right. right. exists 739400, 739400.
  split; [reflexivity|]. split; [reflexivity|]. lia.
Defined.

Lemma overlaps_false sd ed r :
  overlaps sd ed r = false ->
  ed < Semester.start_date r \/ Semester.end_date r < sd.
Proof.
  unfold overlaps. intros H. apply andb_false_iff in H.
  destruct H as [H|H].
  - apply Z.leb_gt in H. lia.
  - rewrite Z.geb_leb in H. apply Z.leb_gt in H. lia.
Qed.

Lemma existsb_false_in {A} (p : A -> bool) l x :
  existsb p l = false -> In x l -> p x = false.
Proof.
  intros H Hin. destruct (p x) eqn:E; [|reflexivity].
  assert (existsb p l = true) by (apply existsb_exists; now exists x).
  congruence.
Qed.

Lemma add_keeps_well_formed name start_date end_date e s :
  sem_well_formed s ->
  sem_well_formed (sem_after (add_new_semester name start_date end_date e s)).
Proof.
  intros Hwf.
  assert (Hseq : sem_well_formed
                   (mkSemStore (semesters s) (semester_id_seq s + 1))).
  { destruct Hwf as [H1 [H2 [H3 H4]]]. repeat split; try assumption.
    cbn. intros r Hr. specialize (H2 r Hr). lia. }
  unfold add_new_semester.
  destruct start_date as [sd|], end_date as [ed|]; try exact Hwf.
  destruct (String.eqb name ""); [exact Hwf|].
  destruct (ed <=? sd) eqn:Hle; [exact Hwf|]. apply Z.leb_gt in Hle.
  unfold check_semester_overlap.
  destruct (connect_ok e); [|exact Hwf].
  destruct (fault_at e 0%nat); [exact Hwf|].
  destruct (existsb _ (semesters s)) eqn:Hov; [exact Hwf|].
  destruct (fault_at e 1%nat); [exact Hwf|].
  destruct (existsb (name_taken name) (semesters s)); [exact Hseq|].
  destruct (fault_at e 2%nat); [exact Hseq|].
  cbn [sem_after]. destruct Hwf as [H1 [H2 [H3 H4]]].
  assert (Hfree : forall b, In b (semesters s) ->
                    ed < Semester.start_date b \/ Semester.end_date b < sd).
  { intros b Hb. apply overlaps_false.
    pose proof (existsb_false_in _ _ b Hov Hb) as Hb'. cbn in Hb'.
    now rewrite andb_true_r in Hb'. }
  repeat split; cbn [semesters semester_id_seq].
  - rewrite map_app. cbn [map Semester.id].
    apply NoDup_app; [exact H1 | repeat constructor; intros [] |].
    intros x Hin [<-|[]]. apply in_map_iff in Hin.
    destruct Hin as [r [Hr Hin]]. specialize (H2 r Hin). lia.
  - intros r Hr. apply in_app_or in Hr. destruct Hr as [Hr|[<-|[]]].
    + specialize (H2 r Hr). lia.
    + cbn. lia.
  - intros r Hr. apply in_app_or in Hr. destruct Hr as [Hr|[<-|[]]].
    + now apply H3.
    + cbn. lia.
  - intros a b Ha Hb Hne. apply in_app_or in Ha, Hb.
    destruct Ha as [Ha|[<-|[]]], Hb as [Hb|[<-|[]]]; cbn.
    + now apply H4.
    + destruct (Hfree a Ha); lia.
    + destruct (Hfree b Hb); lia.
    + contradiction.
Qed.

Lemma update_row_id sid name sd ed r :
  Semester.id (update_row sid name sd ed r) = Semester.id r.
Proof. unfold update_row. now destruct (Semester.id r =? sid). Qed.

Lemma update_keeps_well_formed semester_id name start_date end_date e s :
  sem_well_formed s ->
  sem_well_formed
    (sem_after (update_semester semester_id name start_date end_date e s)).
Proof.
  intros Hwf. unfold update_semester.
  destruct semester_id as [sid|], start_date as [sd|], end_date as [ed|];
    try exact Hwf.
  destruct (negb (truthy_id (Some sid)) || String.eqb name "") eqn:Hv;
    [exact Hwf|].
  apply orb_false_iff in Hv. destruct Hv as [Hid _].
  apply negb_false_iff in Hid.
  destruct (ed <=? sd) eqn:Hle; [exact Hwf|]. apply Z.leb_gt in Hle.
  unfold check_semester_overlap.
  destruct (connect_ok e); [|exact Hwf].
  destruct (fault_at e 0%nat); [exact Hwf|].
  destruct (existsb _ (semesters s)) eqn:Hov; [exact Hwf|].
  destruct (fault_at e 1%nat); [exact Hwf|].
  destruct (rename_conflict sid name (semesters s)); [exact Hwf|].
  destruct (fault_at e 2%nat); [exact Hwf|].
  cbn [sem_after]. destruct Hwf as [H1 [H2 [H3 H4]]].
  assert (Hfree : forall b, In b (semesters s) -> Semester.id b <> sid ->
                    ed < Semester.start_date b \/ Semester.end_date b < sd).
  { intros b Hb Hne. apply overlaps_false.
    pose proof (existsb_false_in _ _ b Hov Hb) as Hb'. cbn in Hb'.
    unfold not_excluded in Hb'. rewrite Hid in Hb'. cbn [sql_eq] in Hb'.
    destruct (Semester.id b =? sid) eqn:E;
      [apply Z.eqb_eq in E; contradiction|].
    cbn in Hb'. now rewrite andb_true_r in Hb'. }
  assert (Hrow : forall r', In r' (map (update_row sid name sd ed)
                                     (semesters s)) ->
                   exists r, In r (semesters s)
                             /\ r' = update_row sid name sd ed r).
  { intros r' Hr'. apply in_map_iff in Hr'. destruct Hr' as [r [<- Hr]].
    now exists r. }
  repeat split; cbn [semesters semester_id_seq].
  - rewrite map_map.
    rewrite (map_ext _ Semester.id); [exact H1|].
    intros r. apply update_row_id.
  - intros r' Hr'. destruct (Hrow r' Hr') as [r [Hr ->]].
    rewrite update_row_id. now apply H2.
  - intros r' Hr'. destruct (Hrow r' Hr') as [r [Hr ->]].
    unfold update_row. destruct (Semester.id r =? sid); cbn; [lia|].
    now apply H3.
  - intros a' b' Ha' Hb' Hne.
    destruct (Hrow a' Ha') as [a [Ha ->]].
    destruct (Hrow b' Hb') as [b [Hb ->]].
    rewrite !update_row_id in Hne. unfold update_row.
    destruct (Semester.id a =? sid) eqn:Ea, (Semester.id b =? sid) eqn:Eb;
      cbn.
    + apply Z.eqb_eq in Ea, Eb. congruence.
    + apply Z.eqb_neq in Eb. destruct (Hfree b Hb Eb); lia.
    + apply Z.eqb_neq in Ea. destruct (Hfree a Ha Ea); lia.
    + now apply H4.
Qed.

Lemma activate_keeps_well_formed semester_id e s :
  sem_well_formed s ->
  sem_well_formed (sem_after (set_active_semester semester_id e s)).
Proof.
  intros Hwf. unfold set_active_semester.
  destruct (connect_ok e); [|exact Hwf].
  destruct (fault_at e 0%nat || fault_at e 1%nat || fault_at e 2%nat);
    [exact Hwf|].
  cbn [sem_after]. destruct Hwf as [H1 [H2 [H3 H4]]].
  assert (Hrow : forall r', In r' (map (activate_only semester_id)
                                     (semesters s)) ->
                   exists r, In r (semesters s)
                             /\ r' = activate_only semester_id r).
  { intros r' Hr'. apply in_map_iff in Hr'. destruct Hr' as [r [<- Hr]].
    now exists r. }
  repeat split; cbn [semesters semester_id_seq].
  - rewrite map_map. exact H1.
  - intros r' Hr'. destruct (Hrow r' Hr') as [r [Hr ->]]. cbn.
    now apply H2.
  - intros r' Hr'. destruct (Hrow r' Hr') as [r [Hr ->]]. cbn.
    now apply H3.
  - intros a' b' Ha' Hb' Hne.
    destruct (Hrow a' Ha') as [a [Ha ->]].
    destruct (Hrow b' Hb') as [b [Hb ->]].
    cbn in *. now apply H4.
Qed.

(** Whatever they are given and whatever the environment,
    [add_new_semester], [update_semester] and [set_active_semester] keep
    the table well formed: identifiers stay unique, every semester ends
    after it starts, and no two semesters share a day. *)
Theorem semesters_stay_well_formed (s : sem_store) (e : env)
    (semester_id : option Z) (name : string)
    (start_date end_date : option Z) :
  sem_well_formed s ->
  sem_well_formed (sem_after (add_new_semester name start_date end_date e s))
  /\ sem_well_formed
       (sem_after (update_semester semester_id name start_date end_date e s))
  /\ sem_well_formed (sem_after (set_active_semester semester_id e s)).
Proof.
  intros Hwf. split; [|split].
  - now apply add_keeps_well_formed.
  - now apply update_keeps_well_formed.
  - now apply activate_keeps_well_formed.
Qed.

Lemma seeded_well_formed : sem_well_formed seeded_semesters.
Proof.
  repeat split; cbn.
  - repeat constructor. intros [].
  - intros r [<-|[]]. cbn. lia.
  - intros r [<-|[]]. cbn. lia.
  - intros a b [<-|[]] [<-|[]] Hne. exfalso. now apply Hne.
Qed.

Lemma semesters_stay_well_formed_witness :
  sem_well_formed
    (sem_after (add_new_semester "Autumn 2025" (Some 739495) (Some 739605)
                  (quiet_env t_issue) seeded_semesters))
  /\ sem_well_formed
       (sem_after (update_semester (Some 1) "Spring 2025" (Some 739252)
                     (Some 739380) (quiet_env t_issue) seeded_semesters))
  /\ sem_well_formed
       (sem_after (set_active_semester (Some 1) (quiet_env t_issue)
                     seeded_semesters)).
Proof.
  destruct (semesters_stay_well_formed seeded_semesters (quiet_env t_issue)
              (Some 1) "Autumn 2025" (Some 739495) (Some 739605)
              seeded_well_formed) as [H1 [_ H3]].
  destruct (semesters_stay_well_formed seeded_semesters (quiet_env t_issue)
              (Some 1) "Spring 2025" (Some 739252) (Some 739380)
              seeded_well_formed) as [_ [H2 _]].
  split; [exact H1|]. split; [exact H2 | exact H3].
Defined.

Lemma filter_active_activated semester_id l :
  filter Semester.is_active (map (activate_only semester_id) l)
  = map (activate_only semester_id)
      (filter (fun r => sql_eq (Some (Semester.id r)) semester_id) l).
Proof.
  induction l as [|x l IH]; cbn [map filter]; [reflexivity|].
  cbn [activate_only Semester.is_active].
  destruct (sql_eq (Some (Semester.id x)) semester_id); cbn [map];
    now rewrite IH.
Qed.

Lemma filter_id_length sid l :
  NoDup (map Semester.id l) ->
  (List.length (filter (fun r => sql_eq (Some (Semester.id r)) (Some sid)) l)
   <= 1)%nat.
Proof.
  induction l as [|x l IH]; cbn [map filter]; intros Hnd; [cbn; lia|].
  inversion Hnd as [|y m Hnotin Hnd' Heq]; subst.
  specialize (IH Hnd'). cbn [sql_eq].
  destruct (Semester.id x =? sid) eqn:E; [|exact IH].
  apply Z.eqb_eq in E. rewrite filter_nil_of_existsb; [cbn; lia|].
  apply existsb_false_forall. intros r Hr. cbn [sql_eq].
  apply Z.eqb_neq. intros Hr'. apply Hnotin. rewrite E, <- Hr'.
  now apply in_map.
Qed.

(** After [set_active_semester] has returned [True], the active
    semesters are exactly those with the given identifier, so at most one
    when identifiers are unique; [get_active_semester] then returns that
    semester's identifier and name, and [(None, None)] when no semester
    has the identifier: activating an unknown identifier leaves the
    application without an active semester. *)
Theorem activate_then_get (semester_id : option Z) (e1 e2 : env)
    (s : sem_store) :
  sem_result (set_active_semester semester_id e1 s) = Returned true ->
  let s' := sem_after (set_active_semester semester_id e1 s) in
  (forall r, In r (semesters s') ->
             (Semester.is_active r = true
              <-> Some (Semester.id r) = semester_id))
  /\ (NoDup (map Semester.id (semesters s)) ->
      (List.length (filter Semester.is_active (semesters s')) <= 1)%nat)
  /\ (connect_ok e2 = true -> fault_at e2 0%nat = false ->
      sem_result (get_active_semester e2 s')
      = Returned
          (match find (fun r => sql_eq (Some (Semester.id r)) semester_id)
                   (semesters s) with
           | Some r => (semester_id, Some (Semester.semester_name r))
           | None => (None, None)
           end)).
Proof.
  unfold set_active_semester.
  destruct (connect_ok e1); [|discriminate].
  destruct (fault_at e1 0%nat || fault_at e1 1%nat || fault_at e1 2%nat);
    [discriminate|].
  intros _. cbv zeta. cbn [sem_after semesters]. split; [|split].
  - intros r' Hr'. apply in_map_iff in Hr'. destruct Hr' as [r [<- Hr]].
    cbn [activate_only Semester.is_active Semester.id]. split.
    + intros H. now apply sql_eq_true in H.
    + intros <-. cbn. apply Z.eqb_refl.
  - intros Hnd. rewrite filter_active_activated, length_map.
    destruct semester_id as [sid|].
    + now apply filter_id_length.
    + rewrite filter_nil_of_existsb; [cbn; lia|].
      apply existsb_false_forall. reflexivity.
  - intros Hc H0. unfold get_active_semester. rewrite Hc, H0.
    cbn [sem_result semesters]. f_equal.
    rewrite filter_active_activated.
    induction (semesters s) as [|x l IH]; cbn [filter find map];
      [reflexivity|].
    destruct (sql_eq (Some (Semester.id x)) semester_id) eqn:E; [|exact IH].
    cbn [map activate_only Semester.id Semester.semester_name].
    apply sql_eq_true in E. now rewrite E.
Qed.

Lemma activate_then_get_witness :
  sem_result (get_active_semester (quiet_env t_issue)
                (sem_after (set_active_semester (Some 2) (quiet_env t_issue)
                              two_semesters)))
  = Returned (Some 2, Some "Autumn 2025")
  /\ sem_result (get_active_semester (quiet_env t_issue)
                   (sem_after (set_active_semester (Some 9)
                                 (quiet_env t_issue) two_semesters)))
     = Returned (None, None).
Proof.
  split.
  - apply (proj2 (proj2 (activate_then_get (Some 2) (quiet_env t_issue)
                           (quiet_env t_issue) two_semesters eq_refl)));
      reflexivity.
  - apply (proj2 (proj2 (activate_then_get (Some 9) (quiet_env t_issue)
                           (quiet_env t_issue) two_semesters eq_refl)));
      reflexivity.
Defined.

(** On a store that works, [add_new_semester] returns [True] exactly
    when the name is not empty, the end date is after the start date, the
    dates share no day with a stored semester and no stored semester has
    the name; the semester is then stored after the others, inactive. *)
Theorem add_new_semester_accepts (name : string) (sd ed : Z) (e : env)
    (s : sem_store) :
  connect_ok e = true -> (forall n, fault_at e n = false) ->
  let run := add_new_semester name (Some sd) (Some ed) e s in
  (sem_result run = Returned true
   <-> name <> "" /\ sd < ed
       /\ (forall r, In r (semesters s) ->
                     ed < Semester.start_date r \/ Semester.end_date r < sd)
       /\ (forall r, In r (semesters s) -> Semester.semester_name r <> name))
  /\ (sem_result run = Returned true ->
      semesters (sem_after run)
      = (semesters s
         ++ [Semester.mk (semester_id_seq s + 1) name sd ed false])%list)
  /\ (sem_result run <> Returned true ->
      semesters (sem_after run) = semesters s).
Proof.
  intros Hc Hf. cbv zeta. unfold add_new_semester, check_semester_overlap.
  rewrite Hc, !Hf.
  destruct (String.eqb_spec name "") as [Hn|Hn].
  { cbn [sem_result sem_after]. split; [|split; [discriminate | reflexivity]].
    split; [discriminate | intros [H _]; contradiction]. }
  destruct (ed <=? sd) eqn:Hle.
  { apply Z.leb_le in Hle. cbn [sem_result sem_after].
    split; [|split; [discriminate | reflexivity]].
    split; [discriminate | intros [_ [H _]]; lia]. }
  apply Z.leb_gt in Hle.
  destruct (existsb (fun r => overlaps sd ed r && not_excluded None r)
              (semesters s)) eqn:Hov.
  { cbn [sem_result sem_after]. split; [|split; [discriminate | reflexivity]].
    split; [discriminate|]. intros [_ [_ [H _]]].
    apply existsb_exists in Hov. destruct Hov as [r [Hr Ho]].
    cbn in Ho. rewrite andb_true_r in Ho. unfold overlaps in Ho.
    apply andb_prop in Ho. destruct Ho as [H1 H2].
    apply Z.leb_le in H1. rewrite Z.geb_leb in H2. apply Z.leb_le in H2.
    destruct (H r Hr); lia. }
  destruct (existsb (name_taken name) (semesters s)) eqn:Hname.
  { cbn [sem_result sem_after semesters].
    split; [|split; [discriminate | reflexivity]].
    split; [discriminate|]. intros [_ [_ [_ H]]].
    apply existsb_exists in Hname. destruct Hname as [r [Hr Ht]].
    unfold name_taken in Ht. apply String.eqb_eq in Ht.
    exfalso. now apply (H r Hr). }
  cbn [sem_result sem_after semesters].
  split; [|split; [reflexivity | intros H; now contradiction H]].
  split; [|reflexivity]. intros _.
  split; [exact Hn|]. split; [lia|]. split.
  - intros r Hr. apply overlaps_false.
    pose proof (existsb_false_in _ _ r Hov Hr) as Hr'. cbn in Hr'.
    now rewrite andb_true_r in Hr'.
  - intros r Hr Heq.
    pose proof (existsb_false_in _ _ r Hname Hr) as Hr'.
    unfold name_taken in Hr'. rewrite Heq, String.eqb_refl in Hr'.
    discriminate.
Qed.

Lemma add_new_semester_accepts_witness :
  let run := add_new_semester "Summer 2025" (Some 739300) (Some 739400)
               (quiet_env t_issue) seeded_semesters in
  sem_result run <> Returned true
  /\ semesters (sem_after run) = semesters seeded_semesters.
Proof.
  destruct (add_new_semester_accepts "Summer 2025" 739300 739400
              (quiet_env t_issue) seeded_semesters eq_refl
              (fun _ => eq_refl)) as [_ [_ H]].
  assert (Hno : sem_result (add_new_semester "Summer 2025" (Some 739300)
                              (Some 739400) (quiet_env t_issue)
                              seeded_semesters) <> Returned true)
    by (vm_compute; discriminate).
  split; [exact Hno | exact (H Hno)].
Defined.
